(** * Verification of the FHOS equipment-report pipeline (app_optimized.py)

    The development embeds the data transformation pipeline of
    [app_optimized.py]: the handpiece classifier, the usage normaliser, the
    service-life estimator [calculate_vida_util], the temporal filter
    [process_handpiece_dates], the treatment joiner [process_treatments], the
    three summary builders and the suggested cut-off date.

    Conventions of the embedding.
    - A Python [str] is a [string]; its characters are the code points
      0..255, on which the regular expression class [\d] is exactly the ten
      ASCII digits.
    - A Python [int] is a [Z].
    - A Python or NumPy [float] (IEEE binary64) is the rational it denotes.
      Every arithmetic operation returns the exact result rounded to the
      nearest 53-bit significand, ties to even ([Binary64.RN]).  Infinities,
      NaN and subnormals are outside the model; the single place where Python
      raises on them (conversion of a huge [int]) is modelled by [option].
    - A pandas DataFrame is the list of its rows, a row is a record.
    - A pandas [Timestamp] is its nanosecond count together with its time
      zone ([None] for a naive timestamp). *)

From Stdlib Require Import ZArith QArith Qround Qabs Qpower.
From Stdlib Require Import List String Ascii Bool.
From Stdlib Require Import Lia Lqa Permutation Sorted.
From Stdlib Require Import DecimalString DecimalPos DecimalN OrderedTypeEx.
Import ListNotations.

Local Open Scope Z_scope.

(* ===================================================================== *)
(** * Python values, [str()] and the two regular expressions             *)
(* ===================================================================== *)

Module Py.

(** The values a [handpiece_id] cell holds after [read_csv]: text, or an
    integer when the whole column is numeric. *)
Inductive value : Type :=
| Str (s : string)
| Int (z : Z).

(** [str(x)] *)
Definition str (x : value) : string :=
  match x with
  | Str s => s
  | Int z => NilZero.string_of_int (Z.to_int z)
  end.

(** [\d] on code points below 256. *)
Definition is_digit (c : ascii) : bool :=
  let n := nat_of_ascii c in (48 <=? n)%nat && (n <=? 57)%nat.

Definition newline : ascii := ascii_of_nat 10.

(** [$] without [re.MULTILINE]: the end of the string, or the position just
    before a newline that is the last character of the string. *)
Definition at_dollar (rest : string) : bool :=
  match rest with
  | EmptyString => true
  | String c EmptyString => Ascii.eqb c newline
  | _ => false
  end.

(** [re.search(c + r'\d$', s) is not None], for a literal character [c]:
    the pattern is tried at every position from the left. *)
Fixpoint re_search_cd (c : ascii) (s : string) : bool :=
  match s with
  | String a ((String b rest) as tl) =>
      (Ascii.eqb a c && is_digit b && at_dollar rest) || re_search_cd c tl
  | _ => false
  end.

End Py.

(* ===================================================================== *)
(** * Identity classifier (the lambda of [process_data], lines 134-138)   *)
(* ===================================================================== *)

Definition MAIN_FUNCTION : string := "M.F.".
Definition SECONDARY_FUNCTION : string := "F.F.".
Definition UNIDENTIFIED : string := "Manguera_no_identificada".

Definition classify_handpiece (x : Py.value) : string :=
  if Py.re_search_cd "2" (Py.str x) then SECONDARY_FUNCTION
  else if Py.re_search_cd "1" (Py.str x) then MAIN_FUNCTION
  else UNIDENTIFIED.

(* ===================================================================== *)
(** * IEEE binary64 arithmetic, as rationals with the rounding written out *)
(* ===================================================================== *)

Module Binary64.
Local Open Scope Q_scope.

(** Round to the nearest integer, ties to the even one (C [rint],
    [numpy.rint]). *)
Definition rint (x : Q) : Z :=
  let f := Qfloor x in
  match ((x - inject_Z f) ?= (1 # 2))%Q with
  | Lt => f
  | Gt => (f + 1)%Z
  | Eq => if Z.even f then f else (f + 1)%Z
  end.

(** Binary exponent of a positive rational: [2^e <= x < 2^(e+1)]. *)
Definition ilog2 (x : Q) : Z :=
  let k := (Z.log2 (Qnum x) - Z.log2 (Z.pos (Qden x)))%Z in
  if Qle_bool ((2 ^ k)%Q) x then k else (k - 1)%Z.

(** Unit in the last place of a 53-bit significand at [x]. *)
Definition ulp (x : Q) : Q := 2 ^ (ilog2 x - 52).

Definition RNpos (x : Q) : Q := inject_Z (rint (x / ulp x)) * ulp x.

(** The binary64 number nearest to the exact result [x], ties to even. *)
Definition RN (x : Q) : Q :=
  match x ?= 0 with
  | Eq => 0
  | Gt => Qred (RNpos x)
  | Lt => Qred (- RNpos (- x))
  end.

Definition fadd (x y : Q) : Q := RN (x + y).
Definition fsub (x y : Q) : Q := RN (x - y).
Definition fmul (x y : Q) : Q := RN (x * y).
Definition fdiv (x y : Q) : Q := RN (x / y).

(** Largest finite magnitude is below [2^1024]; a result that rounds to
    [2^1024] or more does not fit. *)
Definition overflows (x : Q) : bool := Qle_bool (2 ^ 1024) (Qabs x).

(** Relative rounding error bound [2^-53]. *)
Definition eps53 : Q := 1 # 9007199254740992.

End Binary64.

Module PyNum.
Import Binary64.
Local Open Scope Q_scope.

(** Python [float(n)] for an [int]: correctly rounded, [OverflowError]
    ([None]) when the integer is too large. *)
Definition float_of_int (n : Z) : option Q :=
  let r := RN (inject_Z n) in
  if overflows r then None else Some r.

(** Python [a / b] on two [int]s: the correctly rounded quotient;
    [ZeroDivisionError] and [OverflowError] are [None]. *)
Definition int_truediv (a b : Z) : option Q :=
  if (b =? 0)%Z then None
  else let r := RN (inject_Z a / inject_Z b) in
       if overflows r then None else Some r.

(** Decimal digits of a natural number. *)
Definition dec (n : Z) : string := NilZero.string_of_uint (N.to_uint (Z.to_N n)).

(** A number of tenths printed with one decimal: [1000] is ["100.0"]. *)
Definition show_tenths (t : Z) : string :=
  (dec (t / 10) ++ "." ++ dec (t mod 10))%string.

(** [f"{x:.1f}"]: the exact binary value of [x] is rounded to one decimal,
    ties to even. *)
Definition format_1f (x : Q) : string :=
  let t := rint (x * 10) in
  match (x ?= 0)%Q with
  | Lt => ("-" ++ show_tenths (Z.abs t))%string
  | _ => show_tenths t
  end.

(** NumPy [x.round(2)]: multiply by 100, [rint], divide by 100. *)
Definition np_round2 (x : Q) : Q := fdiv (inject_Z (rint (fmul x 100))) 100.

(** NumPy [x.round(0)] is [rint]. *)
Definition np_round0 (x : Q) : Z := rint x.

End PyNum.

(* ===================================================================== *)
(** * Usage normaliser and service-life estimator                         *)
(* ===================================================================== *)

(** The four counters of a handpiece row after the renaming of
    [process_data]. *)
Record usage_row : Type := {
  pulso : Z;
  rafaga : Z;
  activacion : Z;
  modulacion : Z
}.

(** [(handpiece_df['pulse_count'] / 3).round(0).astype(int)] on one cell. *)
Definition normalize_pulse (pulse_count : Z) : Z :=
  PyNum.np_round0 (Binary64.fdiv (Binary64.RN (inject_Z pulse_count)) 3).

Definition vida_error : string := "Error".

(** [calculate_vida_util(row, handpiece_id)].  The body runs in the option
    monad; [None] is an exception caught by [except Exception], which
    returns ['Error']. *)
Definition calculate_vida_util (row : usage_row) (handpiece_id : Py.value) : string :=
  let result : option string :=
    if Py.re_search_cd "1" (Py.str handpiece_id) then
      (* M.F. calculation, on ints *)
      let total := 4000000 in
      let used := pulso row * 20 + rafaga row * 1 + (activacion row + modulacion row) in
      let remaining := total - used in
      if remaining <=? 0 then Some "0%"%string
      else
        match PyNum.int_truediv remaining total with
        | None => None
        | Some q => Some (PyNum.format_1f (Binary64.fmul q 100) ++ "%")%string
        end
    else if Py.re_search_cd "2" (Py.str handpiece_id) then
      (* F.F. calculation: the factor 0.5 makes [used] a float *)
      let total := 2000000 in
      match PyNum.float_of_int (pulso row * 10 + rafaga row * 1),
            PyNum.float_of_int (activacion row + modulacion row) with
      | Some pr, Some am =>
          let used := Binary64.fadd pr (Binary64.fmul am (1 # 2)) in
          let remaining := Binary64.fsub (inject_Z total) used in
          if Qle_bool remaining 0 then Some "0%"%string
          else
            Some (PyNum.format_1f
                    (Binary64.fmul (Binary64.fdiv remaining (inject_Z total)) 100) ++ "%")%string
      | _, _ => None
      end
    else Some UNIDENTIFIED
  in
  match result with
  | Some s => s
  | None => vida_error
  end.

(** The number a service-life string shows, in tenths of a percent:
    ["99.9%"] reads 999 and ["0%"] reads 0.  Sentinels read nothing. *)
Fixpoint split_at (c : ascii) (s : string) : option (string * string) :=
  match s with
  | EmptyString => None
  | String a rest =>
      if Ascii.eqb a c then Some (EmptyString, rest)
      else match split_at c rest with
           | Some (l, r) => Some (String a l, r)
           | None => None
           end
  end.

Definition read_uint (s : string) : option Z :=
  match NilZero.uint_of_string s with
  | Some u => Some (Z.of_N (N.of_uint u))
  | None => None
  end.

Definition read_percent (s : string) : option Z :=
  match split_at "%" s with
  | Some (body, EmptyString) =>
      match split_at "." body with
      | Some (ip, fp) =>
          match read_uint ip, read_uint fp with
          | Some i, Some f => if (String.length fp =? 1)%nat then Some (i * 10 + f) else None
          | _, _ => None
          end
      | None =>
          match read_uint body with
          | Some i => Some (i * 10)
          | None => None
          end
      end
  | _ => None
  end.

(* ===================================================================== *)
(** * pandas: timestamps, frames, sorting, the clock                      *)
(* ===================================================================== *)

Module Pd.

Inductive tzinfo : Type :=
| UTC
| FixedOffset (minutes : Z).

(** A [Timestamp]: nanoseconds since the Unix epoch (of the instant when
    [tz] is set, of the wall clock when it is naive). *)
Record Timestamp : Type := {
  value : Z;
  tz : option tzinfo
}.

(** [t.tz_localize('UTC')] on a naive timestamp. *)
Definition tz_localize_UTC (t : Timestamp) : Timestamp :=
  {| value := value t; tz := Some UTC |}.

Definition ns_per_day : Z := 86400 * 1000000000.

(** Days between 1970-01-01 and the civil date [y-m-d] (proleptic
    Gregorian calendar). *)
Definition days_from_civil (y m d : Z) : Z :=
  let y' := if m <=? 2 then y - 1 else y in
  let era := y' / 400 in
  let yoe := y' - era * 400 in
  let mp := if 2 <? m then m - 3 else m + 9 in
  let doy := (153 * mp + 2) / 5 + d - 1 in
  let doe := yoe * 365 + yoe / 4 - yoe / 100 + doy in
  era * 146097 + doe - 719468.

(** [pd.Timestamp('y-m-d', tz=...)] *)
Definition Timestamp_of_date (y m d : Z) (zone : option tzinfo) : Timestamp :=
  {| value := days_from_civil y m d * ns_per_day; tz := zone |}.

(** [Timedelta.days]: whole days, rounded towards minus infinity. *)
Definition Timedelta_days (delta : Z) : Z := delta / ns_per_day.

(** A [Timedelta] is a 64-bit count of nanoseconds; the least 64-bit
    value is [NaT] and is no [Timedelta]. *)
Definition Timedelta_fits (delta : Z) : bool := (- 2 ^ 63 <? delta) && (delta <? 2 ^ 63).

(** [a - b] on two timestamps of one zone awareness: the subtraction is
    overflow-checked, and [None] is the exception it raises when the
    difference is no [Timedelta]. *)
Definition Timestamp_sub (a b : Z) : option Z :=
  if Timedelta_fits (a - b) then Some (a - b) else None.

(** [Series.apply(f)] for an [f] that can raise: the cells are visited in
    order and the first exception ends the call. *)
Fixpoint Series_apply {A B : Type} (f : A -> option B) (l : list A) : option (list B) :=
  match l with
  | [] => Some []
  | a :: rest =>
      match f a with
      | None => None
      | Some b =>
          match Series_apply f rest with
          | None => None
          | Some bs => Some (b :: bs)
          end
      end
  end.

(** A DataFrame is the list of its rows; [NoColumns] is [pd.DataFrame()],
    the value every [except] branch of the pipeline returns. *)
Inductive DataFrame (R : Type) : Type :=
| Frame (rows : list R)
| NoColumns.
Arguments Frame {R} rows.
Arguments NoColumns {R}.

Definition frame_rows {R : Type} (df : DataFrame R) : list R :=
  match df with
  | Frame rows => rows
  | NoColumns => []
  end.

(** [df.sort_values(by=key, ascending=False)].  The order of rows with
    equal keys is left to NumPy's sort; here equal keys keep their input
    order. *)
Fixpoint insert_desc {R : Type} (key : R -> Z) (r : R) (l : list R) : list R :=
  match l with
  | [] => [r]
  | h :: t => if key h <=? key r then r :: h :: t else h :: insert_desc key r t
  end.

Definition sort_values_desc {R : Type} (key : R -> Z) (l : list R) : list R :=
  fold_right (insert_desc key) [] l.

(** The system clock: the value of every future reading and the number of
    readings taken so far. *)
Record World : Type := {
  clock : nat -> Z;
  reads : nat
}.

(** [pd.Timestamp.now(tz='UTC')] *)
Definition Timestamp_now (w : World) : Z * World :=
  (clock w (reads w), {| clock := clock w; reads := S (reads w) |}).

End Pd.

(* ===================================================================== *)
(** * Temporal filter: [process_handpiece_dates]                          *)
(* ===================================================================== *)

Definition ACTIVO : string := "ACTIVO".
Definition INACTIVO : string := "INACTIVO".

(** A handpiece row as [process_data] hands it over: counters normalised
    and renamed, class label and service life computed.  [fecha_uso_ns] is
    what [pd.to_datetime] reads in the cell; [None] is [NaT]. *)
Record handpiece : Type := {
  h_din : string;
  tipo_manipulo : string;
  numero_serie : string;
  fecha_uso_ns : option Z;
  vida_util : string;
  counters : usage_row
}.

(** A row of the result: the input row, its timestamp as a zoned
    [Timestamp], and the status. *)
Record handpiece_out : Type := {
  fecha_uso : Pd.Timestamp;
  estado : string;
  h_row : handpiece
}.

Definition dated {R : Type} (stamp : R -> option Z) (l : list R) : list (Z * R) :=
  flat_map (fun r => match stamp r with Some v => [(v, r)] | None => [] end) l.

(** The rows with [stamp >= cutoff]; a comparison with [NaT] is false. *)
Definition on_or_after {R : Type} (stamp : R -> option Z) (cutoff : Z) (l : list R)
  : list (Z * R) :=
  filter (fun vr => cutoff <=? fst vr) (dated stamp l).

(** The lambda of line 203 on one cell:
    ['ACTIVO' if (today - x).days < 30 else 'INACTIVO']; [None] when the
    subtraction raises. *)
Definition estado_of (today fecha : Z) : option string :=
  match Pd.Timestamp_sub today fecha with
  | Some delta => Some (if Pd.Timedelta_days delta <? 30 then ACTIVO else INACTIVO)
  | None => None
  end.

(** A kept row with its zoned timestamp and its status. *)
Definition with_estado (zone : Pd.tzinfo) (today : Z) (vr : Z * handpiece)
  : option handpiece_out :=
  match estado_of today (fst vr) with
  | Some e => Some {| fecha_uso := {| Pd.value := fst vr; Pd.tz := Some zone |};
                      estado := e;
                      h_row := snd vr |}
  | None => None
  end.

(** [process_handpiece_dates(filtered_handpiece_df, cutoff_date)].
    [col_tz] is the zone of the parsed [fecha_uso] column ([None]: naive).
    Every exception ends in the [except] branch, which returns
    [pd.DataFrame()]: the comparison with a naive cut-off, before the clock
    is read, and a subtraction that overflows, after it. *)
Definition process_handpiece_dates
    (col_tz : option Pd.tzinfo) (filtered_handpiece_df : list handpiece)
    (cutoff_date : Pd.Timestamp) (w : Pd.World)
  : Pd.DataFrame handpiece_out * Pd.World :=
  (* dt.tz_localize('UTC') when the column is naive *)
  let zone := match col_tz with None => Pd.UTC | Some z => z end in
  match Pd.tz cutoff_date with
  | None =>
      (* a zoned column compared with a naive cutoff raises TypeError *)
      (Pd.NoColumns, w)
  | Some _ =>
      let kept := on_or_after fecha_uso_ns (Pd.value cutoff_date) filtered_handpiece_df in
      let sorted := Pd.sort_values_desc fst kept in
      let (today, w') := Pd.Timestamp_now w in
      match Pd.Series_apply (with_estado zone today) sorted with
      | Some out => (Pd.Frame out, w')
      | None => (Pd.NoColumns, w')
      end
  end.

(* ===================================================================== *)
(** * Treatment joiner: [process_treatments]                              *)
(* ===================================================================== *)

Record treatment : Type := {
  t_din : string;
  code : string;
  reported_at_ns : option Z;
  duration : Z
}.

(** A row of the lookup table [treatments_id.csv]; an empty cell is
    [None]. *)
Record treatment_id : Type := {
  Treatment_ID : string;
  id_Tipo : option string;
  id_Subtipo : option string;
  id_Subprograma : option string;
  id_PVP : option Z;
  id_Secuencia : option Q
}.

(** A row of the left merge: the lookup columns are all missing when no
    lookup row matched. *)
Record merged : Type := {
  m_left : treatment;
  m_right : option treatment_id
}.

Definition column {A : Type} (f : treatment_id -> option A) (m : merged) : option A :=
  match m_right m with
  | Some r => f r
  | None => None
  end.

(** [left.merge(right, how='left', left_on='code', right_on='Treatment_ID')]:
    every left row, in order, once for each lookup row with its code, and
    once with missing lookup columns when there is none. *)
Definition matches_of (right : list treatment_id) (t : treatment) : list treatment_id :=
  filter (fun r => String.eqb (code t) (Treatment_ID r)) right.

Definition merge_row (right : list treatment_id) (t : treatment) : list merged :=
  match matches_of right t with
  | [] => [{| m_left := t; m_right := None |}]
  | ms => map (fun r => {| m_left := t; m_right := Some r |}) ms
  end.

Definition merge_left (left : list treatment) (right : list treatment_id) : list merged :=
  flat_map (merge_row right) left.

Definition fillna {A : Type} (x : option A) (default : A) : A :=
  match x with
  | Some a => a
  | None => default
  end.

(** A merged row after [assign(... fillna ...)]. *)
Record joined : Type := {
  source : treatment;
  Tipo : string;
  Subtipo : option string;
  Subprograma : string;
  PVP : Z;
  Secuencia : Q
}.

Definition assign_defaults (m : merged) : joined :=
  {| source := m_left m;
     Tipo := fillna (column id_Tipo m) "FHOS"%string;
     Subtipo := column id_Subtipo m;
     Subprograma := fillna (column id_Subprograma m) "FHOS genérico"%string;
     PVP := fillna (column id_PVP m) 60;
     Secuencia := fillna (column id_Secuencia m) 1%Q |}.

(** The first two statements of [process_treatments]. *)
Definition merge_and_fill (treatments_df : list treatment)
    (treatments_id_df : list treatment_id) : list joined :=
  map assign_defaults (merge_left treatments_df treatments_id_df).

Record treatment_out : Type := {
  reported_at : Pd.Timestamp;
  t_row : joined
}.

(** [process_treatments(_treatments_df, treatments_id_df, din, cutoff_date)] *)
Definition process_treatments
    (col_tz : option Pd.tzinfo) (treatments_df : list treatment)
    (treatments_id_df : list treatment_id) (din : string) (cutoff_date : Pd.Timestamp)
  : Pd.DataFrame treatment_out :=
  let filled := merge_and_fill treatments_df treatments_id_df in
  let filtered := filter (fun j => String.eqb (t_din (source j)) din) filled in
  let zone := match col_tz with None => Pd.UTC | Some z => z end in
  match Pd.tz cutoff_date with
  | None => Pd.NoColumns
  | Some _ =>
      Pd.Frame
        (map (fun vr => {| reported_at := {| Pd.value := fst vr; Pd.tz := Some zone |};
                           t_row := snd vr |})
             (on_or_after (fun j => reported_at_ns (source j)) (Pd.value cutoff_date) filtered))
  end.

(* ===================================================================== *)
(** * Aggregator: the three summaries                                     *)
(* ===================================================================== *)

Record summary_row : Type := {
  label : string;
  Cantidad : Z;
  PVP_sum : Z;
  pct_tratamientos : option Q;
  pct_ingresos : option Q
}.

(** One group of [groupby(...).agg(Cantidad=(key, 'count'), PVP=('PVP', 'sum'))]. *)
Record group : Type := {
  g_label : string;
  g_Cantidad : Z;
  g_PVP : Z
}.

Definition has_key (key : joined -> option string) (k : string) (r : joined) : bool :=
  match key r with
  | Some k' => String.eqb k' k
  | None => false
  end.

(** The distinct group keys in increasing order; rows whose key is missing
    belong to no group ([dropna=True]). *)
Fixpoint insert_key (k : string) (l : list string) : list string :=
  match l with
  | [] => [k]
  | h :: t =>
      match String.compare k h with
      | Lt => k :: h :: t
      | Eq => h :: t
      | Gt => h :: insert_key k t
      end
  end.

Definition group_keys (key : joined -> option string) (rows : list joined) : list string :=
  fold_right (fun r acc => match key r with Some k => insert_key k acc | None => acc end)
             [] rows.

Definition Zsum (l : list Z) : Z := fold_right Z.add 0 l.

Definition groupby_agg (key : joined -> option string) (rows : list joined) : list group :=
  map (fun k =>
         let members := filter (has_key key k) rows in
         {| g_label := k;
            g_Cantidad := Z.of_nat (List.length members);
            g_PVP := Zsum (map PVP members) |})
      (group_keys key rows).

(** [(part / total * 100).round(2)] on float64 cells; a division by zero
    gives a non-finite cell ([None]) and raises nothing. *)
Definition percentage (part total : Z) : option Q :=
  if total =? 0 then None
  else Some (PyNum.np_round2
               (Binary64.fmul
                  (Binary64.fdiv (Binary64.RN (inject_Z part)) (Binary64.RN (inject_Z total)))
                  100)).

(** [filtered_treatments_df[filtered_treatments_df['Secuencia'] == 1.0]] *)
Definition first_steps (rows : list treatment_out) : list joined :=
  filter (fun r => Qeq_bool (Secuencia r) 1) (map t_row rows).

(** [....groupby(key).agg(...).sort_values(by='Cantidad', ascending=False)] *)
Definition resumen_of (key : joined -> option string) (rows : list treatment_out)
  : list group :=
  Pd.sort_values_desc g_Cantidad (groupby_agg key (first_steps rows)).

(** The common body of [create_treatment_summary], [create_program_summary]
    and [create_subprogram_summary]; they differ in the grouping column. *)
Definition create_summary (key : joined -> option string)
    (filtered_treatments_df : Pd.DataFrame treatment_out) : Pd.DataFrame summary_row :=
  match filtered_treatments_df with
  | Pd.NoColumns => Pd.NoColumns      (* KeyError: 'Secuencia' *)
  | Pd.Frame rows =>
      let resumen := resumen_of key rows in
      let total_cantidad := Zsum (map g_Cantidad resumen) in
      let total_pvp := Zsum (map g_PVP resumen) in
      Pd.Frame
        (map (fun g =>
                {| label := g_label g;
                   Cantidad := g_Cantidad g;
                   PVP_sum := g_PVP g;
                   pct_tratamientos := percentage (g_Cantidad g) total_cantidad;
                   pct_ingresos := percentage (g_PVP g) total_pvp |})
             resumen)
  end.

Definition create_treatment_summary := create_summary (fun r => Some (Tipo r)).
Definition create_program_summary := create_summary Subtipo.
Definition create_subprogram_summary := create_summary (fun r => Some (Subprograma r)).

(* ===================================================================== *)
(** * Suggested cut-off date                                              *)
(* ===================================================================== *)

(** A cell of the [fecha_corte] column as [read_csv] delivers it. *)
Inductive excel_cell : Type :=
| XInt (n : Z)
| XFloat (days : Q)
| XNaN
| XStr (s : string).

(** [str.isdigit()] on code points below 256: at least one character, each
    an ASCII digit or one of the superscripts 1, 2, 3. *)
Definition isdigit_char (c : ascii) : bool :=
  let n := nat_of_ascii c in
  Py.is_digit c || (n =? 178)%nat || (n =? 179)%nat || (n =? 185)%nat.

Fixpoint all_chars (p : ascii -> bool) (s : string) : bool :=
  match s with
  | EmptyString => true
  | String c rest => p c && all_chars p rest
  end.

Definition isdigit (s : string) : bool :=
  match s with
  | EmptyString => false
  | _ => all_chars isdigit_char s
  end.

Definition in_int64 (z : Z) : bool := (- 2 ^ 63 <? z) && (z <? 2 ^ 63).

Definition truncate (x : Q) : Z := Z.quot (Qnum x) (Z.pos (Qden x)).

(** The nanoseconds of [pd.Timedelta(days=x)] for a float [x], before they
    are cut to an integer: [((x * 24) * 3600) * 1_000_000_000], each product
    rounded to binary64. *)
Definition Timedelta_days_float (days : Q) : Q :=
  Binary64.fmul (Binary64.fmul (Binary64.fmul days 24) 3600) 1000000000.

(** [pd.Timestamp('1899-12-30') + pd.Timedelta(ns)]; a value outside the
    64-bit nanosecond range raises, which [convert_excel_date] turns into
    [NaT]. *)
Definition excel_epoch_plus (ns : Z) : option Z :=
  let v := Pd.value (Pd.Timestamp_of_date 1899 12 30 None) + ns in
  if in_int64 ns && in_int64 v then Some v else None.

(** [convert_excel_date(excel_date)]: the naive timestamp, or [NaT]. *)
Definition convert_excel_date (excel_date : excel_cell) : option Z :=
  match excel_date with
  | XInt n => excel_epoch_plus (n * Pd.ns_per_day)
  | XFloat days => excel_epoch_plus (truncate (Timedelta_days_float days))
  | XNaN => None
  | XStr s =>
      if isdigit s then
        match read_uint s with                 (* float(s); ValueError is None *)
        | Some n => excel_epoch_plus (n * Pd.ns_per_day)
        | None => None
        end
      else None
  end.

Record drv (C : Type) : Type := {
  drv_din : string;
  fecha_corte : C
}.
Arguments drv_din {C} _.
Arguments fecha_corte {C} _.

(** [drv_df['fecha_corte'] = drv_df['fecha_corte'].apply(convert_excel_date)]
    in [load_data]. *)
Definition load_drv (drv_df : list (drv excel_cell)) : list (drv (option Z)) :=
  map (fun r => {| drv_din := drv_din r; fecha_corte := convert_excel_date (fecha_corte r) |})
      drv_df.

Definition min_date : Pd.Timestamp := Pd.Timestamp_of_date 2023 1 1 (Some Pd.UTC).

(** [get_suggested_cutoff_date(_drv_df, din)].  An empty selection makes
    [iloc[0]] raise [IndexError]; [NaT] has no zone and stays [NaT] under
    [tz_localize]. *)
Definition get_suggested_cutoff_date (_drv_df : list (drv (option Z))) (din : string)
  : Pd.Timestamp :=
  match filter (fun r => String.eqb (drv_din r) din) _drv_df with
  | [] => min_date
  | r :: _ =>
      match fecha_corte r with
      | None => min_date
      | Some v =>
          let fecha := Pd.tz_localize_UTC {| Pd.value := v; Pd.tz := None |} in
          if Pd.value fecha <? Pd.value min_date then min_date else fecha
      end
  end.

(* ===================================================================== *)
(** * The pipeline: [process_data]                                        *)
(* ===================================================================== *)

(** A row of [handpieces.csv], without the columns that [process_data]
    drops. *)
Record raw_handpiece : Type := {
  din : string;
  handpiece_id : Py.value;
  serial_number : string;
  created_at : option Z;
  pulse_count : Z;
  burst_count : Z;
  activation_count : Z;
  modulation_count : Z
}.

(** Rescaling of the pulse counter and renaming of the four counters. *)
Definition normalize_usage (r : raw_handpiece) : usage_row :=
  {| pulso := normalize_pulse (pulse_count r);
     rafaga := burst_count r;
     activacion := activation_count r;
     modulacion := modulation_count r |}.

(** The row after the service life is added (from the raw identifier), the
    identifier is replaced by its class label and the columns are renamed. *)
Definition prepare_handpiece (r : raw_handpiece) : handpiece :=
  {| h_din := din r;
     tipo_manipulo := classify_handpiece (handpiece_id r);
     numero_serie := serial_number r;
     fecha_uso_ns := created_at r;
     vida_util := calculate_vida_util (normalize_usage r) (handpiece_id r);
     counters := normalize_usage r |}.

Definition normalize_cutoff (cutoff_date : Pd.Timestamp) : Pd.Timestamp :=
  match Pd.tz cutoff_date with
  | None => Pd.tz_localize_UTC cutoff_date
  | Some _ => cutoff_date
  end.

(** [process_data(_handpiece_df, _treatments_df, treatments_id_df, din,
    cutoff_date)]; [created_tz] and [reported_tz] are the zones of the two
    parsed timestamp columns. *)
Definition process_data
    (created_tz : option Pd.tzinfo) (_handpiece_df : list raw_handpiece)
    (reported_tz : option Pd.tzinfo) (_treatments_df : list treatment)
    (treatments_id_df : list treatment_id)
    (din' : string) (cutoff_date : Pd.Timestamp) (w : Pd.World)
  : (Pd.DataFrame handpiece_out * Pd.DataFrame treatment_out) * Pd.World :=
  let cutoff_date := normalize_cutoff cutoff_date in
  let handpiece_df := map prepare_handpiece _handpiece_df in
  let (filtered_handpiece_df, w') :=
    process_handpiece_dates created_tz
      (filter (fun h => String.eqb (h_din h) din') handpiece_df) cutoff_date w in
  let filtered_treatments_df :=
    process_treatments reported_tz _treatments_df treatments_id_df din' cutoff_date in
  ((filtered_handpiece_df, filtered_treatments_df), w').

(** Rows in descending order of [key]. *)
Definition descending {R : Type} (key : R -> Z) (a b : R) : Prop := key b <= key a.

Fixpoint Qsum (l : list Q) : Q :=
  match l with
  | [] => 0%Q
  | x :: rest => (x + Qsum rest)%Q
  end.

(** The character [c] does not occur in [s]. *)
Definition lacks (c : ascii) (s : string) : bool :=
  all_chars (fun a => negb (Ascii.eqb a c)) s.

(** The tenths of a percent printed for [k] remaining units out of
    4,000,000: [k / 4000000 * 100] in binary64, then one decimal. *)
Definition tenths_of (k : Z) : Z :=
  Binary64.rint
    (Binary64.fmul (Binary64.RN (inject_Z k / inject_Z 4000000)) 100 * 10).

Definition vida_string (k : Z) : string :=
  if k <=? 0 then "0%"%string else (PyNum.show_tenths (tenths_of k) ++ "%")%string.

(* ===================================================================== *)
(** * The specification's wording, for comparison with the code           *)
(* ===================================================================== *)

(** The text ends with a digit, the character [c] and a digit. *)
Definition ends_digit_c_digit (c : ascii) (s : string) : Prop :=
  exists pre d1 d2,
    s = (pre ++ String d1 (String c (String d2 EmptyString)))%string /\
    Py.is_digit d1 = true /\ Py.is_digit d2 = true.

(** The classification rule as the specification words it: digit, "1",
    digit is the main function; digit, "2", digit the secondary one; every
    other text is unidentified. *)
Definition classifier_rule_as_worded (x : Py.value) : Prop :=
  (ends_digit_c_digit "1" (Py.str x) -> classify_handpiece x = MAIN_FUNCTION) /\
  (ends_digit_c_digit "2" (Py.str x) -> classify_handpiece x = SECONDARY_FUNCTION) /\
  (~ ends_digit_c_digit "1" (Py.str x) -> ~ ends_digit_c_digit "2" (Py.str x) ->
   classify_handpiece x = UNIDENTIFIED).

(** The text ends with the character [c] and a digit; one newline may
    follow. *)
Definition ends_c_digit (c : ascii) (s : string) : Prop :=
  exists pre d,
    Py.is_digit d = true /\
    (s = (pre ++ String c (String d EmptyString))%string \/
     s = (pre ++ String c (String d (String Py.newline EmptyString)))%string).

(** Counters as the data model has them: non-negative integers, read from
    64-bit columns. *)
Definition counter_range (row : usage_row) : Prop :=
  0 <= pulso row < 2 ^ 63 /\ 0 <= rafaga row < 2 ^ 63 /\
  0 <= activacion row < 2 ^ 63 /\ 0 <= modulacion row < 2 ^ 63.

Definition usage_le (r r' : usage_row) : Prop :=
  pulso r <= pulso r' /\ rafaga r <= rafaga r' /\
  activacion r <= activacion r' /\ modulacion r <= modulacion r'.

Definition consumed_main (row : usage_row) : Q :=
  inject_Z (pulso row) * 20 + inject_Z (rafaga row) * 1 +
  (inject_Z (activacion row) + inject_Z (modulacion row)) * 1.

Definition consumed_secondary (row : usage_row) : Q :=
  inject_Z (pulso row) * 10 + inject_Z (rafaga row) * 1 +
  (inject_Z (activacion row) + inject_Z (modulacion row)) * (1 # 2).

Definition remaining_percent (total_capacity consumed : Q) : Q :=
  (total_capacity - consumed) / total_capacity * 100.

(** The text [s] is a number with one decimal place followed by a percent
    sign, and that number is a nearest one to [p]. *)
Definition one_decimal_percent (p : Q) (s : string) : Prop :=
  exists t : Z,
    s = (PyNum.show_tenths t ++ "%")%string /\
    (Qabs (inject_Z t / 10 - p) <= 1 # 20)%Q.

(** The temporal filter as the specification words it, for every table,
    cut-off and clock: a table comes back and the clock is read once; the
    table holds exactly the rows on or after the cut-off, each with its own
    timestamp, zoned (UTC when the column was naive), in descending order of
    timestamp, ACTIVO when the clock reading minus the timestamp is less
    than 30 days and INACTIVO otherwise. *)
Definition temporal_filter_as_worded
    (col_tz : option Pd.tzinfo) (df : list handpiece) (cutoff : Pd.Timestamp) (w : Pd.World)
  : Prop :=
  exists out : list handpiece_out,
    process_handpiece_dates col_tz df (normalize_cutoff cutoff) w =
      (Pd.Frame out, {| Pd.clock := Pd.clock w; Pd.reads := S (Pd.reads w) |}) /\
    Permutation (map h_row out)
      (filter (fun r => match fecha_uso_ns r with
                        | Some v => Pd.value cutoff <=? v
                        | None => false
                        end) df) /\
    Forall (fun o =>
              fecha_uso_ns (h_row o) = Some (Pd.value (fecha_uso o)) /\
              Pd.tz (fecha_uso o) = Some (match col_tz with None => Pd.UTC | Some z => z end))
           out /\
    StronglySorted (fun a b => Pd.value (fecha_uso b) <= Pd.value (fecha_uso a)) out /\
    Forall (fun o =>
              let today := Pd.clock w (Pd.reads w) in
              (estado o = ACTIVO <->
               today - Pd.value (fecha_uso o) < 30 * Pd.ns_per_day) /\
              (estado o = INACTIVO <->
               30 * Pd.ns_per_day <= today - Pd.value (fecha_uso o)))
           out.

(** Every row on or after the cut-off is within reach of the clock: the
    clock reading minus its timestamp fits the 64-bit nanoseconds of a
    [Timedelta], which span a little over 292 years either way. *)
Definition within_reach {R : Type} (stamp : R -> option Z) (today cutoff : Z) (l : list R)
  : Prop :=
  forall r v, In r l -> stamp r = Some v -> cutoff <= v ->
              - 2 ^ 63 < today - v < 2 ^ 63.

(** A handpiece of device "D1" reported on the first of January 1700. *)
Definition handpiece_of_1700 : handpiece :=
  {| h_din := "D1"; tipo_manipulo := MAIN_FUNCTION; numero_serie := "S-1";
     fecha_uso_ns := Some (Pd.value (Pd.Timestamp_of_date 1700 1 1 None));
     vida_util := "100.0%";
     counters := {| pulso := 0; rafaga := 0; activacion := 0; modulacion := 0 |} |}.

(** A clock that shows the first of January 2026. *)
Definition clock_of_2026 : Pd.World :=
  {| Pd.clock := fun _ => Pd.value (Pd.Timestamp_of_date 2026 1 1 None); Pd.reads := 0 |}.

(** The treatment code has no row in the lookup table. *)
Definition unmatched (treatments_id_df : list treatment_id) (t : treatment) : Prop :=
  forall l, In l treatments_id_df -> Treatment_ID l <> code t.

Definition matched_b (treatments_id_df : list treatment_id) (t : treatment) : bool :=
  existsb (fun l => String.eqb (code t) (Treatment_ID l)) treatments_id_df.

(** The sum of a percentage column; it is not a number ([None]) as soon as
    one cell is not finite. *)
Fixpoint sum_percent (l : list (option Q)) : option Q :=
  match l with
  | [] => Some 0%Q
  | None :: _ => None
  | Some p :: rest => option_map (Qplus p) (sum_percent rest)
  end.

(** The aggregator invariant as the specification words it: in a non-empty
    summary both percentage columns add up to 100, within 0.1. *)
Definition percentages_total_100 (summary : list summary_row) : Prop :=
  summary <> [] ->
  (exists s, sum_percent (map pct_tratamientos summary) = Some s /\
             (Qabs (s - 100) <= 1 # 10)%Q) /\
  (exists s, sum_percent (map pct_ingresos summary) = Some s /\
             (Qabs (s - 100) <= 1 # 10)%Q).

(** Rounding slack of one percentage: half a hundredth, and the binary64
    error. *)
Definition percent_slack : Q := (1 # 200) + (1 # 1000000000000).

(** Thirty-one treatments of thirty-one different types, named "A", "B",
    ..., each a first step priced 60. *)
Definition single_treatment (name : string) : treatment_out :=
  {| reported_at := min_date;
     t_row := {| source := {| t_din := "D1"; code := name;
                              reported_at_ns := Some (Pd.value min_date); duration := 0 |};
                 Tipo := name; Subtipo := Some name; Subprograma := name;
                 PVP := 60; Secuencia := 1 |} |}.

Definition thirty_one_types : Pd.DataFrame treatment_out :=
  Pd.Frame (map (fun n => single_treatment (String (ascii_of_nat (65 + n)) EmptyString))
                (seq 0 31)).

(** Two treatments of device "D1": code "T1" is in the lookup table, code
    "ZZ" is not. *)
Definition scenario_lookup : list treatment_id :=
  [ {| Treatment_ID := "T1"; id_Tipo := Some "Depilación"%string;
       id_Subtipo := Some "Láser"%string; id_Subprograma := Some "Piernas"%string;
       id_PVP := Some 25; id_Secuencia := Some 1%Q |} ].

Definition scenario_treatments : list treatment :=
  [ {| t_din := "D1"; code := "T1";
       reported_at_ns := Some (Pd.value min_date + 1); duration := 60000 |};
    {| t_din := "D1"; code := "ZZ";
       reported_at_ns := Some (Pd.value min_date + 2); duration := 30000 |} ].


(* ===================================================================== *)
(** * Definitions for the further properties                              *)
(* ===================================================================== *)

(** [stamp >= cutoff] on one cell; a comparison with [NaT] is false. *)
Definition on_or_after_b (cutoff : Z) (stamp : option Z) : bool :=
  match stamp with
  | Some v => cutoff <=? v
  | None => false
  end.

Definition string_lt (a b : string) : Prop := String.compare a b = Lt.

(** The row has a value in the grouping column. *)
Definition keyed (key : joined -> option string) (r : joined) : bool :=
  match key r with
  | Some _ => true
  | None => false
  end.

(** Order of two cells of a percentage column, both finite. *)
Definition pct_le (a b : option Q) : Prop :=
  match a, b with
  | Some x, Some y => (x <= y)%Q
  | _, _ => False
  end.

(** A Python text as the list of its code points.  The strings of the
    embedding hold the code points below 256; [latin1] says that a text is
    one of them, and [string_of_code_points] is then that string. *)
Definition latin1 (text : list N) : Prop := Forall (fun c => (c < 256)%N) text.

Fixpoint string_of_code_points (text : list N) : string :=
  match text with
  | [] => EmptyString
  | c :: rest => String (ascii_of_N c) (string_of_code_points rest)
  end.

(** One of the ten digits "0" to "9". *)
Definition ascii_digit (c : N) : bool := ((48 <=? c) && (c <=? 57))%N.

(** [(treatments_df_export['duration'] / 60000).round(2)] in
    [generate_detailed_pdf], on one cell: milliseconds to minutes. *)
Definition duration_minutes (duration : Z) : Q :=
  PyNum.np_round2 (Binary64.fdiv (Binary64.RN (inject_Z duration)) 60000).

(** One day, in milliseconds. *)
Definition day_ms : Z := 86400000.

(* ===================================================================== *)
(** * The default cut-off of [main], charts, emptiness of a frame         *)
(* ===================================================================== *)

(** Python's [max(a, b)] on two timestamps: [b] only when it is the later
    one. *)
Definition py_max (a b : Pd.Timestamp) : Pd.Timestamp :=
  if Pd.value a <? Pd.value b then b else a.

(** [t.tz_localize(None)]: the wall clock of [t] in its own zone. *)
Definition tz_localize_None (t : Pd.Timestamp) : Pd.Timestamp :=
  {| Pd.value := match Pd.tz t with
                 | Some (Pd.FixedOffset minutes) => Pd.value t + minutes * 60000000000
                 | _ => Pd.value t
                 end;
     Pd.tz := None |}.

(** [t.date()], as the number of the day since 1970-01-01. *)
Definition date_of (t : Pd.Timestamp) : Z := Pd.value t / Pd.ns_per_day.

(** [pd.Timestamp(d)] for a [date]: its midnight, naive. *)
Definition Timestamp_of_day (day : Z) : Pd.Timestamp :=
  {| Pd.value := day * Pd.ns_per_day; Pd.tz := None |}.

(** The cut-off [main] passes on when the date offered by the date picker
    is left as it is: [max(suggested_date, min_date)], cut to its date, read
    back as a UTC timestamp. *)
Definition main_default_cutoff (drv_df : list (drv (option Z))) (device : string)
  : Pd.Timestamp :=
  let suggested_date := get_suggested_cutoff_date drv_df device in
  let suggested_date :=
    match Pd.tz suggested_date with
    | None => Pd.tz_localize_UTC suggested_date
    | Some _ => suggested_date
    end in
  let default_date := py_max suggested_date min_date in
  let default_date_naive := date_of (tz_localize_None default_date) in
  Pd.tz_localize_UTC (Timestamp_of_day default_date_naive).

(** [df.empty]: no row, or no column. *)
Definition df_empty {R : Type} (df : Pd.DataFrame R) : bool :=
  match df with
  | Pd.Frame [] => true
  | Pd.Frame _ => false
  | Pd.NoColumns => true
  end.

(** [prepare_chart_data(summary_df, value_column, names_column)]: no chart
    for an empty summary, else the pie of the named values, one sector for
    each row. *)
Definition prepare_chart_data (summary_df : Pd.DataFrame summary_row)
           (value_column : summary_row -> Z) (names_column : summary_row -> string)
  : option (list (string * Z)) :=
  if df_empty summary_df then None
  else Some (map (fun g => (names_column g, value_column g)) (Pd.frame_rows summary_df)).

(* ===================================================================== *)
(** * Display of a timestamp: [format_datetime_for_display]               *)
(* ===================================================================== *)

(** An era is 400 years, 146097 days, from a first of March on.  The year
    of the era that holds day [doe], and the first day of year [yoe]. *)
Definition year_of_era (doe : Z) : Z :=
  (doe - doe / 1460 + doe / 36524 - doe / 146096) / 365.

Definition year_start (yoe : Z) : Z := 365 * yoe + yoe / 4 - yoe / 100.

(** Months counted from March: the month that holds day [doy] of such a
    year, and the first day of month [mp]. *)
Definition month_of_doy (doy : Z) : Z := (5 * doy + 2) / 153.

Definition month_start (mp : Z) : Z := (153 * mp + 2) / 5.

(** The civil date of day [doe] of era [era]. *)
Definition civil_of_doe (era doe : Z) : Z * Z * Z :=
  let yoe := year_of_era doe in
  let doy := doe - year_start yoe in
  let mp := month_of_doy doy in
  let d := doy - month_start mp + 1 in
  let m := if mp <? 10 then mp + 3 else mp - 9 in
  let y := yoe + era * 400 in
  (if m <=? 2 then y + 1 else y, m, d).

(** The civil date [(y, m, d)] of a day number counted from 1970-01-01
    (proleptic Gregorian calendar). *)
Definition civil_from_days (z : Z) : Z * Z * Z :=
  let z := z + 719468 in
  let era := z / 146097 in
  civil_of_doe era (z - era * 146097).

Definition leap_year (y : Z) : bool :=
  (y mod 4 =? 0) && (negb (y mod 100 =? 0) || (y mod 400 =? 0)).

Definition days_in_month (y m : Z) : Z :=
  if m =? 2 then (if leap_year y then 29 else 28)
  else if (m =? 4) || (m =? 6) || (m =? 9) || (m =? 11) then 30
  else 31.

Definition valid_date (y m d : Z) : bool :=
  (1 <=? m) && (m <=? 12) && (1 <=? d) && (d <=? days_in_month y m).

(** [p] holds of the [count] integers from [start] on. *)
Fixpoint forall_from (p : Z -> bool) (start : Z) (count : nat) : bool :=
  match count with
  | O => true
  | S c => p start && forall_from p (start + 1) c
  end.

(** The last day of year [yoe] of an era; the last year ends with the
    era. *)
Definition year_end (yoe : Z) : Z :=
  if yoe =? 399 then 146096 else year_start (yoe + 1) - 1.

(** Year [yoe] of an era is found from its first and from its last day,
    and has 366 days exactly when the civil year of its February is a leap
    year. *)
Definition year_checked (yoe : Z) : bool :=
  (year_of_era (year_start yoe) =? yoe) &&
  (year_of_era (year_end yoe) =? yoe) &&
  (year_end yoe - year_start yoe =? (if leap_year (yoe + 1) then 365 else 364)).

(** Day [doy] of a year that starts in March falls in a month from 0 to
    11, on a day of that month; only day 365 is a 29th of February. *)
Definition doy_checked (doy : Z) : bool :=
  let mp := month_of_doy doy in
  let d := doy - month_start mp + 1 in
  let m := if mp <? 10 then mp + 3 else mp - 9 in
  (0 <=? mp) && (mp <=? 11) && (1 <=? d) &&
  (d <=? days_in_month (if doy =? 365 then 2000 else 2001) m).

(** Day [d] of month [m] is found back from its day of the year. *)
Definition month_day_checked (m d : Z) : bool :=
  let mp := if 2 <? m then m - 3 else m + 9 in
  let doy := month_start mp + d - 1 in
  negb (d <=? days_in_month 2000 m) ||
  ((0 <=? doy) && (doy <=? 365) && (month_of_doy doy =? mp) &&
   (negb (doy =? 365) || ((m =? 2) && (d =? 29)))).

(** [%d], [%m] and [%y] of [strftime]: two decimal digits. *)
Definition two_digits (n : Z) : string :=
  (PyNum.dec (n / 10) ++ PyNum.dec (n mod 10))%string.

(** The UTC offset of Europe/Madrid from 1996 to 2037, in nanoseconds: one
    hour, and two hours from 01:00 UTC of the last Sunday of March to 01:00
    UTC of the last Sunday of October.  Outside these years the time zone
    database has other rules, which this definition does not follow. *)
Definition last_sunday (y m : Z) : Z :=
  let last := Pd.days_from_civil y m 31 in
  last - (last + 4) mod 7.

Definition hour_ns : Z := 3600 * 1000000000.

Definition europe_madrid (t : Z) : Z :=
  let '(y, _, _) := civil_from_days (t / Pd.ns_per_day) in
  let start := last_sunday y 3 * Pd.ns_per_day + hour_ns in
  let stop := last_sunday y 10 * Pd.ns_per_day + hour_ns in
  if (start <=? t) && (t <? stop) then 2 * hour_ns else hour_ns.

(** [format_datetime_for_display(dt)]; [None] is [NaT].  [madrid] gives the
    UTC offset of Europe/Madrid at an instant (the time zone database). *)
Definition format_datetime_for_display (madrid : Z -> Z) (dt : option Pd.Timestamp)
  : string :=
  match dt with
  | None => EmptyString
  | Some t =>
      let t := match Pd.tz t with
               | None => Pd.tz_localize_UTC t
               | Some _ => t
               end in
      let wall := Pd.value t + madrid (Pd.value t) in
      let '(y, m, d) := civil_from_days (wall / Pd.ns_per_day) in
      (two_digits d ++ "/" ++ two_digits m ++ "/" ++ two_digits (y mod 100))%string
  end.

(* ===================================================================== *)
(** * Facts about the binary64 model                                      *)
(* ===================================================================== *)

Module Binary64Facts.
Import Binary64.
Local Open Scope Q_scope.

(** ** Rounding to an integer *)

Lemma Qfloor_bounds (x : Q) : inject_Z (Qfloor x) <= x /\ x < inject_Z (Qfloor x) + 1.
Proof.
  split; [apply Qfloor_le|].
  pose proof (Qlt_floor x) as H. rewrite inject_Z_plus in H. exact H.
Qed.

Lemma rint_near (x : Q) : Qabs (inject_Z (rint x) - x) <= 1 # 2.
Proof.
  unfold rint. destruct (Qfloor_bounds x) as [Hlo Hhi].
  set (f := Qfloor x) in *.
  apply Qabs_Qle_condition.
  destruct (Qcompare_spec (x - inject_Z f) (1 # 2)) as [E|L|G].
  - destruct (Z.even f); [|rewrite inject_Z_plus; change (inject_Z 1) with 1]; split; lra.
  - split; lra.
  - rewrite inject_Z_plus; change (inject_Z 1) with 1. split; lra.
Qed.

Lemma rint_range (x : Q) : (Qfloor x <= rint x <= Qfloor x + 1)%Z.
Proof.
  unfold rint. destruct (_ ?= _); [destruct (Z.even _)| |]; lia.
Qed.

Lemma rint_comp (x y : Q) : x == y -> rint x = rint y.
Proof.
  intros E. unfold rint. rewrite (Qfloor_comp _ _ E).
  assert (E' : x - inject_Z (Qfloor y) == y - inject_Z (Qfloor y)) by (rewrite E; reflexivity).
  rewrite (Qcompare_comp _ _ E' _ _ (Qeq_refl (1#2))). reflexivity.
Qed.

Lemma rint_inject_Z (n : Z) : rint (inject_Z n) = n.
Proof.
  unfold rint. rewrite Qfloor_Z.
  assert (E : inject_Z n - inject_Z n == 0) by ring.
  rewrite (Qcompare_comp _ _ E _ _ (Qeq_refl (1#2))). reflexivity.
Qed.

Lemma rint_mono (x y : Q) : x <= y -> (rint x <= rint y)%Z.
Proof.
  intros Hxy.
  pose proof (Qfloor_resp_le _ _ Hxy) as Hf.
  destruct (Z.eq_dec (Qfloor x) (Qfloor y)) as [E|N].
  - unfold rint. rewrite E.
    destruct (Qcompare_spec (x - inject_Z (Qfloor y)) (1 # 2)) as [E1|L1|G1];
    destruct (Qcompare_spec (y - inject_Z (Qfloor y)) (1 # 2)) as [E2|L2|G2];
    try destruct (Z.even (Qfloor y)); try lia; exfalso; lra.
  - pose proof (rint_range x). pose proof (rint_range y). lia.
Qed.

Lemma rint_ge (x : Q) (n : Z) : inject_Z n <= x -> (n <= rint x)%Z.
Proof. intros H. rewrite <- (rint_inject_Z n). now apply rint_mono. Qed.

Lemma rint_le (x : Q) (n : Z) : x <= inject_Z n -> (rint x <= n)%Z.
Proof. intros H. rewrite <- (rint_inject_Z n). now apply rint_mono. Qed.

Lemma pow2_pos (e : Z) : 0 < 2 ^ e.
Proof. apply Qpower_0_lt. reflexivity. Qed.

Lemma pow2_succ (e : Z) : 2 ^ (e + 1) == 2 * 2 ^ e.
Proof. rewrite Qpower_plus by discriminate. change (2 ^ 1) with (2 * 1). ring. Qed.

Lemma pow2_pred (e : Z) : 2 * 2 ^ (e - 1) == 2 ^ e.
Proof. rewrite <- pow2_succ. replace (e - 1 + 1)%Z with e by lia. reflexivity. Qed.

Lemma pow2_le (e e' : Z) : (e <= e')%Z -> 2 ^ e <= 2 ^ e'.
Proof. intros H. apply Qpower_le_compat_l; [exact H | discriminate]. Qed.

Lemma pow2_inject (a : Z) : (0 <= a)%Z -> inject_Z (2 ^ a) == 2 ^ a.
Proof. intros H. rewrite Zpower_Qpower by exact H. reflexivity. Qed.

Lemma pow2_log2_bounds (n : Z) :
  (0 < n)%Z -> 2 ^ Z.log2 n <= inject_Z n /\ inject_Z n < 2 * 2 ^ Z.log2 n.
Proof.
  intros Hn. destruct (Z.log2_spec n Hn) as [Hlo Hhi].
  pose proof (Z.log2_nonneg n) as H0.
  rewrite <- pow2_succ, <- !pow2_inject by lia.
  rewrite <- Zle_Qle, <- Zlt_Qlt. replace (Z.log2 n + 1)%Z with (Z.succ (Z.log2 n)) by lia. lia.
Qed.

Lemma ilog2_spec (x : Q) : 0 < x -> 2 ^ ilog2 x <= x /\ x < 2 ^ (ilog2 x + 1).
Proof.
  intros Hx. unfold ilog2.
  destruct x as [n d]. cbn [Qnum Qden].
  assert (Hn : (0 < n)%Z) by (unfold Qlt in Hx; cbn in Hx; lia).
  destruct (pow2_log2_bounds n Hn) as [An An'].
  destruct (pow2_log2_bounds (Z.pos d) eq_refl) as [Bd Bd'].
  set (a := Z.log2 n) in *. set (b := Z.log2 (Z.pos d)) in *.
  pose proof (pow2_pos a) as Pa. pose proof (pow2_pos b) as Pb.
  pose proof (pow2_pos (a - b)) as Pk.
  assert (Ek : 2 ^ (a - b) * 2 ^ b == 2 ^ a).
  { rewrite <- Qpower_plus by discriminate. replace (a - b + b)%Z with a by lia. reflexivity. }
  assert (Ex : (n # d) * inject_Z (Z.pos d) == inject_Z n).
  { rewrite (Qmake_Qdiv n d). field. discriminate. }
  set (x := n # d) in *. set (N := inject_Z n) in *. set (D := inject_Z (Z.pos d)) in *.
  set (A := 2 ^ a) in *. set (B := 2 ^ b) in *. set (P := 2 ^ (a - b)) in *.
  assert (Hhi : x < 2 * P).
  { destruct (Qlt_le_dec x (2 * P)) as [L|G]; [exact L|exfalso]. nra. }
  assert (Hlo : P < 2 * x).
  { destruct (Qlt_le_dec P (2 * x)) as [L|G]; [exact L|exfalso]. nra. }
  destruct (Qle_bool P x) eqn:Eb.
  - apply Qle_bool_iff in Eb. split; [exact Eb|]. rewrite pow2_succ. exact Hhi.
  - assert (Hlt : x < P).
    { destruct (Qlt_le_dec x P) as [L|G]; [exact L|]. apply Qle_bool_iff in G. congruence. }
    replace (a - b - 1 + 1)%Z with (a - b)%Z by lia. split; [|exact Hlt].
    pose proof (pow2_pred (a - b)) as Hp. fold P in Hp. lra.
Qed.

Lemma ilog2_unique (x : Q) (e : Z) : 2 ^ e <= x -> x < 2 ^ (e + 1) -> ilog2 x = e.
Proof.
  intros Hlo Hhi.
  assert (Hx : 0 < x) by (pose proof (pow2_pos e); lra).
  destruct (ilog2_spec x Hx) as [Slo Shi].
  destruct (Z.lt_trichotomy (ilog2 x) e) as [L|[E|G]]; [exfalso|exact E|exfalso].
  - pose proof (pow2_le (ilog2 x + 1) e ltac:(lia)). lra.
  - pose proof (pow2_le (e + 1) (ilog2 x) ltac:(lia)). lra.
Qed.

Lemma ilog2_comp (x y : Q) : 0 < x -> x == y -> ilog2 x = ilog2 y.
Proof.
  intros Hx E. destruct (ilog2_spec x Hx) as [Slo Shi].
  symmetry. apply ilog2_unique; rewrite <- E; assumption.
Qed.

Lemma ilog2_mono (x y : Q) : 0 < x -> x <= y -> (ilog2 x <= ilog2 y)%Z.
Proof.
  intros Hx Hxy.
  destruct (ilog2_spec x Hx) as [Xlo Xhi].
  destruct (ilog2_spec y ltac:(lra)) as [Ylo Yhi].
  destruct (Z_le_gt_dec (ilog2 x) (ilog2 y)) as [L|G]; [exact L|exfalso].
  pose proof (pow2_le (ilog2 y + 1) (ilog2 x) ltac:(lia)). lra.
Qed.

Lemma pow2_52 : (2 ^ 52 == inject_Z 4503599627370496)%Q.
Proof. reflexivity. Qed.

(** The scaled significand [x / ulp x] lies in [[2^52, 2^53)]. *)
Lemma scaled_bounds (x : Q) :
  0 < x ->
  x == (x / ulp x) * ulp x /\ 0 < ulp x /\
  2 ^ 52 * ulp x == 2 ^ ilog2 x /\
  inject_Z (2 ^ 52) <= x / ulp x /\ x / ulp x < inject_Z (2 ^ 53).
Proof.
  intros Hx. destruct (ilog2_spec x Hx) as [Hlo Hhi]. unfold ulp.
  set (e := ilog2 x) in *.
  pose proof (pow2_pos (e - 52)) as Pu.
  assert (Eu : 2 ^ 52 * 2 ^ (e - 52) == 2 ^ e).
  { rewrite <- Qpower_plus by discriminate. replace (52 + (e - 52))%Z with e by lia. reflexivity. }
  assert (Ex : x == x / 2 ^ (e - 52) * 2 ^ (e - 52)).
  { set (u := 2 ^ (e - 52)) in *. field. lra. }
  rewrite pow2_succ in Hhi.
  set (u := 2 ^ (e - 52)) in *. set (y := x / u) in *.
  repeat split; try assumption.
  - change (inject_Z (2 ^ 52)) with (2 ^ 52).
    destruct (Qlt_le_dec y (2 ^ 52)) as [L|G]; [exfalso|exact G].
    assert (y * u < 2 ^ 52 * u) by (apply Qmult_lt_compat_r; assumption). lra.
  - change (inject_Z (2 ^ 53)) with (2 * 2 ^ 52).
    destruct (Qlt_le_dec y (2 * 2 ^ 52)) as [L|G]; [exact L|exfalso].
    assert (2 * 2 ^ 52 * u <= y * u) by (apply Qmult_le_compat_r; lra). lra.
Qed.

Lemma RNpos_err (x : Q) : 0 < x -> Qabs (RNpos x - x) <= x * eps53.
Proof.
  intros Hx. destruct (scaled_bounds x Hx) as (Ex & Pu & Eu & Ylo & Yhi).
  destruct (ilog2_spec x Hx) as [Hlo _].
  unfold RNpos. pose proof (rint_near (x / ulp x)) as Hr.
  apply Qabs_Qle_condition in Hr. apply Qabs_Qle_condition.
  set (u := ulp x) in *. set (y := x / u) in *. set (r := inject_Z (rint y)) in *.
  set (p := 2 ^ ilog2 x) in *. unfold eps53.
  change (2 ^ 52) with (4503599627370496 # 1) in Eu.
  destruct Hr as [Hr1 Hr2].
  assert ((r - y) * u <= (1 # 2) * u) by (apply Qmult_le_compat_r; lra).
  assert (- (1 # 2) * u <= (r - y) * u) by (apply Qmult_le_compat_r; lra).
  split; lra.
Qed.

Lemma RNpos_bounds (x : Q) :
  0 < x -> 2 ^ ilog2 x <= RNpos x /\ RNpos x <= 2 ^ (ilog2 x + 1).
Proof.
  intros Hx. destruct (scaled_bounds x Hx) as (Ex & Pu & Eu & Ylo & Yhi).
  unfold RNpos. rewrite pow2_succ, <- Eu.
  pose proof (rint_ge _ _ Ylo) as R1.
  pose proof (rint_le _ _ (Qlt_le_weak _ _ Yhi)) as R2.
  rewrite Zle_Qle in R1, R2.
  change (inject_Z (2 ^ 52)) with (2 ^ 52) in R1.
  change (inject_Z (2 ^ 53)) with (2 * 2 ^ 52) in R2.
  split.
  - apply Qmult_le_compat_r; lra.
  - setoid_replace (2 * (2 ^ 52 * ulp x)) with (2 * 2 ^ 52 * ulp x) by ring.
    apply Qmult_le_compat_r; lra.
Qed.

Lemma RNpos_comp (x y : Q) : 0 < x -> x == y -> RNpos x == RNpos y.
Proof.
  intros Hx E. unfold RNpos, ulp. rewrite (ilog2_comp x y Hx E).
  assert (E' : x / 2 ^ (ilog2 y - 52) == y / 2 ^ (ilog2 y - 52)) by (rewrite E; reflexivity).
  rewrite (rint_comp _ _ E'). reflexivity.
Qed.

Lemma RNpos_mono (x y : Q) : 0 < x -> x <= y -> RNpos x <= RNpos y.
Proof.
  intros Hx Hxy. assert (Hy : 0 < y) by lra.
  pose proof (ilog2_mono x y Hx Hxy) as He.
  destruct (Z.eq_dec (ilog2 x) (ilog2 y)) as [E|N].
  - unfold RNpos, ulp. rewrite E.
    pose proof (pow2_pos (ilog2 y - 52)) as Pu.
    apply Qmult_le_compat_r; [|lra].
    rewrite <- Zle_Qle. apply rint_mono.
    apply Qmult_le_compat_r; [exact Hxy|]. apply Qlt_le_weak, Qinv_lt_0_compat, Pu.
  - destruct (RNpos_bounds x Hx) as [_ Bx]. destruct (RNpos_bounds y Hy) as [By _].
    pose proof (pow2_le (ilog2 x + 1) (ilog2 y) ltac:(lia)). lra.
Qed.

(** A number with at most 53 significant bits is left unchanged. *)
Lemma RNpos_exact (m j : Z) :
  (0 < m < 2 ^ 53)%Z -> RNpos (inject_Z m * 2 ^ j) == inject_Z m * 2 ^ j.
Proof.
  intros Hm. destruct (pow2_log2_bounds m ltac:(lia)) as [Mlo Mhi].
  pose proof (pow2_pos j) as Pj.
  pose proof (Z.log2_nonneg m) as L0.
  assert (L53 : (Z.log2 m < 53)%Z) by (apply Z.log2_lt_pow2; lia).
  set (a := Z.log2 m) in *.
  assert (Ee : ilog2 (inject_Z m * 2 ^ j) = (a + j)%Z).
  { apply ilog2_unique.
    - rewrite Qpower_plus by discriminate. apply Qmult_le_compat_r; lra.
    - replace (a + j + 1)%Z with ((a + 1) + j)%Z by lia.
      rewrite Qpower_plus, pow2_succ by discriminate. apply Qmult_lt_compat_r; lra. }
  unfold RNpos, ulp. rewrite Ee.
  assert (Ey : inject_Z m * 2 ^ j / 2 ^ (a + j - 52) == inject_Z (m * 2 ^ (52 - a))).
  { rewrite inject_Z_mult, pow2_inject by lia.
    pose proof (pow2_pos (52 - a)) as Pq.
    assert (Eu : 2 ^ (a + j - 52) == 2 ^ j / 2 ^ (52 - a)).
    { rewrite <- Qpower_minus by discriminate.
      replace (j - (52 - a))%Z with (a + j - 52)%Z by lia. reflexivity. }
    rewrite Eu.
    set (p := 2 ^ j) in *. set (q := 2 ^ (52 - a)) in *.
    generalize (inject_Z m). intros M. field. split; lra. }
  rewrite (rint_comp _ _ Ey), rint_inject_Z.
  rewrite inject_Z_mult, pow2_inject by lia.
  pose proof (pow2_pos (52 - a)) as Pq.
  assert (Eu : 2 ^ (a + j - 52) == 2 ^ j / 2 ^ (52 - a)).
  { rewrite <- Qpower_minus by discriminate.
    replace (j - (52 - a))%Z with (a + j - 52)%Z by lia. reflexivity. }
  rewrite Eu.
  set (p := 2 ^ j) in *. set (q := 2 ^ (52 - a)) in *.
  generalize (inject_Z m). intros M. field. lra.
Qed.

(** ** The signed rounding *)

Lemma RN_pos (x : Q) : 0 < x -> RN x == RNpos x.
Proof.
  intros H. unfold RN. destruct (Qcompare_spec x 0); try lra. apply Qred_correct.
Qed.

Lemma RN_neg (x : Q) : x < 0 -> RN x == - RNpos (- x).
Proof.
  intros H. unfold RN. destruct (Qcompare_spec x 0); try lra. apply Qred_correct.
Qed.

Lemma RN_zero (x : Q) : x == 0 -> RN x == 0.
Proof.
  intros H. unfold RN. destruct (Qcompare_spec x 0); lra.
Qed.

Lemma RNpos_pos (x : Q) : 0 < x -> 0 < RNpos x.
Proof.
  intros Hx. destruct (RNpos_bounds x Hx) as [B _].
  pose proof (pow2_pos (ilog2 x)). lra.
Qed.

#[export] Instance RN_comp : Proper (Qeq ==> Qeq) RN.
Proof.
  intros x y E. destruct (Q_dec x 0) as [[L|G]|Z0].
  - rewrite (RN_neg x L), (RN_neg y) by lra.
    rewrite (RNpos_comp (- x) (- y)); [reflexivity|lra|rewrite E; reflexivity].
  - rewrite (RN_pos x G), (RN_pos y) by lra. apply RNpos_comp; assumption.
  - rewrite (RN_zero x Z0), (RN_zero y) by lra. reflexivity.
Qed.

Lemma RN_mono (x y : Q) : x <= y -> RN x <= RN y.
Proof.
  intros Hxy.
  destruct (Q_dec x 0) as [[Lx|Gx]|Zx]; destruct (Q_dec y 0) as [[Ly|Gy]|Zy];
    try (exfalso; lra);
    repeat match goal with
    | H : ?a < 0 |- _ => rewrite (RN_neg a H); pose proof (RNpos_pos (- a) ltac:(lra)); revert H
    | H : 0 < ?a |- _ => rewrite (RN_pos a H); pose proof (RNpos_pos a H); revert H
    | H : ?a == 0 |- _ => rewrite (RN_zero a H); revert H
    end; intros; try lra.
  - pose proof (RNpos_mono (- y) (- x) ltac:(lra) ltac:(lra)). lra.
  - apply RNpos_mono; assumption.
Qed.

Lemma RN_err (x : Q) : Qabs (RN x - x) <= Qabs x * eps53.
Proof.
  destruct (Q_dec x 0) as [[L|G]|Z0].
  - rewrite (RN_neg x L). pose proof (RNpos_err (- x) ltac:(lra)) as H.
    rewrite (Qabs_neg x) by lra.
    apply Qabs_Qle_condition in H. apply Qabs_Qle_condition. split; lra.
  - rewrite (RN_pos x G). rewrite (Qabs_pos x) by lra. apply RNpos_err, G.
  - rewrite (RN_zero x Z0), Z0. discriminate.
Qed.

Lemma RN_exact (m j : Z) :
  (Z.abs m < 2 ^ 53)%Z -> RN (inject_Z m * 2 ^ j) == inject_Z m * 2 ^ j.
Proof.
  intros Hm. pose proof (pow2_pos j) as Pj.
  destruct (Z.lt_trichotomy m 0) as [L|[E|G]].
  - assert (Hi : inject_Z m < 0) by (change 0 with (inject_Z 0); rewrite <- Zlt_Qlt; exact L).
    pose proof (Qmult_lt_compat_r _ _ _ Pj Hi) as Hs. rewrite Qmult_0_l in Hs.
    rewrite RN_neg by exact Hs.
    assert (E : - (inject_Z m * 2 ^ j) == inject_Z (- m) * 2 ^ j) by (rewrite inject_Z_opp; ring).
    assert (Hp : 0 < - (inject_Z m * 2 ^ j)) by lra.
    rewrite (RNpos_comp _ _ Hp E), RNpos_exact by lia. rewrite inject_Z_opp. ring.
  - subst m. rewrite RN_zero; ring.
  - assert (Hi : 0 < inject_Z m) by (change 0 with (inject_Z 0); rewrite <- Zlt_Qlt; exact G).
    pose proof (Qmult_lt_compat_r _ _ _ Pj Hi) as Hs. rewrite Qmult_0_l in Hs.
    rewrite RN_pos by exact Hs. apply RNpos_exact. lia.
Qed.

Lemma RN_exact_int (n : Z) : (Z.abs n < 2 ^ 53)%Z -> RN (inject_Z n) == inject_Z n.
Proof.
  intros H. pose proof (RN_exact n 0 H) as E. change (2 ^ 0) with 1 in E.
  rewrite Qmult_1_r in E. exact E.
Qed.

End Binary64Facts.

(* ===================================================================== *)
(** * Identity classifier                                                 *)
(* ===================================================================== *)

Section Classifier.
Import Py.

Lemma newline_not_digit : is_digit newline = false.
Proof. reflexivity. Qed.

Lemma at_dollar_cases (rest : string) :
  at_dollar rest = true -> rest = EmptyString \/ rest = String newline EmptyString.
Proof.
  destruct rest as [|a [|b rest]]; simpl; intros H; try discriminate.
  - now left.
  - right. apply Ascii.eqb_eq in H. now subst.
Qed.

Lemma re_search_cd_step (c a b : ascii) (rest : string) :
  re_search_cd c (String a (String b rest)) =
  (Ascii.eqb a c && is_digit b && at_dollar rest) || re_search_cd c (String b rest).
Proof. reflexivity. Qed.

(** Nothing matches inside the one or two characters that may follow a
    match. *)
Lemma re_search_cd_after_match (c b : ascii) (rest : string) :
  at_dollar rest = true -> re_search_cd c (String b rest) = false.
Proof.
  intros H. destruct (at_dollar_cases _ H) as [-> | ->]; simpl.
  - reflexivity.
  - rewrite newline_not_digit. now rewrite andb_false_r.
Qed.

Lemma re_search_cd_ends (c : ascii) (s : string) :
  re_search_cd c s = true <-> ends_c_digit c s.
Proof.
  split.
  - induction s as [|a s IH]; [discriminate|].
    destruct s as [|b rest]; [discriminate|].
    rewrite re_search_cd_step. intros H. apply orb_true_iff in H. destruct H as [H|H].
    + apply andb_true_iff in H. destruct H as [H Hd].
      apply andb_true_iff in H. destruct H as [Ha Hb].
      apply Ascii.eqb_eq in Ha. subst a.
      exists EmptyString, b. split; [exact Hb|].
      destruct (at_dollar_cases _ Hd) as [-> | ->]; [now left|now right].
    + destruct (IH H) as (pre & d & Hd & E).
      exists (String a pre), d. split; [exact Hd|].
      destruct E as [E|E]; rewrite E; [now left|now right].
  - intros (pre & d & Hd & E). revert s E.
    induction pre as [|a pre IH]; intros s E.
    + destruct E as [-> | ->]; cbn; rewrite Ascii.eqb_refl, Hd; reflexivity.
    + assert (E' : exists b rest, s = String a (String b rest) /\ re_search_cd c (String b rest) = true).
      { destruct E as [-> | ->]; cbn [append];
          match goal with
          | |- context [(pre ++ ?t)%string] =>
              specialize (IH (pre ++ t)%string); destruct (pre ++ t)%string as [|b rest] eqn:Ep
          end;
          try (destruct pre; discriminate);
          exists b, rest; (split; [reflexivity|apply IH; auto]). }
      destruct E' as (b & rest & -> & Hs). rewrite re_search_cd_step.
      apply orb_true_iff. now right.
Qed.

(** The two patterns never match the same text. *)
Lemma re_search_cd_exclusive (c1 c2 : ascii) (s : string) :
  re_search_cd c1 s = true -> re_search_cd c2 s = true -> c1 = c2.
Proof.
  induction s as [|a s IH]; [discriminate|].
  destruct s as [|b rest]; [discriminate|].
  rewrite !re_search_cd_step. destruct (at_dollar rest) eqn:Hd.
  - rewrite !(re_search_cd_after_match _ b rest Hd), !orb_false_r, !andb_true_r.
    intros H1 H2. apply andb_true_iff in H1, H2. destruct H1 as [H1 _], H2 as [H2 _].
    apply Ascii.eqb_eq in H1, H2. congruence.
  - rewrite !andb_false_r. cbn [orb]. exact IH.
Qed.

Lemma classify_main_iff (x : value) :
  classify_handpiece x = MAIN_FUNCTION <-> re_search_cd "1" (str x) = true.
Proof.
  unfold classify_handpiece.
  destruct (re_search_cd "2" (str x)) eqn:H2, (re_search_cd "1" (str x)) eqn:H1;
    split; intros H; try discriminate; try reflexivity.
  pose proof (re_search_cd_exclusive _ _ _ H1 H2). discriminate.
Qed.

Lemma classify_secondary_iff (x : value) :
  classify_handpiece x = SECONDARY_FUNCTION <-> re_search_cd "2" (str x) = true.
Proof.
  unfold classify_handpiece.
  destruct (re_search_cd "2" (str x)) eqn:H2, (re_search_cd "1" (str x)) eqn:H1;
    split; intros H; try discriminate; reflexivity.
Qed.

Lemma classify_unidentified_iff (x : value) :
  classify_handpiece x = UNIDENTIFIED <->
  re_search_cd "1" (str x) = false /\ re_search_cd "2" (str x) = false.
Proof.
  unfold classify_handpiece.
  destruct (re_search_cd "2" (str x)) eqn:H2, (re_search_cd "1" (str x)) eqn:H1;
    split; intros H; try discriminate; try (destruct H; discriminate); auto.
Qed.

End Classifier.

(** C2, counterexample.  The text "XYZ-19" does not end with a digit, "1"
    and a digit (a hyphen precedes the "1"), nor with a digit, "2" and a
    digit; the rule as worded makes it unidentified, the classifier returns
    the main function. *)
Lemma classifier_rule_as_worded_fails :
  ~ classifier_rule_as_worded (Py.Str "XYZ-19").
Proof.
  intros (_ & _ & H).
  assert (N : forall c, ~ ends_digit_c_digit c "XYZ-19").
  { intros c (pre & d1 & d2 & E & H1 & H2).
    do 7 (destruct pre as [|? pre]; cbn in E;
          [try discriminate E; injection E as; subst;
           first [congruence | cbn in H1; discriminate H1] |]).
    discriminate E. }
  specialize (H (N _) (N _)). discriminate.
Qed.

(** C2, as amended.  An identifier (text, or a number turned into text)
    whose text ends with "1" and a digit is the main function, whatever
    precedes the "1"; ending with "2" and a digit it is the secondary
    function; every other identifier is unidentified.  A single newline
    after the final digit is ignored. *)
Theorem classify_handpiece_by_suffix (x : Py.value) :
  (classify_handpiece x = MAIN_FUNCTION <-> ends_c_digit "1" (Py.str x)) /\
  (classify_handpiece x = SECONDARY_FUNCTION <-> ends_c_digit "2" (Py.str x)) /\
  (classify_handpiece x = UNIDENTIFIED <->
   ~ ends_c_digit "1" (Py.str x) /\ ~ ends_c_digit "2" (Py.str x)).
Proof.
  rewrite classify_main_iff, classify_secondary_iff, classify_unidentified_iff.
  rewrite <- !re_search_cd_ends.
  repeat split; try tauto.
  - destruct H as [H _]. now rewrite H.
  - destruct H as [_ H]. now rewrite H.
  - destruct H as [H _]. now destruct (Py.re_search_cd "1" (Py.str x)).
  - destruct H as [_ H]. now destruct (Py.re_search_cd "2" (Py.str x)).
Qed.

Example classify_examples :
  classify_handpiece (Py.Str "XYZ-19") = MAIN_FUNCTION /\
  classify_handpiece (Py.Str "XYZ-29") = SECONDARY_FUNCTION /\
  classify_handpiece (Py.Str "XYZ-00") = UNIDENTIFIED /\
  classify_handpiece (Py.Int 119) = MAIN_FUNCTION /\
  classify_handpiece (Py.Int 1025) = SECONDARY_FUNCTION /\
  classify_handpiece (Py.Int (-7)) = UNIDENTIFIED /\
  classify_handpiece (Py.Str "ABC121") = SECONDARY_FUNCTION.
Proof. repeat split. Qed.

(* ===================================================================== *)
(** * Printing and reading one-decimal percentages                        *)
(* ===================================================================== *)

Section Format.
Import PyNum.

Lemma lacks_cons (c a : ascii) (s : string) :
  lacks c (String a s) = negb (Ascii.eqb a c) && lacks c s.
Proof. reflexivity. Qed.

Lemma lacks_app (c : ascii) (s1 s2 : string) :
  lacks c (s1 ++ s2) = lacks c s1 && lacks c s2.
Proof.
  induction s1 as [|a s1 IH]; [reflexivity|].
  cbn [append]. rewrite !lacks_cons, IH. now rewrite andb_assoc.
Qed.

Lemma split_at_cons (c a : ascii) (s : string) :
  split_at c (String a s) =
  if Ascii.eqb a c then Some (EmptyString, s)
  else match split_at c s with
       | Some (l, r) => Some (String a l, r)
       | None => None
       end.
Proof. reflexivity. Qed.

Lemma split_at_app (c : ascii) (s1 rest : string) :
  lacks c s1 = true -> split_at c (s1 ++ String c rest) = Some (s1, rest).
Proof.
  induction s1 as [|a s1 IH]; cbn [append]; rewrite split_at_cons.
  - now rewrite Ascii.eqb_refl.
  - rewrite lacks_cons. intros H. apply andb_true_iff in H. destruct H as [Ha Hs].
    apply negb_true_iff in Ha. rewrite Ha, (IH Hs). reflexivity.
Qed.

Lemma split_at_none (c : ascii) (s : string) :
  lacks c s = true -> split_at c s = None.
Proof.
  induction s as [|a s IH]; [reflexivity|].
  rewrite split_at_cons, lacks_cons.
  intros H. apply andb_true_iff in H. destruct H as [Ha Hs].
  apply negb_true_iff in Ha. now rewrite Ha, (IH Hs).
Qed.

Lemma digits_lack (c : ascii) (d : Decimal.uint) :
  Py.is_digit c = false -> lacks c (NilEmpty.string_of_uint d) = true.
Proof.
  intros Hc. induction d; [reflexivity|..];
    cbn [NilEmpty.string_of_uint]; rewrite lacks_cons, IHd, andb_true_r;
    apply negb_true_iff, Ascii.eqb_neq; intros <-; discriminate.
Qed.

Lemma dec_lacks (c : ascii) (n : Z) : Py.is_digit c = false -> lacks c (dec n) = true.
Proof.
  intros Hc. unfold dec, NilZero.string_of_uint.
  destruct (N.to_uint (Z.to_N n)) eqn:E; try (rewrite <- E; apply digits_lack, Hc).
  rewrite lacks_cons. cbn [lacks all_chars]. rewrite andb_true_r.
  apply negb_true_iff, Ascii.eqb_neq. intros <-. discriminate.
Qed.

Lemma N_to_uint_nonnil (n : N) : N.to_uint n <> Decimal.Nil.
Proof.
  destruct n; cbn; [discriminate|apply DecimalPos.Unsigned.to_uint_nonnil].
Qed.

Lemma read_uint_dec (n : Z) : 0 <= n -> read_uint (dec n) = Some n.
Proof.
  intros Hn. unfold read_uint, dec.
  rewrite NilZero.usu by apply N_to_uint_nonnil.
  rewrite DecimalN.Unsigned.of_to, Z2N.id by exact Hn. reflexivity.
Qed.

Lemma dec_digit_length (n : Z) : 0 <= n < 10 -> String.length (dec n) = 1%nat.
Proof.
  intros H. rewrite <- (Z2Nat.id n) by lia.
  assert (B : (Z.to_nat n < 10)%nat) by lia.
  clear H. revert B. generalize (Z.to_nat n). intros m B.
  do 10 (destruct m as [|m]; [reflexivity|]). lia.
Qed.

(** Reading back what [show_tenths] prints. *)
Lemma read_percent_show (t : Z) :
  0 <= t -> read_percent (show_tenths t ++ "%") = Some t.
Proof.
  intros Ht. unfold read_percent, show_tenths.
  assert (Hq : 0 <= t / 10) by (apply Z.div_pos; lia).
  assert (Hr : 0 <= t mod 10 < 10) by (apply Z.mod_pos_bound; lia).
  rewrite split_at_app.
  2:{ rewrite !lacks_app, !dec_lacks by reflexivity. reflexivity. }
  change ("." ++ dec (t mod 10))%string with (String "." (dec (t mod 10))).
  rewrite split_at_app by (apply dec_lacks; reflexivity).
  rewrite !read_uint_dec by lia.
  rewrite dec_digit_length by lia. cbn.
  f_equal. pose proof (Z.div_mod t 10). lia.
Qed.

Lemma read_percent_zero : read_percent "0%" = Some 0.
Proof. reflexivity. Qed.

(** A printed number is never the clamp ["0%"]. *)
Lemma show_tenths_not_zero (t : Z) : (show_tenths t ++ "%")%string <> "0%"%string.
Proof.
  intros E. apply (f_equal (lacks ".")) in E. unfold show_tenths in E.
  rewrite !lacks_app in E.
  change (lacks "." ".") with false in E.
  rewrite andb_false_l, andb_false_r, andb_false_l in E. discriminate.
Qed.

End Format.

(* ===================================================================== *)
(** * Service-life estimator                                              *)
(* ===================================================================== *)

Section ServiceLife.
Import Binary64 Binary64Facts PyNum.
Local Open Scope Q_scope.

Lemma RN_0 : RN 0 == 0.
Proof. reflexivity. Qed.

Lemma RN_nonneg (x : Q) : 0 <= x -> 0 <= RN x.
Proof. intros H. rewrite <- RN_0. now apply RN_mono. Qed.

Lemma RN_nonpos (x : Q) : x <= 0 -> RN x <= 0.
Proof. intros H. rewrite <- RN_0. now apply RN_mono. Qed.

Lemma RN_positive (x : Q) : 0 < x -> 0 < RN x.
Proof. intros H. rewrite RN_pos by exact H. now apply RNpos_pos. Qed.

Lemma RN_le_int (x : Q) (n : Z) :
  (Z.abs n < 2 ^ 53)%Z -> x <= inject_Z n -> RN x <= inject_Z n.
Proof. intros Hn H. rewrite <- (RN_exact_int n Hn). now apply RN_mono. Qed.

Lemma RN_ge_int (x : Q) (n : Z) :
  (Z.abs n < 2 ^ 53)%Z -> inject_Z n <= x -> inject_Z n <= RN x.
Proof. intros Hn H. rewrite <- (RN_exact_int n Hn). now apply RN_mono. Qed.

(** Halves of integers below [2^53] are binary64 numbers. *)
Lemma RN_exact_half (n : Z) :
  (Z.abs n < 2 ^ 53)%Z -> RN (inject_Z n * (1 # 2)) == inject_Z n * (1 # 2).
Proof. intros H. exact (RN_exact n (-1) H). Qed.

Lemma no_overflow (r : Q) : 0 <= r -> r <= 2 ^ 67 -> overflows r = false.
Proof.
  intros H0 H1. unfold overflows. destruct (Qle_bool (2 ^ 1024) (Qabs r)) eqn:E; [|reflexivity].
  apply Qle_bool_iff in E. rewrite Qabs_pos in E by exact H0.
  pose proof (Qpower_lt_compat_l 2 67 1024 eq_refl eq_refl). lra.
Qed.

Lemma inject_Z_pos (k : Z) : (0 < k)%Z -> 0 < inject_Z k.
Proof. intros H. change 0 with (inject_Z 0). now rewrite <- Zlt_Qlt. Qed.

Lemma inject_Z_nonneg (k : Z) : (0 <= k)%Z -> 0 <= inject_Z k.
Proof. intros H. change 0 with (inject_Z 0). now rewrite <- Zle_Qle. Qed.

(** ** From remaining units to printed tenths *)

(** The binary64 value of [k / 4000000 * 100]. *)
Lemma percent_value_bounds (k : Z) :
  (0 < k <= 4000000)%Z ->
  let v := inject_Z k / inject_Z 4000000 in
  let q := RN v in
  let x := fmul q 100 in
  0 < v /\ v <= 1 /\ 0 < q /\ q <= 1 /\ 0 < x /\ x <= 100 /\
  Qabs (x - 100 * v) <= 200 * eps53.
Proof.
  intros [Hk0 Hk1] v q x.
  assert (Ev : inject_Z k == 4000000 * v).
  { unfold v. change (inject_Z 4000000) with 4000000. field. }
  pose proof (inject_Z_pos k Hk0) as P0.
  assert (P1 : inject_Z k <= 4000000).
  { change 4000000 with (inject_Z 4000000). now rewrite <- Zle_Qle. }
  assert (Hv0 : 0 < v) by lra. assert (Hv1 : v <= 1) by lra.
  assert (Hq0 : 0 < q) by (apply RN_positive, Hv0).
  assert (Hq1 : q <= 1) by (apply (RN_le_int v 1); [reflexivity|exact Hv1]).
  assert (Hx0 : 0 < x) by (apply RN_positive; lra).
  assert (Hx1 : x <= 100) by (apply (RN_le_int (q * 100) 100); [reflexivity|change (inject_Z 100) with 100; lra]).
  repeat split; try assumption.
  pose proof (RN_err v) as E1. pose proof (RN_err (q * 100)) as E2.
  fold q in E1. fold (fmul q 100) in E2. fold x in E2.
  rewrite (Qabs_pos v) in E1 by lra. rewrite (Qabs_pos (q * 100)) in E2 by lra.
  apply Qabs_Qle_condition in E1, E2. apply Qabs_Qle_condition.
  unfold eps53 in *. split; lra.
Qed.

Lemma tenths_of_bounds (k : Z) :
  (0 < k <= 4000000)%Z ->
  (0 <= tenths_of k <= 1000)%Z /\ (Z.abs (4000 * tenths_of k - k) <= 2000)%Z.
Proof.
  intros Hk. destruct (percent_value_bounds k Hk) as (Hv0 & Hv1 & Hq0 & Hq1 & Hx0 & Hx1 & E).
  cbv zeta in *. unfold tenths_of.
  set (v := inject_Z k / inject_Z 4000000) in *.
  set (x := fmul (RN v) 100) in *.
  assert (Ev : inject_Z k == 4000000 * v).
  { unfold v. change (inject_Z 4000000) with 4000000. field. }
  pose proof (rint_near (x * 10)) as R. set (t := rint (x * 10)) in *.
  split.
  - split.
    + apply (rint_ge (x * 10) 0). change (inject_Z 0) with 0. lra.
    + apply (rint_le (x * 10) 1000). change (inject_Z 1000) with 1000. lra.
  - apply Qabs_Qle_condition in E, R. unfold eps53 in E.
    assert (B : - 2001 < inject_Z (4000 * t - k) /\ inject_Z (4000 * t - k) < 2001).
    { unfold Zminus. rewrite inject_Z_plus, inject_Z_mult, inject_Z_opp.
      change (inject_Z 4000) with 4000. split; lra. }
    destruct B as [B1 B2].
    change (- 2001) with (inject_Z (- 2001)) in B1. change 2001 with (inject_Z 2001) in B2.
    rewrite <- Zlt_Qlt in B1, B2. lia.
Qed.

Lemma tenths_of_mono (k k' : Z) :
  (0 < k <= k')%Z -> (tenths_of k <= tenths_of k')%Z.
Proof.
  intros [H0 H1]. unfold tenths_of, fmul. apply rint_mono.
  apply Qmult_le_compat_r; [|discriminate]. apply RN_mono.
  apply Qmult_le_compat_r; [|discriminate]. apply RN_mono.
  apply Qmult_le_compat_r; [|discriminate]. now rewrite <- Zle_Qle.
Qed.

Lemma format_1f_comp (x y : Q) : x == y -> format_1f x = format_1f y.
Proof.
  intros E. unfold format_1f.
  rewrite (Qcompare_comp _ _ E _ _ (Qeq_refl 0)).
  assert (E' : x * 10 == y * 10) by now rewrite E.
  now rewrite (rint_comp _ _ E').
Qed.

Lemma format_1f_positive (x : Q) : 0 < x -> format_1f x = show_tenths (rint (x * 10)).
Proof.
  intros H. unfold format_1f. apply Qgt_alt in H. now rewrite H.
Qed.

(** ** The two branches of [calculate_vida_util] *)

Lemma vida_util_main (row : usage_row) (id : Py.value) :
  counter_range row ->
  Py.re_search_cd "1" (Py.str id) = true ->
  calculate_vida_util row id =
  vida_string (4000000 - (pulso row * 20 + rafaga row * 1 + (activacion row + modulacion row))).
Proof.
  intros (Hp & Hr & Ha & Hm) H1. unfold calculate_vida_util, vida_string. rewrite H1. cbv zeta.
  set (k := (4000000 - _)%Z).
  destruct (k <=? 0)%Z eqn:Ek; [reflexivity|]. apply Z.leb_gt in Ek.
  assert (Hk : (0 < k <= 4000000)%Z) by (subst k; lia).
  destruct (percent_value_bounds k Hk) as (Hv0 & Hv1 & Hq0 & Hq1 & Hx0 & Hx1 & _).
  cbv zeta in *. unfold int_truediv. cbn [Z.eqb].
  rewrite no_overflow; [|lra|pose proof (Qpower_1_le 2 67 ltac:(discriminate) ltac:(discriminate)); lra].
  rewrite format_1f_positive by exact Hx0. reflexivity.
Qed.

Lemma float_of_int_small (n : Z) : (0 <= n < 2 ^ 67)%Z -> float_of_int n = Some (RN (inject_Z n)).
Proof.
  intros [H0 H1]. unfold float_of_int. rewrite no_overflow; [reflexivity| |].
  - apply RN_nonneg, inject_Z_nonneg, H0.
  - assert (E : RN (inject_Z 1 * 2 ^ 67) == inject_Z 1 * 2 ^ 67) by (apply RN_exact; reflexivity).
    assert (L : inject_Z n <= inject_Z 1 * 2 ^ 67).
    { change (inject_Z 1 * 2 ^ 67) with (inject_Z (2 ^ 67)). rewrite <- Zle_Qle. lia. }
    apply RN_mono in L. rewrite E in L. change (inject_Z 1 * 2 ^ 67) with (2 ^ 67) in L. exact L.
Qed.

Lemma vida_util_secondary (row : usage_row) (id : Py.value) :
  counter_range row ->
  Py.re_search_cd "2" (Py.str id) = true ->
  calculate_vida_util row id =
  vida_string (4000000 - (2 * (pulso row * 10 + rafaga row * 1) + (activacion row + modulacion row))).
Proof.
  intros (Hp & Hr & Ha & Hm) H2. unfold calculate_vida_util.
  destruct (Py.re_search_cd "1" (Py.str id)) eqn:H1.
  { pose proof (re_search_cd_exclusive _ _ _ H1 H2). discriminate. }
  rewrite H2. cbv zeta.
  set (A := (pulso row * 10 + rafaga row * 1)%Z).
  set (B := (activacion row + modulacion row)%Z).
  assert (HA : (0 <= A < 2 ^ 67)%Z) by (subst A; lia).
  assert (HB : (0 <= B < 2 ^ 67)%Z) by (subst B; lia).
  rewrite !float_of_int_small by assumption.
  set (used := fadd (RN (inject_Z A)) (fmul (RN (inject_Z B)) (1 # 2))).
  set (remaining := fsub (inject_Z 2000000) used).
  unfold vida_string. set (k := (4000000 - (2 * A + B))%Z).
  pose proof (inject_Z_nonneg A ltac:(lia)) as PA.
  pose proof (inject_Z_nonneg B ltac:(lia)) as PB.
  pose proof (RN_nonneg _ PA) as RA. pose proof (RN_nonneg _ PB) as RB.
  assert (RH : 0 <= fmul (RN (inject_Z B)) (1 # 2)) by (apply RN_nonneg; lra).
  destruct (k <=? 0)%Z eqn:Ek.
  - (* exhausted: [used] is at least the capacity *)
    apply Z.leb_le in Ek.
    assert (U : 2000000 <= used).
    { unfold used, fadd. apply (RN_ge_int _ 2000000); [reflexivity|].
      change (inject_Z 2000000) with 2000000.
      destruct (Z_lt_le_dec A (2 ^ 52)) as [LA|GA].
      - destruct (Z_lt_le_dec B (2 ^ 52)) as [LB|GB].
        + unfold fmul. rewrite (RN_exact_int A), (RN_exact_int B) by lia.
          rewrite RN_exact_half by lia.
          assert (I : inject_Z 4000000 <= inject_Z (2 * A + B)) by (rewrite <- Zle_Qle; lia).
          rewrite inject_Z_plus, inject_Z_mult in I.
          change (inject_Z 4000000) with 4000000 in I. change (inject_Z 2) with 2 in I. lra.
        + assert (I : inject_Z (2 ^ 52) <= RN (inject_Z B)).
          { apply RN_ge_int; [reflexivity|]. now rewrite <- Zle_Qle. }
          assert (I2 : inject_Z (2 ^ 51) <= fmul (RN (inject_Z B)) (1 # 2)).
          { apply RN_ge_int; [reflexivity|].
            change (inject_Z (2 ^ 52)) with 4503599627370496 in I.
            change (inject_Z (2 ^ 51)) with 2251799813685248. lra. }
          change (inject_Z (2 ^ 51)) with 2251799813685248 in I2. lra.
      - assert (I : inject_Z (2 ^ 52) <= RN (inject_Z A)).
        { apply RN_ge_int; [reflexivity|]. now rewrite <- Zle_Qle. }
        change (inject_Z (2 ^ 52)) with 4503599627370496 in I. lra. }
    assert (Rm : remaining <= 0).
    { unfold remaining, fsub. apply RN_nonpos. change (inject_Z 2000000) with 2000000. lra. }
    apply Qle_bool_iff in Rm. rewrite Rm. reflexivity.
  - (* some life left: every intermediate value is exact *)
    apply Z.leb_gt in Ek.
    assert (Hk : (0 < k <= 4000000)%Z) by (subst k; lia).
    assert (EU : used == inject_Z (2 * A + B) * (1 # 2)).
    { unfold used, fadd, fmul. rewrite (RN_exact_int A), (RN_exact_int B) by lia.
      rewrite RN_exact_half by lia.
      rewrite <- (RN_exact_half (2 * A + B)) by lia.
      apply RN_comp. rewrite inject_Z_plus, inject_Z_mult. change (inject_Z 2) with 2. ring. }
    assert (ER : remaining == inject_Z k * (1 # 2)).
    { unfold remaining, fsub. rewrite <- (RN_exact_half k) by lia.
      apply RN_comp. rewrite EU. unfold k, Zminus.
      rewrite !inject_Z_plus, inject_Z_opp, inject_Z_plus. 
      change (inject_Z 2000000) with 2000000. change (inject_Z 4000000) with 4000000. ring. }
    pose proof (inject_Z_pos k ltac:(lia)) as Pk.
    destruct (Qle_bool remaining 0) eqn:Eb.
    { apply Qle_bool_iff in Eb. exfalso. lra. }
    destruct (percent_value_bounds k Hk) as (_ & _ & _ & _ & Hx0 & _ & _). cbv zeta in Hx0.
    assert (EX : fmul (fdiv remaining (inject_Z 2000000)) 100 ==
                 fmul (RN (inject_Z k / inject_Z 4000000)) 100).
    { unfold fmul, fdiv. apply RN_comp.
      assert (EQ : remaining / inject_Z 2000000 == inject_Z k / inject_Z 4000000).
      { rewrite ER. change (inject_Z 2000000) with 2000000.
        change (inject_Z 4000000) with 4000000. field. }
      now rewrite EQ. }
    rewrite (format_1f_comp _ _ EX), format_1f_positive by exact Hx0. reflexivity.
Qed.

End ServiceLife.

Section ServiceLifeClaims.
Import Binary64 Binary64Facts PyNum.
Local Open Scope Q_scope.

Lemma vida_string_shown (k : Z) (p : Q) :
  (k <= 4000000)%Z -> p == inject_Z k / 4000000 * 100 ->
  (p <= 0 -> vida_string k = "0%"%string) /\
  (0 < p -> one_decimal_percent p (vida_string k)).
Proof.
  intros Hk Ep. unfold vida_string.
  assert (Ek : inject_Z k == 40000 * p) by (rewrite Ep; field).
  split; intros Hp.
  - assert (H : (k <= 0)%Z).
    { rewrite Zle_Qle. change (inject_Z 0) with 0. lra. }
    apply Z.leb_le in H. now rewrite H.
  - assert (H : (0 < k)%Z).
    { rewrite Zlt_Qlt. change (inject_Z 0) with 0. lra. }
    pose proof H as H'. apply Z.leb_gt in H'. rewrite H'.
    exists (tenths_of k). split; [reflexivity|].
    destruct (tenths_of_bounds k (conj H Hk)) as [_ B].
    apply Z.abs_le in B. destruct B as [B1 B2].
    rewrite Zle_Qle in B1, B2. unfold Zminus in B1, B2.
    rewrite inject_Z_plus, inject_Z_mult, !inject_Z_opp in B1.
    rewrite inject_Z_plus, inject_Z_mult, inject_Z_opp in B2.
    change (inject_Z 4000) with 4000 in B1, B2.
    change (inject_Z 2000) with 2000 in B1, B2.
    apply Qabs_Qle_condition.
    unfold Qdiv. change (/ 10) with (1 # 10). split; lra.
Qed.

Lemma read_vida_string (k : Z) :
  (k <= 4000000)%Z ->
  read_percent (vida_string k) = Some (if (k <=? 0)%Z then 0%Z else tenths_of k).
Proof.
  intros Hk. unfold vida_string. destruct (k <=? 0)%Z eqn:E; [reflexivity|].
  apply Z.leb_gt in E. apply read_percent_show.
  now destruct (tenths_of_bounds k (conj E Hk)) as [[? _] _].
Qed.

Lemma vida_string_zero (k : Z) : vida_string k = "0%"%string <-> (k <= 0)%Z.
Proof.
  unfold vida_string. destruct (k <=? 0)%Z eqn:E.
  - apply Z.leb_le in E. tauto.
  - apply Z.leb_gt in E. split; [intros H; now apply show_tenths_not_zero in H|lia].
Qed.

(** The remaining units behind the output of a classified row, out of
    4,000,000. *)
Lemma vida_util_units (row : usage_row) (id : Py.value) :
  counter_range row ->
  classify_handpiece id = MAIN_FUNCTION \/ classify_handpiece id = SECONDARY_FUNCTION ->
  exists c : Z,
    calculate_vida_util row id = vida_string (4000000 - c) /\
    (0 <= c)%Z /\
    (forall row', counter_range row' -> usage_le row row' ->
       exists c', calculate_vida_util row' id = vida_string (4000000 - c') /\ (c <= c')%Z).
Proof.
  intros R [H|H].
  - apply classify_main_iff in H. eexists. split; [apply vida_util_main; assumption|].
    destruct R as (? & ? & ? & ?). split; [lia|].
    intros row' R' (? & ? & ? & ?). eexists. split; [apply vida_util_main; assumption|lia].
  - apply classify_secondary_iff in H. eexists. split; [apply vida_util_secondary; assumption|].
    destruct R as (? & ? & ? & ?). split; [lia|].
    intros row' R' (? & ? & ? & ?). eexists. split; [apply vida_util_secondary; assumption|lia].
Qed.

End ServiceLifeClaims.

(** C1.  For a row with counters in range: when the identifier is
    classified as main function, the consumption is
    [pulso*20 + rafaga*1 + (activacion + modulacion)*1] against a capacity of
    4,000,000; when it is classified as secondary function, it is
    [pulso*10 + rafaga*1 + (activacion + modulacion)*0.5] against 2,000,000.
    The output is exactly ["0%"] when nothing remains, and otherwise the
    remaining share [(capacity - consumed) / capacity * 100] printed with one
    decimal place and a percent sign, the printed number being a nearest
    one-decimal number to that share. *)
Theorem calculate_vida_util_formula (row : usage_row) (id : Py.value) :
  counter_range row ->
  (classify_handpiece id = MAIN_FUNCTION ->
   let total_capacity := 4000000%Q in
   let consumed := consumed_main row in
   ((total_capacity - consumed <= 0)%Q -> calculate_vida_util row id = "0%"%string) /\
   ((0 < total_capacity - consumed)%Q ->
    one_decimal_percent (remaining_percent total_capacity consumed)
                        (calculate_vida_util row id))) /\
  (classify_handpiece id = SECONDARY_FUNCTION ->
   let total_capacity := 2000000%Q in
   let consumed := consumed_secondary row in
   ((total_capacity - consumed <= 0)%Q -> calculate_vida_util row id = "0%"%string) /\
   ((0 < total_capacity - consumed)%Q ->
    one_decimal_percent (remaining_percent total_capacity consumed)
                        (calculate_vida_util row id))).
Proof.
  intros R. pose proof R as (Hp & Hr & Ha & Hm). split; intros H; cbv zeta.
  - apply classify_main_iff in H. rewrite (vida_util_main row id R H).
    set (k := 4000000 - _).
    assert (E : (remaining_percent 4000000 (consumed_main row) ==
                 inject_Z k / 4000000 * 100)%Q).
    { unfold remaining_percent, consumed_main, k, Zminus.
      rewrite !inject_Z_plus, inject_Z_opp, !inject_Z_plus, !inject_Z_mult.
      change (inject_Z 4000000) with 4000000%Q. change (inject_Z 20) with 20%Q.
      change (inject_Z 1) with 1%Q. field. }
    destruct (vida_string_shown k _ ltac:(subst k; lia) E) as [Z0 P0].
    split; intros Hc; [apply Z0|apply P0]; unfold remaining_percent, Qdiv;
      change (/ 4000000)%Q with (1 # 4000000)%Q; lra.
  - apply classify_secondary_iff in H. rewrite (vida_util_secondary row id R H).
    set (k := 4000000 - _).
    assert (E : (remaining_percent 2000000 (consumed_secondary row) ==
                 inject_Z k / 4000000 * 100)%Q).
    { unfold remaining_percent, consumed_secondary, k, Zminus.
      rewrite !inject_Z_plus, inject_Z_opp, !inject_Z_plus, !inject_Z_mult, !inject_Z_plus,
        !inject_Z_mult.
      change (inject_Z 4000000) with 4000000%Q. change (inject_Z 10) with 10%Q.
      change (inject_Z 2) with 2%Q. change (inject_Z 1) with 1%Q. field. }
    destruct (vida_string_shown k _ ltac:(subst k; lia) E) as [Z0 P0].
    split; intros Hc; [apply Z0|apply P0]; unfold remaining_percent, Qdiv;
      change (/ 2000000)%Q with (1 # 2000000)%Q; lra.
Qed.

Lemma calculate_vida_util_formula_witness :
  counter_range {| pulso := 1000; rafaga := 30; activacion := 7; modulacion := 2 |} /\
  one_decimal_percent
    (remaining_percent 2000000
       (consumed_secondary {| pulso := 1000; rafaga := 30; activacion := 7; modulacion := 2 |}))
    (calculate_vida_util {| pulso := 1000; rafaga := 30; activacion := 7; modulacion := 2 |}
                         (Py.Str "FH-0027")).
Proof.
  assert (R : counter_range {| pulso := 1000; rafaga := 30; activacion := 7; modulacion := 2 |}).
  { unfold counter_range. cbn. lia. }
  split; [exact R|].
  apply (calculate_vida_util_formula _ (Py.Str "FH-0027") R); reflexivity.
Defined.

(** C9.  For a classified identifier and counters in range, the number
    shown by the service-life text does not increase when the counters
    increase (in any one of them, or in several), it lies between 0 and 100
    percent, and once the text is the clamp ["0%"] it stays so under more
    usage.  Numbers are in tenths of a percent. *)
Theorem remaining_life_monotone (id : Py.value) (row row' : usage_row) :
  classify_handpiece id = MAIN_FUNCTION \/ classify_handpiece id = SECONDARY_FUNCTION ->
  counter_range row -> counter_range row' -> usage_le row row' ->
  exists t t' : Z,
    read_percent (calculate_vida_util row id) = Some t /\
    read_percent (calculate_vida_util row' id) = Some t' /\
    t' <= t /\ 0 <= t' /\ t <= 1000 /\
    (calculate_vida_util row id = "0%"%string ->
     calculate_vida_util row' id = "0%"%string).
Proof.
  intros C R R' L.
  destruct (vida_util_units row id R C) as (c & E & Hc & Next).
  destruct (Next row' R' L) as (c' & E' & Hcc).
  rewrite E, E', !read_vida_string by lia.
  do 2 eexists. split; [reflexivity|]. split; [reflexivity|].
  rewrite !vida_string_zero.
  destruct (4000000 - c <=? 0) eqn:K; destruct (4000000 - c' <=? 0) eqn:K';
    try apply Z.leb_le in K; try apply Z.leb_gt in K;
    try apply Z.leb_le in K'; try apply Z.leb_gt in K'; try lia.
  - pose proof (tenths_of_bounds (4000000 - c) ltac:(lia)) as [[? ?] _]. lia.
  - pose proof (tenths_of_bounds (4000000 - c) ltac:(lia)) as [[? ?] _].
    pose proof (tenths_of_bounds (4000000 - c') ltac:(lia)) as [[? ?] _].
    pose proof (tenths_of_mono (4000000 - c') (4000000 - c) ltac:(lia)). lia.
Qed.

Lemma remaining_life_monotone_witness :
  exists t t' : Z,
    read_percent (calculate_vida_util
                    {| pulso := 100; rafaga := 0; activacion := 0; modulacion := 0 |}
                    (Py.Int 119)) = Some t /\
    read_percent (calculate_vida_util
                    {| pulso := 150000; rafaga := 5; activacion := 0; modulacion := 9 |}
                    (Py.Int 119)) = Some t' /\
    t' <= t /\ 0 <= t' /\ t <= 1000 /\
    (calculate_vida_util {| pulso := 100; rafaga := 0; activacion := 0; modulacion := 0 |}
                         (Py.Int 119) = "0%"%string ->
     calculate_vida_util {| pulso := 150000; rafaga := 5; activacion := 0; modulacion := 9 |}
                         (Py.Int 119) = "0%"%string).
Proof.
  apply (remaining_life_monotone (Py.Int 119)).
  - left. reflexivity.
  - unfold counter_range. cbn. lia.
  - unfold counter_range. cbn. lia.
  - unfold usage_le. cbn. lia.
Defined.

Example vida_util_examples :
  calculate_vida_util {| pulso := 100; rafaga := 0; activacion := 0; modulacion := 0 |}
                      (Py.Int 119) = "100.0%"%string /\
  calculate_vida_util {| pulso := 100000; rafaga := 0; activacion := 3; modulacion := 0 |}
                      (Py.Int 129) = "50.0%"%string /\
  calculate_vida_util {| pulso := 199999; rafaga := 9; activacion := 1; modulacion := 0 |}
                      (Py.Int 129) = "0.0%"%string /\
  calculate_vida_util {| pulso := 200000; rafaga := 0; activacion := 0; modulacion := 0 |}
                      (Py.Int 129) = "0%"%string /\
  calculate_vida_util {| pulso := 1; rafaga := 1; activacion := 1; modulacion := 1 |}
                      (Py.Str "H-77") = UNIDENTIFIED /\
  calculate_vida_util {| pulso := 2 ^ 1030; rafaga := 0; activacion := 0; modulacion := 0 |}
                      (Py.Int 129) = vida_error.
Proof. vm_compute. repeat split. Qed.

(** C8.  A handpiece row classified as main function, with a raw pulse
    count of 300 and the other counters at 0: the pulse counter is rescaled
    to 100, the consumption is 100 x 20 = 2000, the remaining share is
    (4,000,000 - 2000) / 4,000,000 x 100 = 99.95 percent, and the text
    produced by the pipeline is ["100.0%"]. *)
Theorem pulse_300_scenario (r : raw_handpiece) :
  classify_handpiece (handpiece_id r) = MAIN_FUNCTION ->
  pulse_count r = 300 -> burst_count r = 0 ->
  activation_count r = 0 -> modulation_count r = 0 ->
  pulso (counters (prepare_handpiece r)) = 100 /\
  (consumed_main (counters (prepare_handpiece r)) == 100 * 20)%Q /\
  (remaining_percent 4000000 (consumed_main (counters (prepare_handpiece r))) == 9995 # 100)%Q /\
  vida_util (prepare_handpiece r) = "100.0%"%string.
Proof.
  intros C P B A M.
  assert (E : normalize_usage r =
              {| pulso := 100; rafaga := 0; activacion := 0; modulacion := 0 |}).
  { unfold normalize_usage. rewrite P, B, A, M. reflexivity. }
  cbn [prepare_handpiece counters vida_util]. rewrite E.
  repeat split; try reflexivity.
  apply classify_main_iff in C.
  assert (R : counter_range {| pulso := 100; rafaga := 0; activacion := 0; modulacion := 0 |})
    by (unfold counter_range; cbn; lia).
  rewrite (vida_util_main _ _ R C). reflexivity.
Qed.

Lemma pulse_300_scenario_witness :
  vida_util (prepare_handpiece
               {| din := "D1"; handpiece_id := Py.Str "FH-0019"; serial_number := "S-1";
                  created_at := Some 1700000000000000000;
                  pulse_count := 300; burst_count := 0;
                  activation_count := 0; modulation_count := 0 |}) = "100.0%"%string.
Proof.
  apply (pulse_300_scenario
           {| din := "D1"; handpiece_id := Py.Str "FH-0019"; serial_number := "S-1";
              created_at := Some 1700000000000000000;
              pulse_count := 300; burst_count := 0;
              activation_count := 0; modulation_count := 0 |}); reflexivity.
Defined.

(** The whole of [process_data] on the three rows of the scenario, device
    "D1", pulse counts 300, 600 and 900. *)
Example process_data_scenario :
  let row n t := {| din := "D1"; handpiece_id := Py.Str "FH-0019"; serial_number := "S-1";
                    created_at := Some t;
                    pulse_count := n; burst_count := 0;
                    activation_count := 0; modulation_count := 0 |} in
  let w := {| Pd.clock := fun _ => 1700000000000000000; Pd.reads := 0 |} in
  let out := Pd.frame_rows
               (fst (fst (process_data None
                            [row 300 1690000000000000000; row 600 1695000000000000000;
                             row 900 1600000000000000000]
                            None [] [] "D1" min_date w))) in
  map (fun o => (pulso (counters (h_row o)), vida_util (h_row o), estado o)) out =
  [(200, "99.9%"%string, INACTIVO); (100, "100.0%"%string, INACTIVO)].
Proof. vm_compute. reflexivity. Qed.

(* ===================================================================== *)
(** * Temporal filter                                                     *)
(* ===================================================================== *)

Section Sorting.
Context {R : Type} (key : R -> Z).

Lemma insert_desc_perm (r : R) (l : list R) :
  Permutation (Pd.insert_desc key r l) (r :: l).
Proof.
  induction l as [|h t IH]; cbn; [reflexivity|].
  destruct (key h <=? key r); [reflexivity|].
  rewrite IH. apply perm_swap.
Qed.

Lemma sort_values_desc_perm (l : list R) : Permutation (Pd.sort_values_desc key l) l.
Proof.
  induction l as [|r l IH]; cbn; [reflexivity|].
  rewrite insert_desc_perm. now apply perm_skip.
Qed.

Lemma insert_desc_sorted (r : R) (l : list R) :
  StronglySorted (descending key) l -> StronglySorted (descending key) (Pd.insert_desc key r l).
Proof.
  induction 1 as [|h t St IH Hh]; cbn.
  - repeat constructor.
  - destruct (key h <=? key r) eqn:E.
    + apply Z.leb_le in E. constructor; [now constructor|].
      constructor; [exact E|].
      eapply Forall_impl; [|exact Hh]. unfold descending. intros; lia.
    + apply Z.leb_gt in E. constructor; [exact IH|].
      rewrite (Forall_forall (descending key h)). intros x Hx.
      apply (Permutation_in _ (insert_desc_perm r t)) in Hx. destruct Hx as [<-|Hx].
      * unfold descending. lia.
      * rewrite Forall_forall in Hh. now apply Hh.
Qed.

Lemma sort_values_desc_sorted (l : list R) :
  StronglySorted (descending key) (Pd.sort_values_desc key l).
Proof.
  induction l as [|r l IH]; cbn; [constructor|]. now apply insert_desc_sorted.
Qed.

End Sorting.

Section TemporalFilter.

Lemma dated_stamp {R : Type} (stamp : R -> option Z) (l : list R) :
  Forall (fun vr => stamp (snd vr) = Some (fst vr)) (dated stamp l).
Proof.
  induction l as [|r l IH]; cbn; [constructor|].
  destruct (stamp r) eqn:E; cbn; [constructor; [exact E|exact IH]|exact IH].
Qed.

Lemma on_or_after_rows {R : Type} (stamp : R -> option Z) (cutoff : Z) (l : list R) :
  map snd (on_or_after stamp cutoff l) =
  filter (fun r => match stamp r with Some v => cutoff <=? v | None => false end) l.
Proof.
  unfold on_or_after, dated. induction l as [|r l IH]; [reflexivity|].
  cbn [flat_map filter]. rewrite filter_app, map_app, IH.
  destruct (stamp r) as [v|]; [|reflexivity].
  cbn. now destruct (cutoff <=? v).
Qed.

Lemma on_or_after_stamp {R : Type} (stamp : R -> option Z) (cutoff : Z) (l : list R) :
  Forall (fun vr => stamp (snd vr) = Some (fst vr)) (on_or_after stamp cutoff l).
Proof.
  unfold on_or_after. rewrite Forall_forall. intros vr H.
  apply filter_In in H. destruct H as [H _].
  pose proof (dated_stamp stamp l) as F. rewrite Forall_forall in F. now apply F.
Qed.

Lemma Timedelta_days_lt (delta n : Z) :
  Pd.Timedelta_days delta < n <-> delta < n * Pd.ns_per_day.
Proof.
  unfold Pd.Timedelta_days.
  assert (P : 0 < Pd.ns_per_day) by reflexivity.
  pose proof (Z.div_mod delta Pd.ns_per_day ltac:(lia)) as D.
  pose proof (Z.mod_pos_bound delta Pd.ns_per_day P) as M.
  split; intros H; nia.
Qed.

Lemma Timedelta_fits_iff (delta : Z) :
  Pd.Timedelta_fits delta = true <-> - 2 ^ 63 < delta < 2 ^ 63.
Proof. unfold Pd.Timedelta_fits. rewrite andb_true_iff, !Z.ltb_lt. tauto. Qed.

Lemma estado_of_within (today fecha : Z) :
  - 2 ^ 63 < today - fecha < 2 ^ 63 ->
  estado_of today fecha =
  Some (if Pd.Timedelta_days (today - fecha) <? 30 then ACTIVO else INACTIVO).
Proof.
  intros H. unfold estado_of, Pd.Timestamp_sub.
  now rewrite (proj2 (Timedelta_fits_iff _) H).
Qed.

(** The status is decided only when the subtraction does not overflow. *)
Lemma estado_of_cases (today fecha : Z) (e : string) :
  estado_of today fecha = Some e ->
  - 2 ^ 63 < today - fecha < 2 ^ 63 /\
  (e = ACTIVO <-> today - fecha < 30 * Pd.ns_per_day) /\
  (e = INACTIVO <-> 30 * Pd.ns_per_day <= today - fecha).
Proof.
  unfold estado_of, Pd.Timestamp_sub.
  destruct (Pd.Timedelta_fits (today - fecha)) eqn:F; [|discriminate].
  apply Timedelta_fits_iff in F. intros H. injection H as <-. split; [exact F|].
  destruct (Pd.Timedelta_days (today - fecha) <? 30) eqn:E.
  - apply Z.ltb_lt, Timedelta_days_lt in E. split; split; intros H; try reflexivity; try lia.
    discriminate.
  - apply Z.ltb_ge in E.
    assert (N : ~ today - fecha < 30 * Pd.ns_per_day) by (rewrite <- Timedelta_days_lt; lia).
    split; split; intros H; try reflexivity; try lia. discriminate.
Qed.

Lemma estado_of_overflow (today fecha : Z) :
  estado_of today fecha = None <-> ~ - 2 ^ 63 < today - fecha < 2 ^ 63.
Proof.
  unfold estado_of, Pd.Timestamp_sub. rewrite <- Timedelta_fits_iff.
  destruct (Pd.Timedelta_fits (today - fecha)); split; intros H; try reflexivity;
    try discriminate; congruence.
Qed.

Lemma Series_apply_Forall2 {A B : Type} (f : A -> option B) (l : list A) (out : list B) :
  Pd.Series_apply f l = Some out -> Forall2 (fun a b => f a = Some b) l out.
Proof.
  revert out. induction l as [|a l IH]; cbn [Pd.Series_apply]; intros out H.
  - injection H as <-. constructor.
  - destruct (f a) as [b|] eqn:E; [|discriminate].
    destruct (Pd.Series_apply f l) as [bs|]; [|discriminate].
    injection H as <-. constructor; [exact E|now apply IH].
Qed.

Lemma Series_apply_raises {A B : Type} (f : A -> option B) (l : list A) :
  Pd.Series_apply f l = None -> exists a, In a l /\ f a = None.
Proof.
  induction l as [|a l IH]; cbn [Pd.Series_apply]; [discriminate|].
  destruct (f a) as [b|] eqn:E; [|intros _; exists a; split; [now left|exact E]].
  destruct (Pd.Series_apply f l) as [bs|]; [discriminate|].
  intros _. destruct (IH eq_refl) as (x & Hx & Ex). exists x. split; [now right|exact Ex].
Qed.

Lemma Forall2_In_l {A B : Type} (P : A -> B -> Prop) (l : list A) (out : list B) (a : A) :
  Forall2 P l out -> In a l -> exists b, In b out /\ P a b.
Proof.
  induction 1 as [|x y l out H F IH]; [intros []|].
  intros [<-|I]; [exists y; split; [now left|exact H]|].
  destruct (IH I) as (b & Hb & Pb). exists b. split; [now right|exact Pb].
Qed.

Lemma Forall2_In_r {A B : Type} (P : A -> B -> Prop) (l : list A) (out : list B) (b : B) :
  Forall2 P l out -> In b out -> exists a, In a l /\ P a b.
Proof.
  induction 1 as [|x y l out H F IH]; [intros []|].
  intros [<-|I]; [exists x; split; [now left|exact H]|].
  destruct (IH I) as (a & Ha & Pa). exists a. split; [now right|exact Pa].
Qed.

Lemma Forall2_map_eq {A B C : Type} (P : A -> B -> Prop) (g : B -> C) (h : A -> C)
      (l : list A) (out : list B) :
  (forall a b, P a b -> g b = h a) -> Forall2 P l out -> map g out = map h l.
Proof.
  intros H. induction 1 as [|x y l out Hxy F IH]; [reflexivity|].
  cbn [map]. now rewrite IH, (H x y Hxy).
Qed.

Lemma Forall2_sorted {A B : Type} (P : A -> B -> Prop)
      (S : A -> A -> Prop) (T : B -> B -> Prop) (l : list A) (out : list B) :
  (forall a a' b b', P a b -> P a' b' -> S a a' -> T b b') ->
  Forall2 P l out -> StronglySorted S l -> StronglySorted T out.
Proof.
  intros H. induction 1 as [|x y l out Hxy F IH]; intros St; [constructor|].
  inversion St as [|? ? St' Fx]; subst. constructor; [now apply IH|].
  apply Forall_forall. intros b Hb.
  destruct (Forall2_In_r P l out b F Hb) as (a & Ha & Pa).
  rewrite Forall_forall in Fx. exact (H x a y b Hxy Pa (Fx a Ha)).
Qed.

Lemma with_estado_cases (zone : Pd.tzinfo) (today : Z) (vr : Z * handpiece) (o : handpiece_out) :
  with_estado zone today vr = Some o ->
  fecha_uso o = {| Pd.value := fst vr; Pd.tz := Some zone |} /\ h_row o = snd vr /\
  estado_of today (fst vr) = Some (estado o).
Proof.
  unfold with_estado. destruct (estado_of today (fst vr)) as [e|]; [|discriminate].
  intros H. injection H as <-. repeat split.
Qed.

Lemma StronglySorted_map {A B : Type} (f : A -> B) (R : B -> B -> Prop) (l : list A) :
  StronglySorted (fun a b => R (f a) (f b)) l -> StronglySorted R (map f l).
Proof.
  induction 1 as [|a l S IH Ha]; cbn; constructor; [exact IH|].
  rewrite Forall_map. exact Ha.
Qed.

Lemma normalize_cutoff_zoned (cutoff : Pd.Timestamp) :
  Pd.value (normalize_cutoff cutoff) = Pd.value cutoff /\
  exists z, Pd.tz (normalize_cutoff cutoff) = Some z.
Proof.
  unfold normalize_cutoff. destruct (Pd.tz cutoff) eqn:E; cbn; eauto.
Qed.

End TemporalFilter.

Section FilterCases.
Variable col_tz : option Pd.tzinfo.
Variable df : list handpiece.
Variable cutoff : Pd.Timestamp.
Variable w : Pd.World.

Let zone := match col_tz with None => Pd.UTC | Some z => z end.
Let today := Pd.clock w (Pd.reads w).
Let sorted := Pd.sort_values_desc fst (on_or_after fecha_uso_ns (Pd.value cutoff) df).
Let w' := {| Pd.clock := Pd.clock w; Pd.reads := S (Pd.reads w) |}.

(** On a normalised cut-off the filter compares, sorts, reads the clock
    and then either labels every kept row or fails on the first row whose
    distance from the clock overflows. *)
Lemma process_handpiece_dates_zoned :
  process_handpiece_dates col_tz df (normalize_cutoff cutoff) w =
  match Pd.Series_apply (with_estado zone today) sorted with
  | Some out => (Pd.Frame out, w')
  | None => (Pd.NoColumns, w')
  end.
Proof.
  destruct (normalize_cutoff_zoned cutoff) as [Ev [z Ez]].
  unfold process_handpiece_dates. now rewrite Ez, Ev.
Qed.

Lemma in_sorted (vr : Z * handpiece) :
  In vr sorted <->
  In (snd vr) df /\ fecha_uso_ns (snd vr) = Some (fst vr) /\ Pd.value cutoff <= fst vr.
Proof.
  unfold sorted. split.
  - intros H. apply (Permutation_in _ (sort_values_desc_perm fst _)) in H.
    unfold on_or_after in H. apply filter_In in H. destruct H as [H C].
    apply Z.leb_le in C. unfold dated in H. apply in_flat_map in H.
    destruct H as (r & Hr & Hv). destruct (fecha_uso_ns r) as [v|] eqn:E; [|destruct Hv].
    destruct Hv as [<-|[]]. cbn [fst snd]. repeat split; assumption.
  - intros (I & E & C). destruct vr as [v r]. cbn [fst snd] in *.
    apply (Permutation_in _ (Permutation_sym (sort_values_desc_perm fst _))).
    unfold on_or_after. apply filter_In. split; [|now apply Z.leb_le].
    unfold dated. apply in_flat_map. exists r. split; [exact I|]. rewrite E. now left.
Qed.

(** Within reach of the clock every kept row gets its status. *)
Lemma within_reach_labels :
  within_reach fecha_uso_ns today (Pd.value cutoff) df ->
  exists out, Pd.Series_apply (with_estado zone today) sorted = Some out.
Proof.
  intros H. destruct (Pd.Series_apply (with_estado zone today) sorted) as [out|] eqn:E;
    [now exists out|exfalso].
  destruct (Series_apply_raises _ _ E) as (vr & I & N).
  apply in_sorted in I. destruct I as (I & S & C).
  unfold with_estado in N.
  destruct (estado_of today (fst vr)) eqn:O; [discriminate|].
  apply estado_of_overflow in O. apply O. exact (H (snd vr) (fst vr) I S C).
Qed.

(** A table comes back only when every kept row is within reach. *)
Lemma labels_within_reach (out : list handpiece_out) :
  Pd.Series_apply (with_estado zone today) sorted = Some out ->
  within_reach fecha_uso_ns today (Pd.value cutoff) df.
Proof.
  intros E r v I S C. apply Series_apply_Forall2 in E.
  destruct (Forall2_In_l _ _ _ (v, r) E) as (o & _ & Ho).
  { apply in_sorted. cbn [fst snd]. repeat split; assumption. }
  apply with_estado_cases in Ho. destruct Ho as (_ & _ & Ho). cbn [fst] in Ho.
  now apply estado_of_cases in Ho.
Qed.

(** What the table holds when it comes back. *)
Lemma labelled_rows (out : list handpiece_out) :
  Pd.Series_apply (with_estado zone today) sorted = Some out ->
  Permutation (map h_row out)
    (filter (fun r => match fecha_uso_ns r with
                      | Some v => Pd.value cutoff <=? v
                      | None => false
                      end) df) /\
  Forall (fun o => fecha_uso_ns (h_row o) = Some (Pd.value (fecha_uso o)) /\
                   Pd.tz (fecha_uso o) = Some zone /\
                   Pd.value cutoff <= Pd.value (fecha_uso o) /\
                   In (h_row o) df) out /\
  StronglySorted (fun a b => Pd.value (fecha_uso b) <= Pd.value (fecha_uso a)) out /\
  Forall (fun o => (estado o = ACTIVO <->
                    today - Pd.value (fecha_uso o) < 30 * Pd.ns_per_day) /\
                   (estado o = INACTIVO <->
                    30 * Pd.ns_per_day <= today - Pd.value (fecha_uso o))) out.
Proof.
  intros E. apply Series_apply_Forall2 in E. repeat split.
  - rewrite (Forall2_map_eq _ h_row snd _ _ (fun a b H => proj1 (proj2 (with_estado_cases _ _ _ _ H))) E).
    unfold sorted. rewrite <- on_or_after_rows.
    apply Permutation_map, sort_values_desc_perm.
  - apply Forall_forall. intros o Ho.
    destruct (Forall2_In_r _ _ _ o E Ho) as (vr & I & Hvr).
    apply with_estado_cases in Hvr. destruct Hvr as (F & R & _).
    apply in_sorted in I. destruct I as (I & S & C).
    rewrite F, R. cbn [Pd.value Pd.tz]. repeat split; assumption.
  - apply (Forall2_sorted (fun a b => with_estado zone today a = Some b)
                          (descending fst) _ sorted out); [|exact E|apply sort_values_desc_sorted].
    intros a a' b b' Hb Hb' S. apply with_estado_cases in Hb, Hb'.
    destruct Hb as (-> & _), Hb' as (-> & _). cbn [Pd.value]. exact S.
  - apply Forall_forall. intros o Ho.
    destruct (Forall2_In_r _ _ _ o E Ho) as (vr & _ & Hvr).
    apply with_estado_cases in Hvr. destruct Hvr as (F & _ & S).
    rewrite F. cbn [Pd.value]. now apply estado_of_cases in S.
Qed.

End FilterCases.

(** C3, counterexample.  A handpiece reported on 1700-01-01 is on or
    after the cut-off 1690-01-01, but the clock of 2026 is more than 2^63
    nanoseconds away from it: the subtraction overflows, the [except] branch
    returns the empty column-less frame, and the row is not retained. *)
Lemma temporal_filter_as_worded_fails :
  ~ temporal_filter_as_worded None [handpiece_of_1700]
      (Pd.Timestamp_of_date 1690 1 1 (Some Pd.UTC)) clock_of_2026.
Proof.
  intros (out & E & _). vm_compute in E. discriminate E.
Qed.

(** C3, as amended.  On a cut-off normalised to a zoned instant the filter
    reads the clock exactly once.  When every row on or after the cut-off
    is within reach of the clock (the clock reading minus its timestamp
    fits 64-bit nanoseconds), the filter returns a table that holds exactly
    the input rows whose timestamp is on or after the cut-off (a missing
    timestamp is never kept), each with its own timestamp, zoned: UTC when
    the column was naive.  The rows are in descending order of timestamp,
    and a row is ACTIVO when the single clock reading minus its timestamp is
    less than 30 days and INACTIVO otherwise.  When some such row is out of
    reach, the filter returns the empty column-less frame instead. *)
Theorem process_handpiece_dates_filters
    (col_tz : option Pd.tzinfo) (df : list handpiece) (cutoff : Pd.Timestamp) (w : Pd.World) :
  let today := Pd.clock w (Pd.reads w) in
  (within_reach fecha_uso_ns today (Pd.value cutoff) df ->
   temporal_filter_as_worded col_tz df cutoff w) /\
  (~ within_reach fecha_uso_ns today (Pd.value cutoff) df ->
   process_handpiece_dates col_tz df (normalize_cutoff cutoff) w =
     (Pd.NoColumns, {| Pd.clock := Pd.clock w; Pd.reads := S (Pd.reads w) |})).
Proof.
  cbv zeta. split; intros H.
  - destruct (within_reach_labels col_tz df cutoff w H) as (out & E).
    exists out. rewrite process_handpiece_dates_zoned, E. split; [reflexivity|].
    destruct (labelled_rows col_tz df cutoff w out E) as (P & F & S & A).
    repeat split; try assumption.
    eapply Forall_impl; [|exact F]. cbv beta. intros o (F1 & F2 & _). now split.
  - rewrite process_handpiece_dates_zoned.
    destruct (Pd.Series_apply _ _) as [out|] eqn:E; [|reflexivity].
    exfalso. apply H. exact (labels_within_reach col_tz df cutoff w out E).
Qed.

Lemma process_handpiece_dates_filters_witness :
  temporal_filter_as_worded None [handpiece_of_1700]
    (Pd.Timestamp_of_date 1690 1 1 (Some Pd.UTC))
    {| Pd.clock := fun _ => Pd.value (Pd.Timestamp_of_date 1750 1 1 None); Pd.reads := 0 |}.
Proof.
  apply (proj1 (process_handpiece_dates_filters _ _ _ _)).
  intros r v [<-|[]] E _. injection E as <-. vm_compute. split; reflexivity.
Defined.

(** Without the normalisation of [process_data], a naive cut-off makes the
    comparison raise; the function reports the error, returns the empty
    frame and never reads the clock. *)
Example process_handpiece_dates_naive_cutoff
    (col_tz : option Pd.tzinfo) (df : list handpiece) (v : Z) (w : Pd.World) :
  process_handpiece_dates col_tz df {| Pd.value := v; Pd.tz := None |} w = (Pd.NoColumns, w).
Proof. reflexivity. Qed.

(* ===================================================================== *)
(** * Suggested cut-off date                                              *)
(* ===================================================================== *)

Lemma filter_head_find {A : Type} (p : A -> bool) (l : list A) :
  find p l = hd_error (filter p l).
Proof.
  induction l as [|a l IH]; cbn; [reflexivity|]. now destruct (p a).
Qed.

Lemma get_suggested_cutoff_date_cases (drv_df : list (drv (option Z))) (device : string) :
  get_suggested_cutoff_date drv_df device =
  match find (fun r => String.eqb (drv_din r) device) drv_df with
  | None => min_date
  | Some r =>
      match fecha_corte r with
      | None => min_date
      | Some v =>
          if v <? Pd.value min_date then min_date
          else {| Pd.value := v; Pd.tz := Some Pd.UTC |}
      end
  end.
Proof.
  unfold get_suggested_cutoff_date. rewrite filter_head_find.
  destruct (filter _ drv_df) as [|r rest]; reflexivity.
Qed.

Lemma find_load_drv (raw : list (drv excel_cell)) (device : string) :
  find (fun r => String.eqb (drv_din r) device) (load_drv raw) =
  option_map (fun r => {| drv_din := drv_din r;
                          fecha_corte := convert_excel_date (fecha_corte r) |})
             (find (fun r => String.eqb (drv_din r) device) raw).
Proof.
  induction raw as [|r raw IH]; cbn; [reflexivity|].
  destruct (String.eqb (drv_din r) device); [reflexivity|exact IH].
Qed.

(** C7.  Whatever the hint table holds and whatever device is asked for,
    the suggested cut-off is a UTC instant not earlier than 2023-01-01.  It
    is exactly 2023-01-01 when the device has no hint row, when its hint does
    not convert to a date, and when its hint converts to an earlier date; the
    serial 44713, which is 2022-06-01, is such a hint. *)
Theorem suggested_cutoff_floor (raw : list (drv excel_cell)) (device : string) :
  let suggested := get_suggested_cutoff_date (load_drv raw) device in
  let floor_2023 := Pd.Timestamp_of_date 2023 1 1 (Some Pd.UTC) in
  (Pd.tz suggested = Some Pd.UTC /\ Pd.value floor_2023 <= Pd.value suggested) /\
  match find (fun r => String.eqb (drv_din r) device) raw with
  | None => suggested = floor_2023
  | Some r =>
      (convert_excel_date (fecha_corte r) = None -> suggested = floor_2023) /\
      (forall v, convert_excel_date (fecha_corte r) = Some v ->
                 v < Pd.value floor_2023 -> suggested = floor_2023) /\
      (fecha_corte r = XInt 44713 -> suggested = floor_2023)
  end /\
  convert_excel_date (XInt 44713) = Some (Pd.value (Pd.Timestamp_of_date 2022 6 1 None)) /\
  convert_excel_date XNaN = None /\
  convert_excel_date (XStr "2022-06-01") = None /\
  convert_excel_date (XStr "") = None.
Proof.
  cbv zeta. rewrite get_suggested_cutoff_date_cases, find_load_drv.
  fold min_date.
  destruct (find _ raw) as [r|]; cbn [option_map fecha_corte].
  - destruct (convert_excel_date (fecha_corte r)) as [v|] eqn:E.
    + destruct (v <? Pd.value min_date) eqn:L.
      * repeat split; try reflexivity; try discriminate; intros; reflexivity.
      * apply Z.ltb_ge in L. repeat split; try reflexivity; try discriminate; cbn [Pd.value].
        -- exact L.
        -- intros v' Ev Hv. injection Ev as <-. lia.
        -- intros Hc. rewrite Hc in E. vm_compute in E. injection E as <-.
           vm_compute in L. now contradiction L.
    + repeat split; try reflexivity; try discriminate.
  - repeat split; reflexivity.
Qed.

Example suggested_cutoff_examples :
  let table := [ {| drv_din := "D1"; fecha_corte := XInt 44713 |};
                 {| drv_din := "D2"; fecha_corte := XInt 45000 |};
                 {| drv_din := "D3"; fecha_corte := XStr "n/a" |};
                 {| drv_din := "D4"; fecha_corte := XStr "45000" |} ]%string in
  get_suggested_cutoff_date (load_drv table) "D1" = min_date /\
  get_suggested_cutoff_date (load_drv table) "D2" =
    Pd.Timestamp_of_date 2023 3 15 (Some Pd.UTC) /\
  get_suggested_cutoff_date (load_drv table) "D3" = min_date /\
  get_suggested_cutoff_date (load_drv table) "D4" =
    Pd.Timestamp_of_date 2023 3 15 (Some Pd.UTC) /\
  get_suggested_cutoff_date (load_drv table) "D9" = min_date.
Proof. vm_compute. repeat split. Qed.

(* ===================================================================== *)
(** * Treatment joiner                                                    *)
(* ===================================================================== *)

Section Joiner.
Variable treatments_id_df : list treatment_id.

Lemma merge_row_left (t : treatment) (m : merged) : In m (merge_row treatments_id_df t) -> m_left m = t.
Proof.
  unfold merge_row. destruct (matches_of treatments_id_df t) as [|r ms].
  - intros [<-|[]]. reflexivity.
  - intros H. apply in_map_iff in H. destruct H as (x & <- & _). reflexivity.
Qed.

Lemma merge_row_nonempty (t : treatment) : merge_row treatments_id_df t <> [].
Proof. unfold merge_row. destruct (matches_of treatments_id_df t); discriminate. Qed.

Lemma unmatched_matches (t : treatment) :
  unmatched treatments_id_df t <-> matches_of treatments_id_df t = [].
Proof.
  unfold unmatched, matches_of. split.
  - intros U. destruct (filter _ _) as [|r ms] eqn:E; [reflexivity|exfalso].
    assert (I : In r (r :: ms)) by now left. rewrite <- E in I.
    apply filter_In in I. destruct I as [I Hr]. apply String.eqb_eq in Hr.
    now apply (U r I).
  - intros E l Hl Hc.
    assert (I : In l (filter (fun r => String.eqb (code t) (Treatment_ID r)) treatments_id_df)).
    { apply filter_In. split; [exact Hl|]. apply String.eqb_eq. now symmetry. }
    rewrite E in I. exact I.
Qed.

Lemma unmatched_matched_b (t : treatment) :
  unmatched treatments_id_df t <-> matched_b treatments_id_df t = false.
Proof.
  unfold unmatched, matched_b. split.
  - intros U. destruct (existsb _ _) eqn:E; [exfalso|reflexivity].
    apply existsb_exists in E. destruct E as (l & Hl & Hc). apply String.eqb_eq in Hc.
    now apply (U l Hl).
  - intros E l Hl Hc. assert (X : existsb (fun l => String.eqb (code t) (Treatment_ID l))
                                     treatments_id_df = true).
    { apply existsb_exists. exists l. split; [exact Hl|]. apply String.eqb_eq. now symmetry. }
    congruence.
Qed.

Lemma merge_row_unmatched (t : treatment) (m : merged) :
  unmatched treatments_id_df t -> In m (merge_row treatments_id_df t) -> m_right m = None.
Proof.
  intros U. apply unmatched_matches in U. unfold merge_row. rewrite U.
  intros [<-|[]]. reflexivity.
Qed.

Lemma in_merge_and_fill (treatments_df : list treatment) (j : joined) :
  In j (merge_and_fill treatments_df treatments_id_df) <->
  exists t m, In t treatments_df /\ In m (merge_row treatments_id_df t) /\ j = assign_defaults m.
Proof.
  unfold merge_and_fill. unfold merge_left; rewrite in_map_iff. split.
  - intros (m & <- & H). apply in_flat_map in H. destruct H as (t & Ht & Hm). eauto.
  - intros (t & m & Ht & Hm & ->). exists m. split; [reflexivity|].
    apply in_flat_map. eauto.
Qed.

(** A joined row whose code has no lookup match carries the four defaults
    and no program. *)
Lemma unmatched_joined_defaults (treatments_df : list treatment) (j : joined) :
  In j (merge_and_fill treatments_df treatments_id_df) ->
  unmatched treatments_id_df (source j) ->
  Tipo j = "FHOS"%string /\ Subprograma j = "FHOS genérico"%string /\
  PVP j = 60 /\ Secuencia j = 1%Q /\ Subtipo j = None.
Proof.
  intros H U. apply in_merge_and_fill in H. destruct H as (t & m & Ht & Hm & ->).
  cbn in U. rewrite (merge_row_left _ _ Hm) in U.
  unfold assign_defaults, column. rewrite (merge_row_unmatched _ _ U Hm). repeat split.
Qed.

Lemma length_flat_map_ge {A B : Type} (f : A -> list B) (l : list A) :
  (forall a, f a <> []) -> (List.length l <= List.length (flat_map f l))%nat.
Proof.
  intros H. induction l as [|a l IH]; cbn; [lia|].
  rewrite length_app. specialize (H a). destruct (f a); [congruence|cbn; lia].
Qed.

End Joiner.

(** C4.  The join keeps every treatment row: each input row is the source
    of at least one joined row, whether or not its code is in the lookup
    table, and the joined table is at least as long as the input.  In a
    joined row every absent lookup field is filled: the category with
    "FHOS", the subcategory with "FHOS genérico", the price with 60 and the
    sequence step with 1.0; a row whose code has no lookup match has all four
    defaults. *)
Theorem merge_and_fill_keeps_rows
    (treatments_df : list treatment) (treatments_id_df : list treatment_id) :
  let joined_df := merge_and_fill treatments_df treatments_id_df in
  (forall t, In t treatments_df -> exists j, In j joined_df /\ source j = t) /\
  (List.length treatments_df <= List.length joined_df)%nat /\
  (forall m : merged,
     (column id_Tipo m = None -> Tipo (assign_defaults m) = "FHOS"%string) /\
     (column id_Subprograma m = None ->
      Subprograma (assign_defaults m) = "FHOS genérico"%string) /\
     (column id_PVP m = None -> PVP (assign_defaults m) = 60) /\
     (column id_Secuencia m = None -> Secuencia (assign_defaults m) = 1%Q)) /\
  (forall j, In j joined_df -> unmatched treatments_id_df (source j) ->
     Tipo j = "FHOS"%string /\ Subprograma j = "FHOS genérico"%string /\
     PVP j = 60 /\ Secuencia j = 1%Q).
Proof.
  cbv zeta. repeat split.
  - intros t Ht.
    destruct (merge_row treatments_id_df t) as [|m ms] eqn:E.
    { now apply merge_row_nonempty in E. }
    exists (assign_defaults m). split.
    + apply in_merge_and_fill. exists t, m. rewrite E. repeat split; [exact Ht|now left].
    + cbn. apply (merge_row_left treatments_id_df). rewrite E. now left.
  - unfold merge_and_fill. rewrite length_map. unfold merge_left.
    apply length_flat_map_ge. intros a. apply merge_row_nonempty.
  - cbn. now intros ->.
  - cbn. now intros ->.
  - cbn. now intros ->.
  - cbn. now intros ->.
  - now destruct (unmatched_joined_defaults _ _ _ H H0) as (? & ? & ? & ? & ?).
  - now destruct (unmatched_joined_defaults _ _ _ H H0) as (? & ? & ? & ? & ?).
  - now destruct (unmatched_joined_defaults _ _ _ H H0) as (? & ? & ? & ? & ?).
  - now destruct (unmatched_joined_defaults _ _ _ H H0) as (? & ? & ? & ? & ?).
Qed.

(* ===================================================================== *)
(** * Aggregator                                                          *)
(* ===================================================================== *)

Section Groups.
Variable key : joined -> option string.

Lemma in_insert_key (x k : string) (l : list string) :
  In x (insert_key k l) <-> x = k \/ In x l.
Proof.
  induction l as [|h t IH]; cbn; [intuition|].
  destruct (String.compare k h) eqn:E; cbn.
  - apply String.compare_eq_iff in E. subst. intuition.
  - intuition.
  - rewrite IH. intuition.
Qed.

Lemma group_keys_cons (r : joined) (rows : list joined) :
  group_keys key (r :: rows) =
  match key r with
  | Some k => insert_key k (group_keys key rows)
  | None => group_keys key rows
  end.
Proof. reflexivity. Qed.

Lemma in_group_keys (k : string) (rows : list joined) :
  In k (group_keys key rows) <-> exists r, In r rows /\ key r = Some k.
Proof.
  induction rows as [|r rows IH]; [|rewrite group_keys_cons].
  - split; [intros []|intros (r & [] & _)].
  - destruct (key r) as [k'|] eqn:E.
    + rewrite in_insert_key, IH. split.
      * intros [->|(r' & Hr & Hk)]; [exists r|exists r']; cbn; auto.
      * intros (r' & [<-|Hr] & Hk); [left; congruence|right; eauto].
    + rewrite IH. split.
      * intros (r' & Hr & Hk). exists r'. cbn. auto.
      * intros (r' & [<-|Hr] & Hk); [congruence|eauto].
Qed.

Lemma has_key_spec (k : string) (r : joined) : has_key key k r = true <-> key r = Some k.
Proof.
  unfold has_key. destruct (key r) as [k'|]; [|split; discriminate].
  rewrite String.eqb_eq. split; congruence.
Qed.

(** Rows without a key take no part in the grouping. *)
Lemma group_keys_filter (P : joined -> bool) (rows : list joined) :
  (forall r, In r rows -> key r <> None -> P r = true) ->
  group_keys key (filter P rows) = group_keys key rows.
Proof.
  induction rows as [|r rows IH]; intros H; [reflexivity|]. cbn [filter].
  assert (IH' : group_keys key (filter P rows) = group_keys key rows).
  { apply IH. intros r' Hr. apply H. now right. }
  destruct (P r) eqn:E; rewrite !group_keys_cons, ?IH'; [reflexivity|].
  destruct (key r) eqn:K; [|reflexivity].
  rewrite (H r) in E; [discriminate|now left|congruence].
Qed.

Lemma members_filter (P : joined -> bool) (k : string) (rows : list joined) :
  (forall r, In r rows -> key r <> None -> P r = true) ->
  filter (has_key key k) (filter P rows) = filter (has_key key k) rows.
Proof.
  induction rows as [|r rows IH]; intros H; [reflexivity|]. cbn [filter].
  assert (IH' : filter (has_key key k) (filter P rows) = filter (has_key key k) rows).
  { apply IH. intros r' Hr. apply H. now right. }
  destruct (P r) eqn:E; cbn [filter]; rewrite IH'; [reflexivity|].
  destruct (has_key key k r) eqn:K; [|reflexivity].
  apply has_key_spec in K. rewrite (H r) in E; [discriminate|now left|congruence].
Qed.

Lemma groupby_agg_filter (P : joined -> bool) (rows : list joined) :
  (forall r, In r rows -> key r <> None -> P r = true) ->
  groupby_agg key (filter P rows) = groupby_agg key rows.
Proof.
  intros H. unfold groupby_agg. rewrite (group_keys_filter P rows H).
  apply map_ext. intros k. now rewrite (members_filter P k rows H).
Qed.

Lemma groupby_agg_empty : groupby_agg key [] = [].
Proof. reflexivity. Qed.

(** Every group has a member, and every key met has its group. *)
Lemma in_groupby_agg (g : group) (rows : list joined) :
  In g (groupby_agg key rows) ->
  In (g_label g) (group_keys key rows) /\
  g_Cantidad g = Z.of_nat (List.length (filter (has_key key (g_label g)) rows)) /\
  g_PVP g = Zsum (map PVP (filter (has_key key (g_label g)) rows)) /\
  1 <= g_Cantidad g.
Proof.
  unfold groupby_agg. intros H. apply in_map_iff in H. destruct H as (k & <- & Hk).
  cbn. repeat split; [exact Hk|].
  apply in_group_keys in Hk. destruct Hk as (r & Hr & Hk).
  assert (I : In r (filter (has_key key k) rows)).
  { apply filter_In. split; [exact Hr|now apply has_key_spec]. }
  destruct (filter (has_key key k) rows); [destruct I|cbn [List.length]; lia].
Qed.

Lemma groupby_agg_has (k : string) (rows : list joined) :
  (exists r, In r rows /\ key r = Some k) ->
  exists g, In g (groupby_agg key rows) /\ g_label g = k /\
            g_Cantidad g = Z.of_nat (List.length (filter (has_key key k) rows)).
Proof.
  intros H. apply in_group_keys in H. unfold groupby_agg.
  eexists. split; [apply in_map_iff; eexists; split; [reflexivity|exact H]|].
  split; reflexivity.
Qed.

End Groups.

Section Summaries.

Lemma Zsum_cons (x : Z) (l : list Z) : Zsum (x :: l) = x + Zsum l.
Proof. reflexivity. Qed.

Lemma Zsum_nonneg (l : list Z) : Forall (fun x => 0 <= x) l -> 0 <= Zsum l.
Proof. induction 1; rewrite ?Zsum_cons; [reflexivity|lia]. Qed.

Lemma Zsum_member (x : Z) (l : list Z) :
  Forall (fun y => 0 <= y) l -> In x l -> x <= Zsum l.
Proof.
  induction 1 as [|y l Hy F IH]; [intros []|]. rewrite Zsum_cons.
  pose proof (Zsum_nonneg l F) as N. intros [->|I]; [lia|]. specialize (IH I). lia.
Qed.

Lemma Zsum_perm (l l' : list Z) : Permutation l l' -> Zsum l = Zsum l'.
Proof. induction 1; rewrite ?Zsum_cons; lia. Qed.

Lemma create_summary_rows (key : joined -> option string) (rows : list treatment_out) :
  create_summary key (Pd.Frame rows) =
  Pd.Frame
    (map (fun g =>
            {| label := g_label g;
               Cantidad := g_Cantidad g;
               PVP_sum := g_PVP g;
               pct_tratamientos :=
                 percentage (g_Cantidad g) (Zsum (map g_Cantidad (resumen_of key rows)));
               pct_ingresos :=
                 percentage (g_PVP g) (Zsum (map g_PVP (resumen_of key rows))) |})
         (resumen_of key rows)).
Proof. reflexivity. Qed.

Lemma in_resumen_of (key : joined -> option string) (rows : list treatment_out) (g : group) :
  In g (resumen_of key rows) <-> In g (groupby_agg key (first_steps rows)).
Proof.
  unfold resumen_of. split; apply Permutation_in;
    [|symmetry]; apply sort_values_desc_perm.
Qed.

End Summaries.

(** C6.  When no row is a first step (sequence step 1.0), each of the three
    summaries returns normally, with an empty table: no percentage is
    computed and nothing is divided.  On the column-less empty frame the
    three functions return the empty frame. *)
Theorem create_summary_without_first_step (rows : list treatment_out) :
  (forall o, In o rows -> ~ (Secuencia (t_row o) == 1)%Q) ->
  create_treatment_summary (Pd.Frame rows) = Pd.Frame [] /\
  create_program_summary (Pd.Frame rows) = Pd.Frame [] /\
  create_subprogram_summary (Pd.Frame rows) = Pd.Frame [] /\
  create_treatment_summary Pd.NoColumns = Pd.NoColumns /\
  create_program_summary Pd.NoColumns = Pd.NoColumns /\
  create_subprogram_summary Pd.NoColumns = Pd.NoColumns.
Proof.
  intros H.
  assert (E : first_steps rows = []).
  { unfold first_steps. induction rows as [|o rows IH]; [reflexivity|]. cbn.
    destruct (Qeq_bool (Secuencia (t_row o)) 1) eqn:Q.
    - apply Qeq_bool_iff in Q. exfalso. apply (H o); [now left|exact Q].
    - apply IH. intros o' Ho'. apply H. now right. }
  unfold create_treatment_summary, create_program_summary, create_subprogram_summary.
  rewrite !create_summary_rows. unfold resumen_of. rewrite E.
  repeat split.
Qed.

Lemma create_summary_without_first_step_witness :
  create_treatment_summary
    (Pd.Frame [ {| reported_at := min_date;
                   t_row := {| source := {| t_din := "D1"; code := "T7";
                                            reported_at_ns := None; duration := 900 |};
                               Tipo := "FHOS"; Subtipo := None;
                               Subprograma := "Estimulación"; PVP := 60;
                               Secuencia := 2 |} |} ]) = Pd.Frame [].
Proof.
  refine (proj1 (create_summary_without_first_step _ _)).
  intros o [<-|[]]. cbn [t_row Secuencia]. discriminate.
Defined.

Section ProgramSummary.

Lemma process_treatments_rows
    (col_tz : option Pd.tzinfo) (treatments_df : list treatment)
    (treatments_id_df : list treatment_id) (device : string) (cutoff : Pd.Timestamp)
    (rows : list treatment_out) :
  process_treatments col_tz treatments_df treatments_id_df device cutoff = Pd.Frame rows ->
  Forall (fun o => In (t_row o) (merge_and_fill treatments_df treatments_id_df)) rows.
Proof.
  unfold process_treatments. destruct (Pd.tz cutoff); [|discriminate].
  intros E. injection E as <-. rewrite Forall_map. cbn [t_row].
  apply Forall_forall. intros vr H.
  assert (I : In (snd vr) (map snd (on_or_after (fun j => reported_at_ns (source j))
                                      (Pd.value cutoff)
                                      (filter (fun j => String.eqb (t_din (source j)) device)
                                         (merge_and_fill treatments_df treatments_id_df)))))
    by now apply in_map.
  rewrite on_or_after_rows in I. apply filter_In in I. destruct I as [I _].
  apply filter_In in I. now destruct I.
Qed.

Lemma length_filter_le {A : Type} (p q : A -> bool) (l : list A) :
  (forall x, In x l -> q x = true -> p x = true) ->
  (List.length (filter q l) <= List.length (filter p l))%nat.
Proof.
  induction l as [|a l IH]; intros H; [reflexivity|]. cbn [filter].
  assert (IH' := IH (fun x Hx => H x (or_intror Hx))).
  destruct (q a) eqn:Q.
  - rewrite (H a (or_introl eq_refl) Q). cbn. lia.
  - destruct (p a); cbn; lia.
Qed.

Lemma filter_filter {A : Type} (p q : A -> bool) (l : list A) :
  filter p (filter q l) = filter (fun x => q x && p x) l.
Proof.
  induction l as [|a l IH]; [reflexivity|]. cbn.
  destruct (q a); cbn; [destruct (p a)|]; now rewrite IH.
Qed.

Lemma filter_comm {A : Type} (p q : A -> bool) (l : list A) :
  filter p (filter q l) = filter q (filter p l).
Proof.
  rewrite !filter_filter. apply filter_ext. intros a. apply andb_comm.
Qed.

Lemma filter_map_swap {A B : Type} (f : A -> B) (p : B -> bool) (l : list A) :
  filter p (map f l) = map f (filter (fun x => p (f x)) l).
Proof.
  induction l as [|a l IH]; [reflexivity|]. cbn. destruct (p (f a)); cbn; now rewrite IH.
Qed.

(** A first-step group holding all rows that satisfy [q]. *)
Lemma summary_counts (key : joined -> option string) (k : string) (q : joined -> bool)
    (rows : list treatment_out) :
  (forall r, In r (map t_row rows) -> q r = true ->
             Secuencia r = 1%Q /\ key r = Some k) ->
  filter q (map t_row rows) <> [] ->
  exists g, In g (Pd.frame_rows (create_summary key (Pd.Frame rows))) /\
            label g = k /\
            Z.of_nat (List.length (filter q (map t_row rows))) <= Cantidad g.
Proof.
  intros H N.
  assert (S : forall r, In r (map t_row rows) -> q r = true ->
                        (Qeq_bool (Secuencia r) 1 && has_key key k r) = true).
  { intros r Hr Hq. destruct (H r Hr Hq) as [-> Hk].
    apply has_key_spec in Hk. now rewrite Hk. }
  destruct (filter q (map t_row rows)) as [|r0 rest] eqn:E; [congruence|].
  assert (I0 : In r0 (filter q (map t_row rows))) by (rewrite E; now left).
  apply filter_In in I0. destruct I0 as [I0 Q0]. destruct (H r0 I0 Q0) as [S0 K0].
  destruct (groupby_agg_has key k (first_steps rows)) as (g & Hg & Lg & Cg).
  { exists r0. split; [|exact K0]. unfold first_steps. apply filter_In.
    split; [exact I0|]. now rewrite S0. }
  rewrite create_summary_rows. cbn [Pd.frame_rows].
  eexists. split; [apply in_map; apply in_resumen_of; exact Hg|].
  cbn [label Cantidad]. split; [exact Lg|]. rewrite Cg, <- E.
  unfold first_steps. rewrite filter_filter.
  apply Nat2Z.inj_le, length_filter_le, S.
Qed.

End ProgramSummary.

(** C10.  In the frame returned by the joiner, a row whose code has no
    lookup match has the default category, subcategory, price and sequence
    step, and no program.  The program summary is the same as if those rows
    were removed, and each of its groups is named after the program of a
    matched row.  The type summary and the subprogram summary do count them:
    the group "FHOS", respectively "FHOS genérico", is present and holds at
    least as many treatments as there are unmatched rows. *)
Theorem unmatched_rows_and_program_summary
    (col_tz : option Pd.tzinfo) (treatments_df : list treatment)
    (treatments_id_df : list treatment_id) (device : string) (cutoff : Pd.Timestamp)
    (rows : list treatment_out) :
  process_treatments col_tz treatments_df treatments_id_df device cutoff = Pd.Frame rows ->
  let is_matched o := matched_b treatments_id_df (source (t_row o)) in
  let lost := filter (fun o => negb (is_matched o)) rows in
  Forall (fun o => Subtipo (t_row o) = None /\
                   Tipo (t_row o) = "FHOS"%string /\
                   Subprograma (t_row o) = "FHOS genérico"%string /\
                   PVP (t_row o) = 60 /\ Secuencia (t_row o) = 1%Q) lost /\
  create_program_summary (Pd.Frame rows) =
    create_program_summary (Pd.Frame (filter is_matched rows)) /\
  (forall g, In g (Pd.frame_rows (create_program_summary (Pd.Frame rows))) ->
     exists o, In o rows /\ is_matched o = true /\ Subtipo (t_row o) = Some (label g)) /\
  (lost <> [] ->
   (exists g, In g (Pd.frame_rows (create_treatment_summary (Pd.Frame rows))) /\
              label g = "FHOS"%string /\ Z.of_nat (List.length lost) <= Cantidad g) /\
   (exists g, In g (Pd.frame_rows (create_subprogram_summary (Pd.Frame rows))) /\
              label g = "FHOS genérico"%string /\ Z.of_nat (List.length lost) <= Cantidad g)).
Proof.
  intros E is_matched lost.
  pose proof (process_treatments_rows _ _ _ _ _ _ E) as F. rewrite Forall_forall in F.
  assert (D : forall o, In o rows -> is_matched o = false ->
                Tipo (t_row o) = "FHOS"%string /\
                Subprograma (t_row o) = "FHOS genérico"%string /\
                PVP (t_row o) = 60 /\ Secuencia (t_row o) = 1%Q /\ Subtipo (t_row o) = None).
  { intros o Ho Hm. apply (unmatched_joined_defaults treatments_id_df treatments_df).
    - now apply F.
    - now apply unmatched_matched_b. }
  assert (L : map t_row lost =
              filter (fun r => negb (matched_b treatments_id_df (source r))) (map t_row rows)).
  { unfold lost. now rewrite filter_map_swap. }
  repeat split.
  - apply Forall_forall. intros o Ho. apply filter_In in Ho. destruct Ho as [Ho Hm].
    apply negb_true_iff in Hm. destruct (D o Ho Hm) as (? & ? & ? & ? & ?). auto.
  - unfold create_program_summary. rewrite !create_summary_rows. unfold resumen_of.
    assert (G : groupby_agg Subtipo (first_steps (filter is_matched rows)) =
                groupby_agg Subtipo (first_steps rows)).
    { assert (S : first_steps (filter is_matched rows) =
                  filter (fun r => matched_b treatments_id_df (source r)) (first_steps rows)).
      { unfold first_steps.
        rewrite (filter_comm (fun r => matched_b treatments_id_df (source r))).
        f_equal.
        exact (eq_sym (filter_map_swap t_row
                         (fun r => matched_b treatments_id_df (source r)) rows)). }
      rewrite S.
      apply groupby_agg_filter. intros r Hr Hs.
      apply filter_In in Hr. destruct Hr as [Hr _].
      apply in_map_iff in Hr. destruct Hr as (o & <- & Ho).
      destruct (matched_b treatments_id_df (source (t_row o))) eqn:M; [reflexivity|].
      destruct (D o Ho M) as (_ & _ & _ & _ & N). congruence. }
    now rewrite G.
  - intros g Hg. unfold create_program_summary in Hg. rewrite create_summary_rows in Hg.
    cbn [Pd.frame_rows] in Hg. apply in_map_iff in Hg. destruct Hg as (gr & <- & Hg).
    apply in_resumen_of, in_groupby_agg in Hg. destruct Hg as (Hk & _).
    apply in_group_keys in Hk. destruct Hk as (r & Hr & Hk). cbn [label].
    apply filter_In in Hr. destruct Hr as [Hr _].
    apply in_map_iff in Hr. destruct Hr as (o & <- & Ho).
    exists o. repeat split; [exact Ho| |exact Hk].
    destruct (is_matched o) eqn:M; [reflexivity|].
    destruct (D o Ho M) as (_ & _ & _ & _ & N). congruence.
  - rewrite <- (length_map t_row lost), L.
    apply (summary_counts (fun r => Some (Tipo r)) "FHOS").
    + intros r Hr Hq. apply in_map_iff in Hr. destruct Hr as (o & <- & Ho).
      apply negb_true_iff in Hq. destruct (D o Ho Hq) as (-> & _ & _ & -> & _). auto.
    + rewrite <- L. destruct lost; [congruence|discriminate].
  - rewrite <- (length_map t_row lost), L.
    apply (summary_counts (fun r => Some (Subprograma r)) "FHOS genérico").
    + intros r Hr Hq. apply in_map_iff in Hr. destruct Hr as (o & <- & Ho).
      apply negb_true_iff in Hq. destruct (D o Ho Hq) as (_ & -> & _ & -> & _). auto.
    + rewrite <- L. destruct lost; [congruence|discriminate].
Qed.

Lemma unmatched_rows_and_program_summary_witness :
  let rows := Pd.frame_rows
                (process_treatments None scenario_treatments scenario_lookup "D1" min_date) in
  create_program_summary (Pd.Frame rows) =
  create_program_summary
    (Pd.Frame (filter (fun o => matched_b scenario_lookup (source (t_row o))) rows)).
Proof.
  cbv zeta.
  apply (unmatched_rows_and_program_summary
           None scenario_treatments scenario_lookup "D1" min_date).
  reflexivity.
Defined.

Example program_summary_scenario :
  let df := process_treatments None scenario_treatments scenario_lookup "D1" min_date in
  map (fun g => (label g, Cantidad g, PVP_sum g))
      (Pd.frame_rows (create_treatment_summary df)) =
    [("Depilación"%string, 1, 25); ("FHOS"%string, 1, 60)] /\
  map (fun g => (label g, Cantidad g, PVP_sum g))
      (Pd.frame_rows (create_subprogram_summary df)) =
    [("FHOS genérico"%string, 1, 60); ("Piernas"%string, 1, 25)] /\
  map (fun g => (label g, Cantidad g, PVP_sum g))
      (Pd.frame_rows (create_program_summary df)) =
    [("Láser"%string, 1, 25)].
Proof. vm_compute. repeat split. Qed.

(* ===================================================================== *)
(** * Percentages of a summary                                            *)
(* ===================================================================== *)

Section Percentages.
Import Binary64 Binary64Facts PyNum.
Local Open Scope Q_scope.

Lemma RN_err_nonneg (x : Q) :
  0 <= x -> - (x * eps53) <= RN x - x /\ RN x - x <= x * eps53.
Proof.
  intros H. pose proof (RN_err x) as E. rewrite (Qabs_pos x) in E by exact H.
  now apply Qabs_Qle_condition in E.
Qed.

(** One percentage cell: finite, the binary64 number nearest to a number
    of hundredths, and within [percent_slack] of the exact share. *)
Lemma percentage_error (part total : Z) :
  (0 <= part <= total)%Z -> (0 < total < 2 ^ 53)%Z ->
  exists p : Q,
    percentage part total = Some p /\
    (exists h : Z, p = RN (inject_Z h / 100)) /\
    Qabs (p - inject_Z part / inject_Z total * 100) <= percent_slack.
Proof.
  intros [Hp0 Hp1] [Ht0 Ht1]. unfold percentage.
  assert (Z0 : (total =? 0)%Z = false) by (apply Z.eqb_neq; lia). rewrite Z0.
  eexists. split; [reflexivity|]. unfold np_round2. split.
  { eexists. unfold fdiv. reflexivity. }
  pose proof (inject_Z_pos total Ht0) as PT.
  pose proof (inject_Z_nonneg part Hp0) as PP.
  assert (PL : inject_Z part <= inject_Z total) by now rewrite <- Zle_Qle.
  set (v := inject_Z part / inject_Z total).
  assert (Ev : inject_Z part == v * inject_Z total) by (unfold v; field; lra).
  assert (Hv : 0 <= v <= 1) by (split; nra).
  assert (E1 : fdiv (RN (inject_Z part)) (RN (inject_Z total)) == RN v).
  { unfold fdiv. apply RN_comp. unfold v.
    now rewrite (RN_exact_int part), (RN_exact_int total) by lia. }
  set (x1 := fdiv (RN (inject_Z part)) (RN (inject_Z total))) in *.
  assert (B1 : 0 <= x1 <= 1 /\ - eps53 <= x1 - v <= eps53).
  { rewrite E1. pose proof (RN_err_nonneg v ltac:(lra)) as [? ?].
    pose proof (RN_nonneg v ltac:(lra)).
    assert (RN v <= 1) by (apply (RN_le_int v 1); [reflexivity|change (inject_Z 1) with 1; lra]).
    unfold eps53 in *. repeat split; lra. }
  set (x2 := fmul x1 100).
  assert (B2 : 0 <= x2 <= 100 /\ - (100 * eps53) <= x2 - 100 * x1 <= 100 * eps53).
  { unfold x2, fmul. pose proof (RN_err_nonneg (x1 * 100) ltac:(lra)) as [? ?].
    pose proof (RN_nonneg (x1 * 100) ltac:(lra)).
    assert (RN (x1 * 100) <= 100)
      by (apply (RN_le_int (x1 * 100) 100); [reflexivity|change (inject_Z 100) with 100; lra]).
    unfold eps53 in *. repeat split; lra. }
  set (y := fmul x2 100).
  assert (B3 : 0 <= y <= 10000 /\ - (10000 * eps53) <= y - 100 * x2 <= 10000 * eps53).
  { unfold y, fmul. pose proof (RN_err_nonneg (x2 * 100) ltac:(lra)) as [? ?].
    pose proof (RN_nonneg (x2 * 100) ltac:(lra)).
    assert (RN (x2 * 100) <= 10000)
      by (apply (RN_le_int (x2 * 100) 10000);
          [reflexivity|change (inject_Z 10000) with 10000; lra]).
    unfold eps53 in *. repeat split; lra. }
  pose proof (rint_near y) as R. apply Qabs_Qle_condition in R.
  assert (R0 : 0 <= inject_Z (rint y) <= 10000).
  { split.
    - change 0 with (inject_Z 0). rewrite <- Zle_Qle. apply rint_ge. change (inject_Z 0) with 0. lra.
    - change 10000 with (inject_Z 10000). rewrite <- Zle_Qle. apply rint_le.
      change (inject_Z 10000) with 10000. lra. }
  set (r := inject_Z (rint y)) in *.
  set (h := r * (1 # 100)).
  assert (Eh : fdiv r 100 == RN h).
  { unfold fdiv. apply RN_comp. unfold h. field. }
  rewrite Eh. pose proof (RN_err_nonneg h ltac:(unfold h; lra)) as [? ?].
  unfold percent_slack. apply Qabs_Qle_condition.
  fold v. unfold h, eps53 in *. split; lra.
Qed.

Lemma sum_percent_some (ps : list Q) : exists s, sum_percent (map Some ps) = Some s /\ s == Qsum ps.
Proof.
  induction ps as [|p ps (s & E & Es)]; cbn.
  - now exists 0.
  - rewrite E. cbn. exists (p + s). split; [reflexivity|]. now rewrite Es.
Qed.

(** Shares of a total add up to 100. *)
Lemma Qsum_shares (total : Z) (parts : list Z) :
  ~ inject_Z total == 0 ->
  Qsum (map (fun c => inject_Z c / inject_Z total * 100) parts) ==
  inject_Z (Zsum parts) / inject_Z total * 100.
Proof.
  intros H. induction parts as [|c parts IH].
  - cbn. field. exact H.
  - cbn [map Qsum]. rewrite IH, Zsum_cons, inject_Z_plus. field. exact H.
Qed.

Lemma Qsum_error (ps es : list Q) (slack : Q) :
  Forall2 (fun p e => Qabs (p - e) <= slack) ps es ->
  Qabs (Qsum ps - Qsum es) <= inject_Z (Z.of_nat (List.length ps)) * slack.
Proof.
  induction 1 as [|p e ps es H F IH].
  - change (Qabs (0 - 0) <= 0 * slack). apply Qabs_Qle_condition. split; lra.
  - cbn [Qsum List.length]. rewrite Nat2Z.inj_succ. unfold Z.succ. rewrite inject_Z_plus.
    change (inject_Z 1) with 1.
    apply Qabs_Qle_condition in H, IH. apply Qabs_Qle_condition. split; lra.
Qed.

Lemma percentage_cells (total : Z) (l : list Z) :
  (forall c, In c l ->
     exists p, percentage c total = Some p /\
               (exists h : Z, p = RN (inject_Z h / 100)) /\
               Qabs (p - inject_Z c / inject_Z total * 100) <= percent_slack) ->
  exists ps,
    map (fun c => percentage c total) l = map Some ps /\
    Forall (fun p => exists h : Z, p = RN (inject_Z h / 100)) ps /\
    Forall2 (fun p e => Qabs (p - e) <= percent_slack) ps
            (map (fun c => inject_Z c / inject_Z total * 100) l).
Proof.
  induction l as [|c l IH]; intros P.
  - exists []. repeat split; constructor.
  - destruct (P c (or_introl eq_refl)) as (p & Ep & Hp & Bp).
    destruct (IH (fun c' Hc' => P c' (or_intror Hc'))) as (ps & Eps & Hps & Bps).
    exists (p :: ps). cbn [map]. rewrite Ep, Eps. repeat split; constructor; assumption.
Qed.

(** The percentage column computed from a column of non-negative parts. *)
Lemma percentage_column (parts : list Z) :
  parts <> [] ->
  Forall (fun c => (0 <= c)%Z) parts ->
  (0 < Zsum parts < 2 ^ 53)%Z ->
  exists ps : list Q,
    map (fun c => percentage c (Zsum parts)) parts = map Some ps /\
    Forall (fun p => exists h : Z, p = RN (inject_Z h / 100)) ps /\
    exists s, sum_percent (map Some ps) = Some s /\
              Qabs (s - 100) <= inject_Z (Z.of_nat (List.length parts)) * percent_slack.
Proof.
  intros N F T. set (total := Zsum parts) in *.
  assert (P : forall c, In c parts ->
                exists p, percentage c total = Some p /\
                          (exists h : Z, p = RN (inject_Z h / 100)) /\
                          Qabs (p - inject_Z c / inject_Z total * 100) <= percent_slack).
  { intros c Hc. apply percentage_error; [|exact T].
    split; [|exact (Zsum_member c parts F Hc)].
    rewrite Forall_forall in F. now apply F. }
  pose proof (percentage_cells total parts P) as X.
  destruct X as (ps & Eps & Hps & Bps). exists ps. split; [exact Eps|]. split; [exact Hps|].
  destruct (sum_percent_some ps) as (s & Es & Qs). exists s. split; [exact Es|].
  pose proof (Qsum_error _ _ _ Bps) as B.
  assert (NZ : ~ inject_Z total == 0).
  { pose proof (inject_Z_pos total ltac:(lia)). lra. }
  rewrite (Qsum_shares total parts NZ) in B. fold total in B.
  assert (E100 : inject_Z total / inject_Z total * 100 == 100) by (field; exact NZ).
  rewrite E100, <- Qs in B.
  assert (Len : List.length ps = List.length parts).
  { apply (f_equal (@List.length _)) in Eps. now rewrite !length_map in Eps. }
  now rewrite Len in B.
Qed.

End Percentages.

Section PercentClaims.
Import Binary64 Binary64Facts PyNum.
Local Open Scope Q_scope.

Lemma map_some_forall {A : Type} (f : A -> option Q) (P : Q -> Prop) (l : list A) (ps : list Q) :
  map f l = map Some ps -> Forall P ps ->
  Forall (fun x => exists p, f x = Some p /\ P p) l.
Proof.
  revert ps. induction l as [|a l IH]; intros ps E F; [constructor|].
  destruct ps as [|p ps]; [discriminate|]. cbn in E. injection E as Ea El.
  inversion F; subst. constructor; [eauto|]. now apply (IH ps).
Qed.

Lemma few_groups_within_tenth (len : nat) (s : Q) :
  Qabs (s - 100) <= inject_Z (Z.of_nat len) * percent_slack ->
  (len <= 19)%nat -> Qabs (s - 100) <= 1 # 10.
Proof.
  intros B L.
  assert (I : inject_Z (Z.of_nat len) <= 19).
  { change 19 with (inject_Z 19). rewrite <- Zle_Qle. lia. }
  assert (I0 : 0 <= inject_Z (Z.of_nat len)) by (apply inject_Z_nonneg; lia).
  unfold percent_slack in B.
  apply Qabs_Qle_condition in B. apply Qabs_Qle_condition. split; lra.
Qed.

Lemma resumen_counts_positive (key : joined -> option string) (rows : list treatment_out) :
  Forall (fun c => (1 <= c)%Z) (map g_Cantidad (resumen_of key rows)).
Proof.
  rewrite Forall_map. apply Forall_forall. intros g Hg.
  apply in_resumen_of, in_groupby_agg in Hg. now destruct Hg as (_ & _ & _ & ?).
Qed.

End PercentClaims.

(** C5, counterexample.  Thirty-one treatment types with one treatment
    each: every share is 100/31 = 3.2258..., every percentage is 3.23, and
    the column adds up to 100.13. *)
Lemma percentages_total_100_fails :
  ~ percentages_total_100 (Pd.frame_rows (create_treatment_summary thirty_one_types)).
Proof.
  intros H. destruct H as [(s & E & B) _]; [discriminate|].
  vm_compute in E. injection E as <-.
  apply Qle_bool_iff in B. vm_compute in B. discriminate.
Qed.

(** C5, as amended.  In a non-empty summary, of any dimension, with fewer
    than 2^53 treatments: every percentage of count is finite and is the
    binary64 number nearest to a number with two decimals; the column adds up
    to 100 within [n * 0.005000000001], where [n] is the number of rows of
    the summary, hence within 0.1 when the summary has at most 19 rows.  The
    same holds for the percentage of revenue when no group has a negative
    revenue and the total revenue is positive and below 2^53. *)
Theorem summary_percentages_near_100
    (key : joined -> option string) (df : Pd.DataFrame treatment_out) :
  let summary := Pd.frame_rows (create_summary key df) in
  let n := inject_Z (Z.of_nat (List.length summary)) in
  summary <> [] ->
  Zsum (map Cantidad summary) < 2 ^ 53 ->
  (Forall (fun g => exists p, pct_tratamientos g = Some p /\
                              exists h : Z, p = Binary64.RN (inject_Z h / 100)) summary /\
   exists s, sum_percent (map pct_tratamientos summary) = Some s /\
             (Qabs (s - 100) <= n * percent_slack)%Q /\
             ((List.length summary <= 19)%nat -> (Qabs (s - 100) <= 1 # 10)%Q)) /\
  (Forall (fun g => 0 <= PVP_sum g) summary ->
   0 < Zsum (map PVP_sum summary) < 2 ^ 53 ->
   Forall (fun g => exists p, pct_ingresos g = Some p /\
                              exists h : Z, p = Binary64.RN (inject_Z h / 100)) summary /\
   exists s, sum_percent (map pct_ingresos summary) = Some s /\
             (Qabs (s - 100) <= n * percent_slack)%Q /\
             ((List.length summary <= 19)%nat -> (Qabs (s - 100) <= 1 # 10)%Q)).
Proof.
  destruct df as [rows|]; [|intros ? ? N; now contradiction N].
  rewrite create_summary_rows. cbn [Pd.frame_rows]. cbv zeta.
  set (R := resumen_of key rows).
  rewrite !map_map, length_map. cbn [Cantidad PVP_sum pct_tratamientos pct_ingresos].
  intros N T.
  assert (NR : R <> []) by (intros E; apply N; now rewrite E).
  assert (LC : List.length (map g_Cantidad R) = List.length R) by apply length_map.
  assert (LP : List.length (map g_PVP R) = List.length R) by apply length_map.
  split.
  - pose proof (resumen_counts_positive key rows) as C1. fold R in C1.
    destruct (percentage_column (map g_Cantidad R)) as (ps & Eps & Hps & s & Es & Bs).
    + destruct R; [congruence|discriminate].
    + eapply Forall_impl; [|exact C1]. cbn. intros; lia.
    + split; [|exact T]. destruct R as [|g R']; [congruence|].
      inversion C1; subst. pose proof (Zsum_nonneg (map g_Cantidad R')) as Z0.
      rewrite map_cons, Zsum_cons.
      assert (0 <= Zsum (map g_Cantidad R'))%Z; [|lia].
      apply Z0. eapply Forall_impl; [|eassumption]. cbn. intros; lia.
    + rewrite map_map in Eps. split.
      * rewrite Forall_map. cbn [pct_tratamientos].
        exact (map_some_forall _ _ _ _ Eps Hps).
      * exists s. rewrite Eps. rewrite LC in Bs. repeat split; try assumption.
        now apply few_groups_within_tenth.
  - intros F TP. rewrite Forall_map in F. cbn [PVP_sum] in F.
    destruct (percentage_column (map g_PVP R)) as (ps & Eps & Hps & s & Es & Bs).
    + destruct R; [congruence|discriminate].
    + now rewrite Forall_map.
    + exact TP.
    + rewrite map_map in Eps. split.
      * rewrite Forall_map. cbn [pct_ingresos].
        exact (map_some_forall _ _ _ _ Eps Hps).
      * exists s. rewrite Eps. rewrite LP in Bs. repeat split; try assumption.
        now apply few_groups_within_tenth.
Qed.

Lemma summary_percentages_near_100_witness :
  let summary :=
    Pd.frame_rows
      (create_summary (fun r => Some (Tipo r))
         (process_treatments None scenario_treatments scenario_lookup "D1" min_date)) in
  exists s, sum_percent (map pct_tratamientos summary) = Some s /\
            (Qabs (s - 100) <= 1 # 10)%Q.
Proof.
  cbv zeta.
  destruct (summary_percentages_near_100
              (fun r => Some (Tipo r))
              (process_treatments None scenario_treatments scenario_lookup "D1" min_date))
    as [(_ & s & E & _ & B) _].
  - vm_compute. discriminate.
  - vm_compute. reflexivity.
  - exists s. split; [exact E|]. apply B. vm_compute. lia.
Defined.

Example percentages_scenario :
  let df := process_treatments None scenario_treatments scenario_lookup "D1" min_date in
  map (fun g => (label g, pct_tratamientos g, pct_ingresos g))
      (Pd.frame_rows (create_treatment_summary df)) =
  [("Depilación"%string, Some 50%Q, Some (Binary64.RN (2941 # 100)));
   ("FHOS"%string, Some 50%Q, Some (Binary64.RN (7059 # 100)))].
Proof. vm_compute. reflexivity. Qed.

(* ===================================================================== *)
(** * Further properties: normaliser and service life                     *)
(* ===================================================================== *)

Section NormaliserFacts.
Import Binary64 Binary64Facts PyNum.
Local Open Scope Q_scope.

(** A value closer than one half to an integer rounds to it. *)
Lemma rint_close (x : Q) (n : Z) :
  - (1 # 2) < x - inject_Z n -> x - inject_Z n < 1 # 2 -> rint x = n.
Proof.
  intros L U. pose proof (rint_near x) as R. apply Qabs_Qle_condition in R.
  assert (B : inject_Z (n - 1) < inject_Z (rint x) /\ inject_Z (rint x) < inject_Z (n + 1)).
  { unfold Zminus. rewrite !inject_Z_plus. change (inject_Z (- (1))) with (- (1)).
    change (inject_Z 1) with 1. split; lra. }
  destruct B as [B1 B2]. rewrite <- Zlt_Qlt in B1, B2. lia.
Qed.

End NormaliserFacts.

(** [round(raw / 3)] in binary64 is the quotient of [raw + 1] by 3. *)
Lemma round_third (raw : Z) :
  0 <= raw < 2 ^ 52 -> normalize_pulse raw = (raw + 1) / 3.
Proof.
  intros [H0 H1]. unfold normalize_pulse, PyNum.np_round0, Binary64.fdiv.
  set (n := (raw + 1) / 3).
  pose proof (Z.div_mod (raw + 1) 3 ltac:(lia)) as D.
  pose proof (Z.mod_pos_bound (raw + 1) 3 ltac:(lia)) as M. fold n in D.
  assert (E : (Binary64.RN (Binary64.RN (inject_Z raw) / 3) ==
               Binary64.RN (inject_Z raw * (1 # 3)))%Q).
  { apply Binary64Facts.RN_comp. rewrite (Binary64Facts.RN_exact_int raw) by lia. field. }
  rewrite (Binary64Facts.rint_comp _ _ E).
  set (v := (inject_Z raw * (1 # 3))%Q).
  assert (P0 : (0 <= inject_Z raw)%Q) by (apply inject_Z_nonneg; lia).
  assert (P1 : (inject_Z raw <= 4503599627370495)%Q).
  { change 4503599627370495%Q with (inject_Z (2 ^ 52 - 1)). rewrite <- Zle_Qle. lia. }
  assert (Lo : (inject_Z (3 * n - 1) <= inject_Z raw)%Q) by (rewrite <- Zle_Qle; lia).
  assert (Hi : (inject_Z raw <= inject_Z (3 * n + 1))%Q) by (rewrite <- Zle_Qle; lia).
  unfold Zminus in Lo. rewrite inject_Z_plus, inject_Z_mult in Lo, Hi.
  change (inject_Z 3) with 3%Q in Lo, Hi. change (inject_Z 1) with 1%Q in Hi.
  change (inject_Z (- (1))) with (- (1))%Q in Lo.
  destruct (RN_err_nonneg v ltac:(unfold v; lra)) as [E1 E2].
  unfold Binary64.eps53 in E1, E2.
  apply rint_close; unfold v in *; lra.
Qed.

(** X1.  The rescaled pulse counter.  For a raw count from 0 up to 2^52,
    [round(raw / 3)] computed in binary64 is the integer nearest to raw/3,
    which is the integer quotient of [raw + 1] by 3: a third never lies half
    way between two integers, so the ties-to-even rule never decides and the
    rounding error of the division is too small to matter. *)
Theorem normalize_pulse_nearest (raw : Z) :
  0 <= raw < 2 ^ 52 ->
  normalize_pulse raw = (raw + 1) / 3 /\
  3 * normalize_pulse raw - 1 <= raw <= 3 * normalize_pulse raw + 1.
Proof.
  intros H. rewrite (round_third raw H). split; [reflexivity|].
  pose proof (Z.div_mod (raw + 1) 3 ltac:(lia)) as D.
  pose proof (Z.mod_pos_bound (raw + 1) 3 ltac:(lia)) as M. lia.
Qed.

Lemma normalize_pulse_nearest_witness :
  normalize_pulse 301 = (301 + 1) / 3 /\
  3 * normalize_pulse 301 - 1 <= 301 <= 3 * normalize_pulse 301 + 1.
Proof. apply normalize_pulse_nearest. lia. Defined.

Section ServiceLifeSentinels.
Import PyNum.

Lemma lacks_percent_format (s : string) : lacks "%" (s ++ "%") = false.
Proof.
  rewrite lacks_app. change (lacks "%" "%") with false. apply andb_false_r.
Qed.

Lemma vida_string_has_percent (k : Z) : lacks "%" (vida_string k) = false.
Proof.
  unfold vida_string. destruct (k <=? 0); [reflexivity|apply lacks_percent_format].
Qed.

(** The text of a classified row or of a failed row is never the
    sentinel of unidentified handpieces. *)
Lemma calculate_vida_util_unidentified (row : usage_row) (id : Py.value) :
  calculate_vida_util row id = UNIDENTIFIED <-> classify_handpiece id = UNIDENTIFIED.
Proof.
  rewrite classify_unidentified_iff. unfold calculate_vida_util.
  destruct (Py.re_search_cd "1" (Py.str id)) eqn:H1.
  - split; [|intros [? _]; discriminate].
    destruct (_ <=? 0); [discriminate|].
    destruct (int_truediv _ _); [|discriminate].
    intros E. apply (f_equal (lacks "%")) in E. rewrite lacks_percent_format in E. discriminate.
  - destruct (Py.re_search_cd "2" (Py.str id)) eqn:H2.
    + split; [|intros [_ ?]; discriminate].
      destruct (float_of_int _); [|discriminate].
      destruct (float_of_int _); [|discriminate].
      destruct (Qle_bool _ 0); [discriminate|].
      intros E. apply (f_equal (lacks "%")) in E. rewrite lacks_percent_format in E.
      discriminate.
    + split; auto.
Qed.

End ServiceLifeSentinels.

(** X2.  In a prepared handpiece row the class label and the service-life
    text agree on unidentified handpieces: the text is
    "Manguera_no_identificada" exactly when the label is, whatever the
    counters hold. *)
Theorem unidentified_label_and_text_agree (r : raw_handpiece) :
  vida_util (prepare_handpiece r) = UNIDENTIFIED <->
  tipo_manipulo (prepare_handpiece r) = UNIDENTIFIED.
Proof. cbn [prepare_handpiece vida_util tipo_manipulo]. apply calculate_vida_util_unidentified. Qed.

(** X3.  A raw row whose counters are non-negative, with a pulse count
    below 2^52 and the other counts below 2^63, never gets the "Error" text:
    the rescaled counters are in range, no conversion overflows, and the text
    is "Manguera_no_identificada", "0%" or a number followed by "%". *)
Theorem prepared_row_never_errors (r : raw_handpiece) :
  0 <= pulse_count r < 2 ^ 52 -> 0 <= burst_count r < 2 ^ 63 ->
  0 <= activation_count r < 2 ^ 63 -> 0 <= modulation_count r < 2 ^ 63 ->
  counter_range (counters (prepare_handpiece r)) /\
  vida_util (prepare_handpiece r) <> vida_error /\
  (vida_util (prepare_handpiece r) = UNIDENTIFIED \/
   exists t, 0 <= t <= 1000 /\ read_percent (vida_util (prepare_handpiece r)) = Some t).
Proof.
  intros Hp Hb Ha Hm. cbn [prepare_handpiece counters vida_util].
  assert (R : counter_range (normalize_usage r)).
  { unfold counter_range, normalize_usage. cbn [pulso rafaga activacion modulacion].
    rewrite round_third by exact Hp.
    pose proof (Z.div_pos (pulse_count r + 1) 3 ltac:(lia) ltac:(lia)).
    pose proof (Z.div_lt_upper_bound (pulse_count r + 1) 3 (2 ^ 63) ltac:(lia) ltac:(lia)).
    repeat split; lia. }
  split; [exact R|].
  destruct (classify_handpiece (handpiece_id r) =? UNIDENTIFIED)%string eqn:U.
  - apply String.eqb_eq in U.
    apply <- (calculate_vida_util_unidentified (normalize_usage r)) in U. rewrite U.
    split; [discriminate|now left].
  - apply String.eqb_neq in U.
    assert (C : classify_handpiece (handpiece_id r) = MAIN_FUNCTION \/
                classify_handpiece (handpiece_id r) = SECONDARY_FUNCTION).
    { unfold classify_handpiece in *.
      destruct (Py.re_search_cd "2" _); [now right|].
      destruct (Py.re_search_cd "1" _); [now left|congruence]. }
    destruct (vida_util_units _ _ R C) as (c & E & Hc & _). rewrite E. split.
    + intros X. apply (f_equal (lacks "%")) in X.
      rewrite vida_string_has_percent in X. discriminate.
    + right. rewrite read_vida_string by lia. eexists. split; [|reflexivity].
      destruct (4000000 - c <=? 0) eqn:K; [lia|]. apply Z.leb_gt in K.
      now destruct (tenths_of_bounds (4000000 - c) ltac:(lia)) as [? _].
Qed.

Lemma prepared_row_never_errors_witness :
  vida_util (prepare_handpiece
               {| din := "D1"; handpiece_id := Py.Int 4027; serial_number := "S-2";
                  created_at := None; pulse_count := 7000; burst_count := 12;
                  activation_count := 3; modulation_count := 4 |}) <> vida_error.
Proof.
  refine (proj1 (proj2 (prepared_row_never_errors _ _ _ _ _))); cbn; lia.
Defined.

(* ===================================================================== *)
(** * Further properties: the pipeline and the joiner                     *)
(* ===================================================================== *)

Section PipelineFacts.

Lemma process_treatments_zoned
    (col_tz : option Pd.tzinfo) (treatments_df : list treatment)
    (treatments_id_df : list treatment_id) (device : string) (cutoff : Pd.Timestamp) :
  process_treatments col_tz treatments_df treatments_id_df device (normalize_cutoff cutoff) =
  Pd.Frame
    (map (fun vr => {| reported_at := {| Pd.value := fst vr;
                                         Pd.tz := Some (match col_tz with
                                                        | None => Pd.UTC
                                                        | Some z => z
                                                        end) |};
                       t_row := snd vr |})
         (on_or_after (fun j => reported_at_ns (source j)) (Pd.value cutoff)
            (filter (fun j => String.eqb (t_din (source j)) device)
               (merge_and_fill treatments_df treatments_id_df)))).
Proof.
  destruct (normalize_cutoff_zoned cutoff) as [Ev [z Ez]].
  unfold process_treatments. now rewrite Ez, Ev.
Qed.

Lemma on_or_after_rows_b {R : Type} (stamp : R -> option Z) (cutoff : Z) (l : list R) :
  map snd (on_or_after stamp cutoff l) = filter (fun r => on_or_after_b cutoff (stamp r)) l.
Proof. apply on_or_after_rows. Qed.

Lemma device_rows (device : string) (handpiece_df : list raw_handpiece) :
  filter (fun h => String.eqb (h_din h) device) (map prepare_handpiece handpiece_df) =
  map prepare_handpiece (filter (fun r => String.eqb (din r) device) handpiece_df).
Proof. now rewrite (filter_map_swap prepare_handpiece). Qed.

Lemma within_reach_prepared (today cutoff : Z) (l : list raw_handpiece) :
  within_reach fecha_uso_ns today cutoff (map prepare_handpiece l) <->
  within_reach created_at today cutoff l.
Proof.
  unfold within_reach. split; intros H r v I E C.
  - apply (H (prepare_handpiece r) v); [now apply in_map|exact E|exact C].
  - apply in_map_iff in I. destruct I as (r0 & <- & I). exact (H r0 v I E C).
Qed.

End PipelineFacts.

(** X4.  On tables that have their columns and parsed timestamps,
    [process_data] reads the clock exactly once and always returns a proper
    treatment table, whether the cut-off is naive or zoned: it is localised
    to UTC before either filter compares it.  The handpiece table is a
    proper table exactly when every row of the device on or after the
    cut-off is within reach of the clock; when one is not, the subtraction
    overflows and the handpiece table is the column-less frame of the error
    branch, while the treatments are still processed. *)
Theorem process_data_failure_cases
    (created_tz : option Pd.tzinfo) (handpiece_df : list raw_handpiece)
    (reported_tz : option Pd.tzinfo) (treatments_df : list treatment)
    (treatments_id_df : list treatment_id)
    (device : string) (cutoff : Pd.Timestamp) (w : Pd.World) :
  let today := Pd.clock w (Pd.reads w) in
  let mine := filter (fun r => String.eqb (din r) device) handpiece_df in
  let result := process_data created_tz handpiece_df reported_tz treatments_df
                             treatments_id_df device cutoff w in
  snd result = {| Pd.clock := Pd.clock w; Pd.reads := S (Pd.reads w) |} /\
  (exists treatments, snd (fst result) = Pd.Frame treatments) /\
  ((exists handpieces, fst (fst result) = Pd.Frame handpieces) <->
   within_reach created_at today (Pd.value cutoff) mine) /\
  (fst (fst result) = Pd.NoColumns <->
   ~ within_reach created_at today (Pd.value cutoff) mine).
Proof.
  cbv zeta. unfold process_data.
  rewrite process_handpiece_dates_zoned, process_treatments_zoned, device_rows.
  set (mine := filter (fun r => String.eqb (din r) device) handpiece_df).
  destruct (Pd.Series_apply _ _) as [out|] eqn:E; cbn [fst snd].
  - pose proof (labels_within_reach _ _ _ _ out E) as R. apply within_reach_prepared in R.
    split; [reflexivity|]. split; [eexists; reflexivity|]. split.
    + split; [intros _; exact R|intros _; now exists out].
    + split; [discriminate|intros N; now destruct (N R)].
  - assert (N : ~ within_reach created_at (Pd.clock w (Pd.reads w)) (Pd.value cutoff) mine).
    { intros R. apply within_reach_prepared in R.
      destruct (within_reach_labels created_tz _ cutoff w R) as (out & E'). congruence. }
    split; [reflexivity|]. split; [eexists; reflexivity|]. split.
    + split; [intros (h & H); discriminate H|intros R; now destruct (N R)].
    + split; [intros _; exact N|reflexivity].
Qed.

(** X5.  When every row of the device on or after the cut-off is within
    reach of the clock, the handpiece table of [process_data] holds exactly
    the rows of the requested device whose timestamp is on or after the
    cut-off, each prepared from its raw row (rescaled pulses, class label,
    service life); rows of other devices and rows without a timestamp never
    appear. *)
Theorem process_data_handpieces
    (created_tz : option Pd.tzinfo) (handpiece_df : list raw_handpiece)
    (reported_tz : option Pd.tzinfo) (treatments_df : list treatment)
    (treatments_id_df : list treatment_id)
    (device : string) (cutoff : Pd.Timestamp) (w : Pd.World) :
  within_reach created_at (Pd.clock w (Pd.reads w)) (Pd.value cutoff)
               (filter (fun r => String.eqb (din r) device) handpiece_df) ->
  exists out,
    fst (fst (process_data created_tz handpiece_df reported_tz treatments_df
                           treatments_id_df device cutoff w)) = Pd.Frame out /\
    Permutation
      (map h_row out)
      (map prepare_handpiece
           (filter (fun r => String.eqb (din r) device &&
                             on_or_after_b (Pd.value cutoff) (created_at r))
                   handpiece_df)) /\
    Forall (fun o => h_din (h_row o) = device /\
                     fecha_uso_ns (h_row o) = Some (Pd.value (fecha_uso o)) /\
                     Pd.value cutoff <= Pd.value (fecha_uso o)) out.
Proof.
  intros R. unfold process_data.
  rewrite process_handpiece_dates_zoned, process_treatments_zoned, device_rows.
  set (mine := filter (fun r => String.eqb (din r) device) handpiece_df) in *.
  apply within_reach_prepared in R.
  destruct (within_reach_labels created_tz _ cutoff w R) as (out & E).
  rewrite E. cbn [fst]. exists out. split; [reflexivity|].
  destruct (labelled_rows created_tz _ cutoff w out E) as (P & F & _ & _).
  split.
  - rewrite P, (filter_map_swap prepare_handpiece). unfold mine. rewrite filter_filter.
    reflexivity.
  - eapply Forall_impl; [|exact F]. cbv beta. intros o (S & _ & C & I).
    apply in_map_iff in I. destruct I as (r & Er & I).
    apply filter_In in I. destruct I as [_ D]. apply String.eqb_eq in D.
    rewrite <- Er. cbn [prepare_handpiece h_din]. rewrite <- Er in S.
    repeat split; assumption.
Qed.

Lemma process_data_handpieces_witness :
  let row n t := {| din := "D1"; handpiece_id := Py.Str "FH-0019"; serial_number := "S-1";
                    created_at := Some t;
                    pulse_count := n; burst_count := 0;
                    activation_count := 0; modulation_count := 0 |} in
  let w := {| Pd.clock := fun _ => 1700000000000000000; Pd.reads := 0 |} in
  exists out,
    fst (fst (process_data None [row 300 1690000000000000000; row 900 1600000000000000000]
                           None [] [] "D1" min_date w)) = Pd.Frame out /\
    Permutation (map h_row out) [prepare_handpiece (row 300 1690000000000000000)] /\
    Forall (fun o => h_din (h_row o) = "D1"%string /\
                     fecha_uso_ns (h_row o) = Some (Pd.value (fecha_uso o)) /\
                     Pd.value min_date <= Pd.value (fecha_uso o)) out.
Proof.
  cbv zeta. refine (process_data_handpieces None _ None [] [] "D1" min_date _ _).
  intros r v I E _. cbn in I. destruct I as [<-|[<-|[]]]; injection E as <-; vm_compute;
    split; reflexivity.
Defined.

(** X6.  The treatment table is not sorted: on a zoned cut-off it holds the
    joined rows of the requested device reported on or after the cut-off, in
    the order of the input table, each with its own timestamp.  A naive
    cut-off makes the comparison fail and gives the column-less frame. *)
Theorem process_treatments_keeps_order
    (col_tz : option Pd.tzinfo) (treatments_df : list treatment)
    (treatments_id_df : list treatment_id) (device : string) (cutoff : Pd.Timestamp) :
  (Pd.tz cutoff <> None ->
   exists rows,
     process_treatments col_tz treatments_df treatments_id_df device cutoff = Pd.Frame rows /\
     map t_row rows =
       filter (fun j => String.eqb (t_din (source j)) device &&
                        on_or_after_b (Pd.value cutoff) (reported_at_ns (source j)))
              (merge_and_fill treatments_df treatments_id_df) /\
     Forall (fun o => reported_at_ns (source (t_row o)) = Some (Pd.value (reported_at o)))
            rows) /\
  (Pd.tz cutoff = None ->
   process_treatments col_tz treatments_df treatments_id_df device cutoff = Pd.NoColumns).
Proof.
  unfold process_treatments. split.
  - destruct (Pd.tz cutoff) as [z|]; [intros _|congruence].
    eexists. split; [reflexivity|]. split.
    + rewrite map_map. cbn [t_row]. rewrite on_or_after_rows_b. apply filter_filter.
    + rewrite Forall_map. cbn [t_row reported_at Pd.value].
      apply (on_or_after_stamp (fun j => reported_at_ns (source j))).
  - now intros ->.
Qed.

Section JoinCounts.
Variable treatments_id_df : list treatment_id.

Lemma unique_match (t : treatment) :
  NoDup (map Treatment_ID treatments_id_df) ->
  (List.length (matches_of treatments_id_df t) <= 1)%nat.
Proof.
  unfold matches_of. induction treatments_id_df as [|r l IH]; cbn; [lia|].
  intros N. inversion N as [|? ? Hr Hl]; subst.
  destruct (String.eqb (code t) (Treatment_ID r)) eqn:E; [|now apply IH].
  apply String.eqb_eq in E. cbn.
  assert (Z : filter (fun r0 => String.eqb (code t) (Treatment_ID r0)) l = []).
  { destruct (filter _ l) as [|x rest] eqn:F; [reflexivity|exfalso].
    assert (I : In x (x :: rest)) by now left. rewrite <- F in I.
    apply filter_In in I. destruct I as [I Hx]. apply String.eqb_eq in Hx.
    apply Hr. rewrite <- E, Hx. now apply in_map. }
  rewrite Z. cbn. lia.
Qed.

Lemma length_merge_row (t : treatment) :
  List.length (merge_row treatments_id_df t) =
  Nat.max 1 (List.length (matches_of treatments_id_df t)).
Proof.
  unfold merge_row. destruct (matches_of treatments_id_df t) as [|r ms]; [reflexivity|].
  rewrite length_map. cbn [List.length]. lia.
Qed.

Lemma merge_row_single (t : treatment) :
  (List.length (matches_of treatments_id_df t) <= 1)%nat ->
  map m_left (merge_row treatments_id_df t) = [t].
Proof.
  unfold merge_row. destruct (matches_of treatments_id_df t) as [|r [|r' ms]]; cbn; try reflexivity.
  lia.
Qed.

End JoinCounts.

(** X7.  When no treatment code occurs twice in the lookup table, the join
    is one to one: the joined table has the treatments of the input table,
    once each and in the same order. *)
Theorem merge_one_to_one (treatments_df : list treatment) (treatments_id_df : list treatment_id) :
  NoDup (map Treatment_ID treatments_id_df) ->
  map source (merge_and_fill treatments_df treatments_id_df) = treatments_df.
Proof.
  intros N. unfold merge_and_fill, merge_left. rewrite map_map.
  change (map m_left (flat_map (merge_row treatments_id_df) treatments_df) = treatments_df).
  induction treatments_df as [|t l IH]; [reflexivity|].
  cbn [flat_map]. rewrite map_app, IH.
  now rewrite (merge_row_single treatments_id_df t (unique_match treatments_id_df t N)).
Qed.

Lemma merge_one_to_one_witness :
  map source (merge_and_fill scenario_treatments scenario_lookup) = scenario_treatments.
Proof.
  apply merge_one_to_one. repeat constructor. intros [].
Defined.

(** X8.  A treatment whose code has several rows in the lookup table is
    repeated, once for each of them: the joined table has, for every
    treatment, as many rows as the lookup table has rows with its code, and
    one row when it has none. *)
Theorem merge_row_count (treatments_df : list treatment) (treatments_id_df : list treatment_id) :
  List.length (merge_and_fill treatments_df treatments_id_df) =
  list_sum (map (fun t => Nat.max 1 (List.length (matches_of treatments_id_df t)))
                treatments_df).
Proof.
  unfold merge_and_fill, merge_left. rewrite length_map.
  induction treatments_df as [|t l IH]; [reflexivity|].
  cbn [flat_map map list_sum]. now rewrite length_app, IH, length_merge_row.
Qed.

(* ===================================================================== *)
(** * Further properties: the status column                               *)
(* ===================================================================== *)

Section StatusOrder.

Lemma StronglySorted_weaken {A : Type} (R S : A -> A -> Prop) (l : list A) :
  (forall a b, R a b -> S a b) -> StronglySorted R l -> StronglySorted S l.
Proof.
  intros H. induction 1 as [|a l St IH F]; constructor; [exact IH|].
  eapply Forall_impl; [|exact F]. intros b. apply H.
Qed.

Lemma StronglySorted_on {A : Type} (P : A -> Prop) (R S : A -> A -> Prop) (l : list A) :
  (forall a b, P a -> P b -> R a b -> S a b) ->
  Forall P l -> StronglySorted R l -> StronglySorted S l.
Proof.
  intros H F. induction 1 as [|a l St IH Fa]; [constructor|].
  inversion F as [|? ? Pa Fl]; subst. constructor; [now apply IH|].
  rewrite Forall_forall in Fa, Fl |- *. intros b Hb. apply H; auto.
Qed.

End StatusOrder.

(** X27.  The status column comes in two blocks.  Every row is ACTIVO or
    INACTIVO, and since the rows are sorted from the latest to the earliest
    timestamp and all compared with one clock reading, no ACTIVO row comes
    after an INACTIVO row. *)
Theorem estado_in_two_blocks
    (col_tz : option Pd.tzinfo) (df : list handpiece) (cutoff : Pd.Timestamp) (w : Pd.World) :
  let out := Pd.frame_rows (fst (process_handpiece_dates col_tz df (normalize_cutoff cutoff) w)) in
  Forall (fun o => estado o = ACTIVO \/ estado o = INACTIVO) out /\
  StronglySorted (fun a b => estado a = INACTIVO -> estado b = INACTIVO) out.
Proof.
  cbv zeta. rewrite process_handpiece_dates_zoned.
  destruct (Pd.Series_apply _ _) as [out|] eqn:E; cbn [fst Pd.frame_rows];
    [|split; constructor].
  destruct (labelled_rows col_tz df cutoff w out E) as (_ & _ & S & A). split.
  - eapply Forall_impl; [|exact A]. cbv beta. intros o [Ha Hi].
    destruct (Z_lt_le_dec (Pd.clock w (Pd.reads w) - Pd.value (fecha_uso o))
                          (30 * Pd.ns_per_day)) as [L|L].
    + left. now apply Ha.
    + right. now apply Hi.
  - refine (StronglySorted_on _ _ _ out _ A S). cbv beta.
    intros a b [_ Ia] [_ Ib] L I. apply Ib. apply Ia in I. lia.
Qed.

(* ===================================================================== *)
(** * Further properties: the summaries                                   *)
(* ===================================================================== *)

Section KeyOrder.

Lemma string_lt_trans (a b c : string) : string_lt a b -> string_lt b c -> string_lt a c.
Proof.
  unfold string_lt. intros H1 H2.
  apply String_as_OT.cmp_lt. apply String_as_OT.cmp_lt in H1, H2.
  exact (String_as_OT.lt_trans _ _ _ H1 H2).
Qed.

Lemma string_lt_irrefl (a : string) : ~ string_lt a a.
Proof.
  unfold string_lt. intros H.
  assert (E : String.compare a a = Eq) by now apply String_as_OT.cmp_eq.
  congruence.
Qed.

Lemma insert_key_sorted (k : string) (l : list string) :
  StronglySorted string_lt l -> StronglySorted string_lt (insert_key k l).
Proof.
  induction 1 as [|h t S IH F]; cbn [insert_key].
  - repeat constructor.
  - destruct (String.compare k h) eqn:E.
    + now constructor.
    + constructor; [now constructor|]. constructor; [exact E|].
      eapply Forall_impl; [|exact F]. intros x Hx. now apply (string_lt_trans k h x).
    + constructor; [exact IH|]. apply Forall_forall. intros x Hx.
      apply in_insert_key in Hx. destruct Hx as [->|Hx].
      * unfold string_lt. rewrite String.compare_antisym, E. reflexivity.
      * rewrite Forall_forall in F. now apply F.
Qed.

Lemma group_keys_sorted (key : joined -> option string) (rows : list joined) :
  StronglySorted string_lt (group_keys key rows).
Proof.
  induction rows as [|r rows IH]; [constructor|]. rewrite group_keys_cons.
  destruct (key r); [now apply insert_key_sorted|exact IH].
Qed.

Lemma sorted_NoDup (l : list string) : StronglySorted string_lt l -> NoDup l.
Proof.
  induction 1 as [|h t S IH F]; constructor; [|exact IH].
  intros I. rewrite Forall_forall in F. exact (string_lt_irrefl h (F h I)).
Qed.

Lemma groupby_agg_labels (key : joined -> option string) (rows : list joined) :
  map g_label (groupby_agg key rows) = group_keys key rows.
Proof. unfold groupby_agg. rewrite map_map. cbn [g_label]. apply map_id. Qed.

Lemma summary_labels (key : joined -> option string) (rows : list treatment_out) :
  map label (Pd.frame_rows (create_summary key (Pd.Frame rows))) =
  map g_label (resumen_of key rows).
Proof. rewrite create_summary_rows. cbn [Pd.frame_rows]. now rewrite map_map. Qed.

Lemma summary_counts_column (key : joined -> option string) (rows : list treatment_out) :
  map Cantidad (Pd.frame_rows (create_summary key (Pd.Frame rows))) =
  map g_Cantidad (resumen_of key rows).
Proof. rewrite create_summary_rows. cbn [Pd.frame_rows]. now rewrite map_map. Qed.

Lemma summary_revenue_column (key : joined -> option string) (rows : list treatment_out) :
  map PVP_sum (Pd.frame_rows (create_summary key (Pd.Frame rows))) =
  map g_PVP (resumen_of key rows).
Proof. rewrite create_summary_rows. cbn [Pd.frame_rows]. now rewrite map_map. Qed.

End KeyOrder.

(** X9.  A summary has one row for each value of the grouping column met
    among the first-step rows, and no value twice: the labels are pairwise
    distinct, each is the value of some first-step row, and each value of a
    first-step row is a label. *)
Theorem summary_labels_distinct (key : joined -> option string) (rows : list treatment_out) :
  let summary := Pd.frame_rows (create_summary key (Pd.Frame rows)) in
  NoDup (map label summary) /\
  (forall k, In k (map label summary) <->
             exists r, In r (first_steps rows) /\ key r = Some k).
Proof.
  cbv zeta. rewrite summary_labels. unfold resumen_of.
  assert (P : Permutation (map g_label (Pd.sort_values_desc g_Cantidad
                                          (groupby_agg key (first_steps rows))))
                          (group_keys key (first_steps rows))).
  { rewrite <- groupby_agg_labels. apply Permutation_map, sort_values_desc_perm. }
  split.
  - apply (Permutation_NoDup (Permutation_sym P)), sorted_NoDup, group_keys_sorted.
  - intros k. rewrite <- in_group_keys. split; apply Permutation_in; [exact P|now symmetry].
Qed.

(** X10.  The rows of a summary come in descending order of count, and
    every row counts at least one treatment. *)
Theorem summary_sorted_by_count (key : joined -> option string) (rows : list treatment_out) :
  let summary := Pd.frame_rows (create_summary key (Pd.Frame rows)) in
  StronglySorted (fun a b => Cantidad b <= Cantidad a) summary /\
  Forall (fun g => 1 <= Cantidad g) summary.
Proof.
  cbv zeta. rewrite create_summary_rows. cbn [Pd.frame_rows]. split.
  - apply StronglySorted_map. cbn [Cantidad].
    apply (sort_values_desc_sorted g_Cantidad).
  - rewrite Forall_map. cbn [Cantidad]. apply Forall_forall. intros g Hg.
    apply in_resumen_of, in_groupby_agg in Hg. now destruct Hg as (_ & _ & _ & ?).
Qed.

Section Partition.
Variable key : joined -> option string.
Variable weight : joined -> Z.

Lemma Zsum_map_add {A : Type} (f g : A -> Z) (l : list A) :
  Zsum (map (fun a => f a + g a) l) = Zsum (map f l) + Zsum (map g l).
Proof. induction l as [|a l IH]; [reflexivity|]. cbn [map]. rewrite !Zsum_cons, IH. lia. Qed.

Lemma Zsum_map_zero {A : Type} (f : A -> Z) (l : list A) :
  (forall a, In a l -> f a = 0) -> Zsum (map f l) = 0.
Proof.
  induction l as [|a l IH]; intros H; [reflexivity|]. cbn [map]. rewrite Zsum_cons.
  rewrite (H a (or_introl eq_refl)), IH; [reflexivity|]. intros b Hb. apply H. now right.
Qed.

(** Among distinct keys exactly one is the key of a keyed row. *)
Lemma one_group_per_row (r : joined) (k0 : string) (K : list string) :
  key r = Some k0 -> NoDup K -> In k0 K ->
  Zsum (map (fun k => if has_key key k r then weight r else 0) K) = weight r.
Proof.
  intros E N. induction N as [|k K Hk N IH]; [intros []|].
  cbn [map]. rewrite Zsum_cons. unfold has_key at 1. rewrite E.
  intros [->|I].
  - rewrite String.eqb_refl. rewrite Zsum_map_zero; [lia|].
    intros k Hk'. unfold has_key. rewrite E.
    destruct (String.eqb k0 k) eqn:Q; [|reflexivity].
    apply String.eqb_eq in Q. subst. contradiction.
  - destruct (String.eqb k0 k) eqn:Q.
    + apply String.eqb_eq in Q. subst. contradiction.
    + rewrite (IH I). lia.
Qed.

Lemma no_group_for_unkeyed (r : joined) (K : list string) :
  key r = None -> Zsum (map (fun k => if has_key key k r then weight r else 0) K) = 0.
Proof.
  intros E. apply Zsum_map_zero. intros k _. unfold has_key. now rewrite E.
Qed.

Lemma members_weight_cons (k : string) (r : joined) (rows : list joined) :
  Zsum (map weight (filter (has_key key k) (r :: rows))) =
  (if has_key key k r then weight r else 0) + Zsum (map weight (filter (has_key key k) rows)).
Proof. cbn [filter]. destruct (has_key key k r); [reflexivity|lia]. Qed.

(** The groups split the keyed rows: summing a weight group by group is
    summing it over the keyed rows. *)
Lemma groups_partition (K : list string) (rows : list joined) :
  NoDup K ->
  (forall r k, In r rows -> key r = Some k -> In k K) ->
  Zsum (map (fun k => Zsum (map weight (filter (has_key key k) rows))) K) =
  Zsum (map weight (filter (keyed key) rows)).
Proof.
  intros N. induction rows as [|r rows IH]; intros C.
  - cbn [filter map]. apply Zsum_map_zero. reflexivity.
  - rewrite (map_ext _ _ (fun k => members_weight_cons k r rows)).
    rewrite Zsum_map_add, IH by (intros r' k Hr; apply C; now right).
    cbn [filter]. unfold keyed at 2. destruct (key r) as [k0|] eqn:E.
    + rewrite (one_group_per_row r k0 K E N (C r k0 (or_introl eq_refl) E)).
      cbn [map]. now rewrite Zsum_cons.
    + rewrite (no_group_for_unkeyed r K E). lia.
Qed.

End Partition.

Section Totals.

Lemma length_as_sum {A : Type} (l : list A) : Z.of_nat (List.length l) = Zsum (map (fun _ => 1) l).
Proof. induction l as [|a l IH]; [reflexivity|]. cbn [map List.length]. rewrite Zsum_cons. lia. Qed.

Lemma groupby_agg_totals (key : joined -> option string) (rows : list joined) :
  Zsum (map g_Cantidad (groupby_agg key rows)) = Z.of_nat (List.length (filter (keyed key) rows)) /\
  Zsum (map g_PVP (groupby_agg key rows)) = Zsum (map PVP (filter (keyed key) rows)).
Proof.
  unfold groupby_agg. rewrite !map_map. cbn [g_Cantidad g_PVP].
  pose proof (sorted_NoDup _ (group_keys_sorted key rows)) as N.
  assert (C : forall r k, In r rows -> key r = Some k -> In k (group_keys key rows)).
  { intros r k Hr Hk. apply in_group_keys. eauto. }
  split.
  - rewrite (map_ext _ _ (fun k => length_as_sum (filter (has_key key k) rows))).
    rewrite (groups_partition key (fun _ => 1) _ rows N C). symmetry. apply length_as_sum.
  - apply (groups_partition key PVP _ rows N C).
Qed.

Lemma summary_totals (key : joined -> option string) (rows : list treatment_out) :
  Zsum (map g_Cantidad (resumen_of key rows)) =
    Z.of_nat (List.length (filter (keyed key) (first_steps rows))) /\
  Zsum (map g_PVP (resumen_of key rows)) =
    Zsum (map PVP (filter (keyed key) (first_steps rows))).
Proof.
  destruct (groupby_agg_totals key (first_steps rows)) as [C P].
  unfold resumen_of. rewrite <- C, <- P.
  split; apply Zsum_perm, Permutation_map, sort_values_desc_perm.
Qed.

Lemma create_summary_totals (key : joined -> option string) (rows : list treatment_out) :
  Zsum (map Cantidad (Pd.frame_rows (create_summary key (Pd.Frame rows)))) =
    Z.of_nat (List.length (filter (keyed key) (first_steps rows))) /\
  Zsum (map PVP_sum (Pd.frame_rows (create_summary key (Pd.Frame rows)))) =
    Zsum (map PVP (filter (keyed key) (first_steps rows))).
Proof. rewrite summary_counts_column, summary_revenue_column. apply summary_totals. Qed.

Lemma filter_all {A : Type} (p : A -> bool) (l : list A) :
  (forall a, p a = true) -> filter p l = l.
Proof.
  intros H. induction l as [|a l IH]; [reflexivity|]. cbn. now rewrite H, IH.
Qed.

End Totals.

(** X11.  Every first-step treatment that has a value in the grouping column
    is counted in exactly one row of the summary: the counts add up to the
    number of such treatments and the revenues add up to the sum of their
    prices. *)
Theorem summary_totals_partition (key : joined -> option string) (rows : list treatment_out) :
  let summary := Pd.frame_rows (create_summary key (Pd.Frame rows)) in
  Zsum (map Cantidad summary) =
    Z.of_nat (List.length (filter (keyed key) (first_steps rows))) /\
  Zsum (map PVP_sum summary) = Zsum (map PVP (filter (keyed key) (first_steps rows))).
Proof.
  cbv zeta. apply create_summary_totals.
Qed.

(** X12.  The summary by type and the summary by subprogram count the same
    treatments, all the first steps, and the same revenue; the summary by
    program counts only the first steps that have a program, so its total is
    never larger. *)
Theorem summaries_compared (rows : list treatment_out) :
  let total dim := Zsum (map Cantidad (Pd.frame_rows (dim (Pd.Frame rows)))) in
  let revenue dim := Zsum (map PVP_sum (Pd.frame_rows (dim (Pd.Frame rows)))) in
  total create_treatment_summary = Z.of_nat (List.length (first_steps rows)) /\
  total create_subprogram_summary = Z.of_nat (List.length (first_steps rows)) /\
  revenue create_treatment_summary = Zsum (map PVP (first_steps rows)) /\
  revenue create_subprogram_summary = Zsum (map PVP (first_steps rows)) /\
  total create_program_summary =
    Z.of_nat (List.length (filter (fun r => match Subtipo r with Some _ => true | None => false end)
                                  (first_steps rows))) /\
  total create_program_summary <= total create_treatment_summary.
Proof.
  cbv zeta. unfold create_treatment_summary, create_subprogram_summary, create_program_summary.
  destruct (create_summary_totals (fun r => Some (Tipo r)) rows) as [C1 P1].
  destruct (create_summary_totals (fun r => Some (Subprograma r)) rows) as [C2 P2].
  destruct (create_summary_totals Subtipo rows) as [C3 _].
  rewrite (filter_all (keyed (fun r => Some (Tipo r)))) in C1, P1 by reflexivity.
  rewrite (filter_all (keyed (fun r => Some (Subprograma r)))) in C2, P2 by reflexivity.
  repeat split; try assumption.
  rewrite C3, C1. apply Nat2Z.inj_le, filter_length_le.
Qed.

(* ===================================================================== *)
(** * Further properties: the percentage columns                          *)
(* ===================================================================== *)

Section PercentageOrder.
Import Binary64 Binary64Facts PyNum.
Local Open Scope Q_scope.

Lemma fmul_mono (x y c : Q) : 0 <= c -> x <= y -> fmul x c <= fmul y c.
Proof. intros Hc H. apply RN_mono. now apply Qmult_le_compat_r. Qed.

Lemma fdiv_mono (x y c : Q) : 0 < c -> x <= y -> fdiv x c <= fdiv y c.
Proof.
  intros Hc H. apply RN_mono. unfold Qdiv. apply Qmult_le_compat_r; [exact H|].
  apply Qinv_le_0_compat. lra.
Qed.

Lemma np_round2_mono (x y : Q) : x <= y -> np_round2 x <= np_round2 y.
Proof.
  intros H. unfold np_round2. apply fdiv_mono; [reflexivity|].
  rewrite <- Zle_Qle. apply rint_mono, fmul_mono; [discriminate|exact H].
Qed.

Lemma np_round2_comp (x y : Q) : x == y -> np_round2 x == np_round2 y.
Proof.
  intros H. unfold np_round2, fmul.
  rewrite (rint_comp (RN (x * 100)) (RN (y * 100))); [reflexivity|]. now rewrite H.
Qed.

Lemma np_round2_int (n : Z) :
  (Z.abs n * 100 < 2 ^ 53)%Z -> np_round2 (inject_Z n) == inject_Z n.
Proof.
  intros H. unfold np_round2, fmul, fdiv.
  assert (E : inject_Z n * 100 == inject_Z (n * 100)).
  { rewrite inject_Z_mult. reflexivity. }
  rewrite (rint_comp (RN (inject_Z n * 100)) (inject_Z (n * 100))).
  - rewrite rint_inject_Z, inject_Z_mult. change (inject_Z 100) with 100.
    assert (E2 : inject_Z n * 100 / 100 == inject_Z n) by field.
    rewrite E2. apply RN_exact_int. lia.
  - rewrite E. apply RN_exact_int. lia.
Qed.

(** A larger part of the same total never gets a smaller percentage. *)
Lemma percentage_mono (part part' total : Z) :
  (0 < total)%Z -> (part <= part')%Z ->
  pct_le (percentage part total) (percentage part' total).
Proof.
  intros T H. unfold percentage.
  assert (Z0 : (total =? 0)%Z = false) by (apply Z.eqb_neq; lia). rewrite Z0.
  cbn [pct_le]. apply np_round2_mono, fmul_mono; [discriminate|].
  apply fdiv_mono.
  - apply RN_positive. now apply inject_Z_pos.
  - apply RN_mono. now rewrite <- Zle_Qle.
Qed.

Lemma percentage_nothing (total : Z) :
  (0 < total)%Z -> exists p, percentage 0 total = Some p /\ p == 0.
Proof.
  intros T. unfold percentage.
  assert (Z0 : (total =? 0)%Z = false) by (apply Z.eqb_neq; lia). rewrite Z0.
  eexists. split; [reflexivity|].
  assert (E : fmul (fdiv (RN (inject_Z 0)) (RN (inject_Z total))) 100 == inject_Z 0).
  { unfold fmul, fdiv. change (inject_Z 0) with 0. rewrite RN_0.
    assert (E : 0 / RN (inject_Z total) == 0) by (unfold Qdiv; ring).
    rewrite E, RN_0. assert (E' : 0 * 100 == 0) by ring. now rewrite E', RN_0. }
  rewrite (np_round2_comp _ _ E). apply (np_round2_int 0). cbn; lia.
Qed.

Lemma percentage_whole (total : Z) :
  (0 < total < 2 ^ 53)%Z -> exists p, percentage total total = Some p /\ p == 100.
Proof.
  intros T. unfold percentage.
  assert (Z0 : (total =? 0)%Z = false) by (apply Z.eqb_neq; lia). rewrite Z0.
  eexists. split; [reflexivity|].
  assert (E : fmul (fdiv (RN (inject_Z total)) (RN (inject_Z total))) 100 == inject_Z 100).
  { unfold fmul, fdiv. rewrite (RN_exact_int total) by lia.
    pose proof (inject_Z_pos total ltac:(lia)) as P.
    assert (E : inject_Z total / inject_Z total == inject_Z 1) by (field; lra).
    rewrite E, (RN_exact_int 1) by (cbn; lia).
    change (inject_Z 1 * 100) with (inject_Z 100). apply RN_exact_int. cbn; lia. }
  rewrite (np_round2_comp _ _ E). apply (np_round2_int 100). cbn; lia.
Qed.

Lemma percentage_range (part total : Z) :
  (0 <= part <= total)%Z -> (0 < total < 2 ^ 53)%Z ->
  exists p, percentage part total = Some p /\ 0 <= p <= 100.
Proof.
  intros [P0 P1] T.
  destruct (percentage_nothing total ltac:(lia)) as (z & Ez & Hz).
  destruct (percentage_whole total T) as (w & Ew & Hw).
  pose proof (percentage_mono 0 part total ltac:(lia) P0) as L.
  pose proof (percentage_mono part total total ltac:(lia) P1) as U.
  rewrite Ez in L. rewrite Ew in U.
  destruct (percentage part total) as [p|]; [|destruct L].
  exists p. split; [reflexivity|]. cbn [pct_le] in L, U. lra.
Qed.

End PercentageOrder.

Section SummaryTotals.

Lemma summary_count_positive (key : joined -> option string) (rows : list treatment_out) (g : group) :
  In g (resumen_of key rows) -> 1 <= g_Cantidad g.
Proof.
  intros Hg. apply in_resumen_of, in_groupby_agg in Hg. now destruct Hg as (_ & _ & _ & ?).
Qed.

Lemma summary_total_positive (key : joined -> option string) (rows : list treatment_out) (g : group) :
  In g (resumen_of key rows) ->
  g_Cantidad g <= Zsum (map g_Cantidad (resumen_of key rows)) /\
  0 < Zsum (map g_Cantidad (resumen_of key rows)).
Proof.
  intros Hg.
  assert (F : Forall (fun c => 0 <= c) (map g_Cantidad (resumen_of key rows))).
  { rewrite Forall_map. apply Forall_forall. intros g' Hg'.
    pose proof (summary_count_positive key rows g' Hg'). lia. }
  pose proof (Zsum_member (g_Cantidad g) _ F (in_map g_Cantidad _ _ Hg)) as M.
  pose proof (summary_count_positive key rows g Hg). lia.
Qed.

Lemma sorted_percentages (total : Z) (l : list group) :
  0 < total ->
  StronglySorted (descending g_Cantidad) l ->
  StronglySorted (fun a b => pct_le (percentage (g_Cantidad b) total)
                                    (percentage (g_Cantidad a) total)) l.
Proof.
  intros T. induction 1 as [|g l S IH F]; constructor; [exact IH|].
  eapply Forall_impl; [|exact F]. intros g' H. now apply percentage_mono.
Qed.

End SummaryTotals.

(** X13.  The share of treatments follows the order of the rows: in every
    summary each percentage of treatments is a finite number, whether the
    summary has one row or many, and the column is in descending order, like
    the counts. *)
Theorem summary_percentages_sorted (key : joined -> option string) (rows : list treatment_out) :
  let summary := Pd.frame_rows (create_summary key (Pd.Frame rows)) in
  Forall (fun g => exists p, pct_tratamientos g = Some p) summary /\
  StronglySorted (fun a b => pct_le (pct_tratamientos b) (pct_tratamientos a)) summary.
Proof.
  cbv zeta. rewrite create_summary_rows. cbn [Pd.frame_rows].
  pose proof (summary_total_positive key rows) as T. split.
  - rewrite Forall_map. cbn [pct_tratamientos]. apply Forall_forall. intros g Hg.
    destruct (T g Hg) as [_ P]. unfold percentage.
    assert (Z0 : (Zsum (map g_Cantidad (resumen_of key rows)) =? 0) = false)
      by (apply Z.eqb_neq; lia).
    rewrite Z0. eexists. reflexivity.
  - apply StronglySorted_map. cbn [pct_tratamientos].
    pose proof (sort_values_desc_sorted g_Cantidad (groupby_agg key (first_steps rows))) as S.
    fold (resumen_of key rows) in S.
    destruct (resumen_of key rows) as [|g l] eqn:E; [constructor|].
    apply sorted_percentages; [|exact S]. apply (T g). now left.
Qed.

(** X14.  With fewer than 2^53 first-step treatments, every percentage of
    treatments of a summary is a number between 0 and 100. *)
Theorem summary_percentages_in_range (key : joined -> option string) (rows : list treatment_out) :
  Z.of_nat (List.length (first_steps rows)) < 2 ^ 53 ->
  Forall (fun g => exists p, pct_tratamientos g = Some p /\ (0 <= p <= 100)%Q)
         (Pd.frame_rows (create_summary key (Pd.Frame rows))).
Proof.
  intros B. rewrite create_summary_rows. cbn [Pd.frame_rows].
  rewrite Forall_map. cbn [pct_tratamientos]. apply Forall_forall. intros g Hg.
  destruct (summary_total_positive key rows g Hg) as [L P].
  pose proof (summary_count_positive key rows g Hg) as C.
  apply percentage_range; [lia|]. split; [exact P|].
  destruct (summary_totals key rows) as [E _]. rewrite E.
  pose proof (filter_length_le (keyed key) (first_steps rows)). lia.
Qed.

Lemma summary_percentages_in_range_witness :
  Forall (fun g => exists p, pct_tratamientos g = Some p /\ (0 <= p <= 100)%Q)
         (Pd.frame_rows (create_treatment_summary thirty_one_types)).
Proof.
  apply (summary_percentages_in_range (fun r => Some (Tipo r))). vm_compute. reflexivity.
Defined.

Section OneGroup.

Lemma group_keys_single (key : joined -> option string) (k : string) (rows : list joined) :
  rows <> [] -> (forall r, In r rows -> key r = Some k) -> group_keys key rows = [k].
Proof.
  induction rows as [|r rows IH]; intros N H; [congruence|].
  rewrite group_keys_cons, (H r (or_introl eq_refl)).
  destruct rows as [|r' rows'].
  - reflexivity.
  - rewrite IH; [|discriminate|intros x Hx; apply H; now right].
    cbn [insert_key].
    assert (E : String.compare k k = Eq) by now apply String_as_OT.cmp_eq.
    now rewrite E.
Qed.

Lemma members_single (key : joined -> option string) (k : string) (rows : list joined) :
  (forall r, In r rows -> key r = Some k) -> filter (has_key key k) rows = rows.
Proof.
  induction rows as [|r rows IH]; intros H; [reflexivity|]. cbn [filter].
  assert (E : has_key key k r = true) by (apply has_key_spec, H; now left).
  rewrite E, IH; [reflexivity|]. intros x Hx. apply H. now right.
Qed.

End OneGroup.

(** X15.  When all first-step treatments fall in one group, the summary is
    a single row that counts them all and shows exactly 100 percent of the
    treatments; when their prices add up to a positive amount, it shows
    exactly 100 percent of the revenue as well. *)
Theorem single_group_full_share (key : joined -> option string) (k : string)
        (rows : list treatment_out) :
  first_steps rows <> [] ->
  (forall r, In r (first_steps rows) -> key r = Some k) ->
  Z.of_nat (List.length (first_steps rows)) < 2 ^ 53 ->
  exists g p,
    Pd.frame_rows (create_summary key (Pd.Frame rows)) = [g] /\
    label g = k /\
    Cantidad g = Z.of_nat (List.length (first_steps rows)) /\
    PVP_sum g = Zsum (map PVP (first_steps rows)) /\
    pct_tratamientos g = Some p /\ (p == 100)%Q /\
    (0 < PVP_sum g < 2 ^ 53 -> exists q, pct_ingresos g = Some q /\ (q == 100)%Q).
Proof.
  intros N H B. rewrite create_summary_rows. cbn [Pd.frame_rows].
  assert (R : resumen_of key rows =
              [ {| g_label := k;
                   g_Cantidad := Z.of_nat (List.length (first_steps rows));
                   g_PVP := Zsum (map PVP (first_steps rows)) |} ]).
  { unfold resumen_of, groupby_agg.
    rewrite (group_keys_single key k _ N H). cbn [map].
    now rewrite (members_single key k _ H). }
  rewrite R. cbn [map g_label g_Cantidad g_PVP]. rewrite !Zsum_cons.
  change (Zsum []) with 0. rewrite !Z.add_0_r.
  assert (L : 0 < Z.of_nat (List.length (first_steps rows))).
  { destruct (first_steps rows); [congruence|cbn [List.length]; lia]. }
  destruct (percentage_whole _ (conj L B)) as (p & Ep & Hp).
  eexists. exists p. split; [reflexivity|]. cbn [label Cantidad PVP_sum pct_tratamientos pct_ingresos].
  repeat split; [exact Ep|exact Hp|].
  intros V. exact (percentage_whole _ V).
Qed.

Lemma single_group_full_share_witness :
  exists g p,
    Pd.frame_rows (create_treatment_summary (Pd.Frame [single_treatment "A"])) = [g] /\
    label g = "A"%string /\
    Cantidad g = 1 /\
    PVP_sum g = 60 /\
    pct_tratamientos g = Some p /\ (p == 100)%Q /\
    (0 < PVP_sum g < 2 ^ 53 -> exists q, pct_ingresos g = Some q /\ (q == 100)%Q).
Proof.
  apply (single_group_full_share (fun r => Some (Tipo r)) "A" [single_treatment "A"]).
  - discriminate.
  - intros r [<-|[]]. reflexivity.
  - vm_compute. reflexivity.
Defined.

(** X16.  When the prices of the first-step treatments add up to zero, a
    summary is still produced, with a row for every group, but no
    percentage of revenue is a number: the division by the zero total gives
    a non-finite cell in every row. *)
Theorem zero_revenue_percentages (key : joined -> option string) (rows : list treatment_out) :
  Zsum (map PVP (filter (keyed key) (first_steps rows))) = 0 ->
  exists summary,
    create_summary key (Pd.Frame rows) = Pd.Frame summary /\
    List.length summary = List.length (group_keys key (first_steps rows)) /\
    Forall (fun g => pct_ingresos g = None /\ pct_tratamientos g <> None) summary.
Proof.
  intros Z. rewrite create_summary_rows. eexists. split; [reflexivity|]. split.
  - rewrite length_map. unfold resumen_of.
    rewrite (Permutation_length (sort_values_desc_perm g_Cantidad _)).
    unfold groupby_agg. now rewrite length_map.
  - rewrite Forall_map. cbn [pct_ingresos pct_tratamientos].
    apply Forall_forall. intros g Hg.
    destruct (summary_totals key rows) as [_ E]. rewrite E, Z. split; [reflexivity|].
    destruct (summary_total_positive key rows g Hg) as [_ P].
    unfold percentage.
    assert (Z0 : (Zsum (map g_Cantidad (resumen_of key rows)) =? 0) = false)
      by (apply Z.eqb_neq; lia).
    rewrite Z0. discriminate.
Qed.

Lemma zero_revenue_percentages_witness :
  exists summary,
    create_program_summary
      (Pd.Frame [ {| reported_at := min_date;
                     t_row := {| source := {| t_din := "D1"; code := "ZZ";
                                              reported_at_ns := None; duration := 1200 |};
                                 Tipo := "Desconocido"; Subtipo := Some "Cortesía"%string;
                                 Subprograma := "Desconocido"; PVP := 0;
                                 Secuencia := 1 |} |} ]) = Pd.Frame summary /\
    List.length summary = 1%nat /\
    Forall (fun g => pct_ingresos g = None /\ pct_tratamientos g <> None) summary.
Proof.
  refine (zero_revenue_percentages Subtipo _ _). reflexivity.
Defined.

(* ===================================================================== *)
(** * Further properties: serial dates and the suggested cut-off          *)
(* ===================================================================== *)

Section SerialDates.
Import PyNum.

Lemma excel_epoch_value : Pd.value (Pd.Timestamp_of_date 1899 12 30 None) = - 25569 * Pd.ns_per_day.
Proof. reflexivity. Qed.

Lemma excel_epoch_plus_days (n : Z) :
  excel_epoch_plus (n * Pd.ns_per_day) =
  if (- 81182 <=? n) && (n <=? 106751) then Some ((n - 25569) * Pd.ns_per_day) else None.
Proof.
  unfold excel_epoch_plus. rewrite excel_epoch_value. unfold in_int64.
  assert (D : Pd.ns_per_day = 86400000000000) by reflexivity. rewrite D.
  assert (P : 2 ^ 63 = 9223372036854775808) by reflexivity. rewrite P.
  destruct (- 81182 <=? n) eqn:A; destruct (n <=? 106751) eqn:B; cbn [andb];
    repeat match goal with
           | |- context [?a <? ?b] => destruct (Z.ltb_spec a b)
           end; cbn [andb]; try reflexivity; try (f_equal; lia);
    try (apply Z.leb_le in A); try (apply Z.leb_gt in A);
    try (apply Z.leb_le in B); try (apply Z.leb_gt in B); lia.
Qed.

Lemma digits_isdigit (d : Decimal.uint) :
  all_chars isdigit_char (NilEmpty.string_of_uint d) = true.
Proof. induction d; [reflexivity|..]; cbn [NilEmpty.string_of_uint all_chars]; now rewrite IHd. Qed.

Lemma dec_isdigit (n : Z) : isdigit (dec n) = true.
Proof.
  unfold dec, NilZero.string_of_uint.
  pose proof (N_to_uint_nonnil (Z.to_N n)) as N.
  destruct (N.to_uint (Z.to_N n)) as [|u|u|u|u|u|u|u|u|u|u]; [congruence|..];
    cbn [NilEmpty.string_of_uint]; unfold isdigit; cbn [all_chars];
    now rewrite digits_isdigit.
Qed.

Lemma uint_of_string_digits (s : string) (u : Decimal.uint) :
  NilEmpty.uint_of_string s = Some u -> all_chars Py.is_digit s = true.
Proof.
  revert u. induction s as [|a s IH]; intros u; [reflexivity|].
  cbn [NilEmpty.uint_of_string all_chars].
  destruct (NilEmpty.uint_of_string s) as [v|].
  - rewrite (IH v eq_refl), andb_true_r.
    destruct a as [[] [] [] [] [] [] [] []]; cbn; intros H; try discriminate H; reflexivity.
  - destruct a as [[] [] [] [] [] [] [] []]; cbn; discriminate.
Qed.

Lemma read_uint_digits (s : string) (n : Z) :
  read_uint s = Some n -> all_chars Py.is_digit s = true /\ 0 <= n.
Proof.
  unfold read_uint, NilZero.uint_of_string. destruct s as [|a s]; [discriminate|].
  destruct (NilEmpty.uint_of_string (String a s)) as [u|] eqn:E; [|discriminate].
  intros H. injection H as <-. split; [exact (uint_of_string_digits _ u E)|lia].
Qed.

End SerialDates.

(** X17.  An integer serial converts exactly when it lies between -81182
    and 106751, the days for which both the offset and the resulting instant
    fit 64-bit nanoseconds; the result is then midnight, that many days after
    1899-12-30.  Every other integer gives no date.  So the serial of a civil
    date is its day number counted from 1899-12-30. *)
Theorem convert_excel_date_serial (n : Z) :
  convert_excel_date (XInt n) =
    (if (- 81182 <=? n) && (n <=? 106751)
     then Some (Pd.value (Pd.Timestamp_of_date 1899 12 30 None) + n * Pd.ns_per_day)
     else None) /\
  (forall y m d,
     n = Pd.days_from_civil y m d - Pd.days_from_civil 1899 12 30 ->
     - 81182 <= n <= 106751 ->
     convert_excel_date (XInt n) = Some (Pd.value (Pd.Timestamp_of_date y m d None))).
Proof.
  cbn [convert_excel_date]. rewrite excel_epoch_plus_days, excel_epoch_value. split.
  - destruct ((- 81182 <=? n) && (n <=? 106751)); [f_equal; lia|reflexivity].
  - intros y m d E [L U].
    apply Z.leb_le in L, U. rewrite L, U. cbn [andb Pd.Timestamp_of_date Pd.value].
    f_equal. rewrite E. change (Pd.days_from_civil 1899 12 30) with (- 25569). lia.
Qed.

(** X18.  A text cell that spells a natural number in decimal digits
    converts like the integer it spells. *)
Theorem convert_excel_date_decimal_text (n : Z) :
  0 <= n -> convert_excel_date (XStr (PyNum.dec n)) = convert_excel_date (XInt n).
Proof.
  intros H. cbn [convert_excel_date]. now rewrite dec_isdigit, read_uint_dec.
Qed.

Lemma convert_excel_date_decimal_text_witness :
  convert_excel_date (XStr "45000") = convert_excel_date (XInt 45000).
Proof. apply (convert_excel_date_decimal_text 45000). lia. Defined.

Section Latin1.

Lemma is_digit_code_point (c : N) :
  (c < 256)%N -> Py.is_digit (ascii_of_N c) = ascii_digit c.
Proof.
  intros H. unfold Py.is_digit, ascii_digit, nat_of_ascii.
  rewrite (N_ascii_embedding c H).
  destruct (N.leb_spec 48 c), (N.leb_spec c 57);
    destruct (Nat.leb_spec 48 (N.to_nat c)), (Nat.leb_spec (N.to_nat c) 57);
    try reflexivity; lia.
Qed.

Lemma all_digits_code_points (text : list N) :
  latin1 text ->
  all_chars Py.is_digit (string_of_code_points text) = forallb ascii_digit text.
Proof.
  induction 1 as [|c text Hc F IH]; [reflexivity|].
  cbn [string_of_code_points all_chars forallb]. now rewrite IH, is_digit_code_point.
Qed.

End Latin1.

(** X19.  For a text cell whose characters are code points below 256,
    the text that the strings of this development hold: the cell gives a
    date only when it is written in the ten digits "0" to "9" alone, and then
    the date of the number it spells.  A sign, a decimal point, a blank, a
    date written out or one of the superscript digits, which [isdigit]
    accepts and [float] refuses, makes the cell convert to no date.  (Python
    also reads the decimal digits of other scripts; they are above 255.) *)
Theorem convert_excel_date_text_digits (text : list N) (v : Z) :
  latin1 text ->
  convert_excel_date (XStr (string_of_code_points text)) = Some v ->
  forallb ascii_digit text = true /\
  exists n, 0 <= n <= 106751 /\ read_uint (string_of_code_points text) = Some n /\
            convert_excel_date (XInt n) = Some v.
Proof.
  intros L. rewrite <- (all_digits_code_points text L).
  set (s := string_of_code_points text).
  cbn [convert_excel_date]. destruct (isdigit s); [|discriminate].
  destruct (read_uint s) as [n|] eqn:E; [|discriminate].
  destruct (read_uint_digits s n E) as [D N]. intros H. split; [exact D|].
  exists n. repeat split; try assumption.
  rewrite excel_epoch_plus_days in H.
  destruct (n <=? 106751) eqn:U; [now apply Z.leb_le|].
  rewrite andb_false_r in H. discriminate.
Qed.

Lemma convert_excel_date_text_digits_witness :
  forallb ascii_digit [52; 53; 48; 48; 48]%N = true /\
  exists n, 0 <= n <= 106751 /\
            read_uint (string_of_code_points [52; 53; 48; 48; 48]%N) = Some n /\
            convert_excel_date (XInt n) =
            Some (Pd.value (Pd.Timestamp_of_date 2023 3 15 None)).
Proof.
  apply convert_excel_date_text_digits; [|reflexivity].
  repeat constructor.
Defined.

(** A superscript two passes [isdigit] and converts to no date; a serial
    with a fraction of a day is converted through three rounded products,
    so that 45000.1 days end in ...999488 nanoseconds. *)
Example convert_excel_date_examples :
  isdigit (string_of_code_points [178]%N) = true /\
  convert_excel_date (XStr (string_of_code_points [178]%N)) = None /\
  convert_excel_date (XFloat (6184766650135347 # 137438953472)) =
    Some (Pd.value (Pd.Timestamp_of_date 1899 12 30 None) + 3888008639999999488).
Proof. vm_compute. repeat split. Qed.

Section FirstHint.

Lemma find_skip {A : Type} (p : A -> bool) (pre : list A) (r : A) (post : list A) :
  (forall x, In x pre -> p x = false) -> p r = true ->
  find p (pre ++ r :: post) = Some r.
Proof.
  intros H Hr. induction pre as [|x pre IH]; cbn [app find].
  - now rewrite Hr.
  - rewrite (H x (or_introl eq_refl)). apply IH. intros y Hy. apply H. now right.
Qed.

End FirstHint.

(** X20.  Only the first hint row of the device counts.  When it converts
    to a date, the suggested cut-off is that date or 2023-01-01, whichever
    is later, in UTC; the rows before it, of other devices, and all the rows
    after it, whatever they hold, leave the suggestion unchanged. *)
Theorem suggested_cutoff_first_row
    (pre post : list (drv excel_cell)) (r : drv excel_cell) (device : string) (v : Z) :
  (forall x, In x pre -> drv_din x <> device) ->
  drv_din r = device ->
  convert_excel_date (fecha_corte r) = Some v ->
  get_suggested_cutoff_date (load_drv (pre ++ r :: post)) device =
    {| Pd.value := Z.max v (Pd.value min_date); Pd.tz := Some Pd.UTC |} /\
  get_suggested_cutoff_date (load_drv (pre ++ r :: post)) device =
    get_suggested_cutoff_date (load_drv [r]) device.
Proof.
  intros Hpre Hr Hv.
  assert (F : forall l l', (forall x, In x l -> drv_din x <> device) ->
                get_suggested_cutoff_date (load_drv (l ++ r :: l')) device =
                {| Pd.value := Z.max v (Pd.value min_date); Pd.tz := Some Pd.UTC |}).
  { intros l l' Hl. rewrite get_suggested_cutoff_date_cases, find_load_drv.
    rewrite (find_skip _ l r l').
    - cbn [option_map fecha_corte]. rewrite Hv.
      destruct (Z.ltb_spec v (Pd.value min_date)).
      + rewrite Z.max_r by lia. reflexivity.
      + rewrite Z.max_l by lia. reflexivity.
    - intros x Hx. apply String.eqb_neq. now apply Hl.
    - now apply String.eqb_eq. }
  split; [now apply F|]. rewrite (F pre post Hpre).
  symmetry. apply (F [] []). intros x [].
Qed.

Lemma suggested_cutoff_first_row_witness :
  get_suggested_cutoff_date
    (load_drv ([ {| drv_din := "D1"; fecha_corte := XInt 44713 |} ] ++
               {| drv_din := "D2"; fecha_corte := XInt 45000 |} ::
               [ {| drv_din := "D2"; fecha_corte := XInt 45291 |} ]))%string "D2" =
  Pd.Timestamp_of_date 2023 3 15 (Some Pd.UTC).
Proof.
  refine (proj1 (suggested_cutoff_first_row _ _ _ "D2" (Pd.value (Pd.Timestamp_of_date 2023 3 15 None)) _ _ _)).
  - intros x [<-|[]]. discriminate.
  - reflexivity.
  - reflexivity.
Defined.

(* ===================================================================== *)
(** * Further properties: the duration column of the detailed report      *)
(* ===================================================================== *)

Section Minutes.
Import Binary64 Binary64Facts PyNum.
Local Open Scope Q_scope.

(** X22.  For a duration of at most one day, the minutes shown differ from
    the exact quotient by at most half a hundredth (and the binary64 error,
    below 10^-12). *)
Theorem duration_minutes_accuracy (d : Z) :
  (0 <= d <= day_ms)%Z ->
  Qabs (duration_minutes d - inject_Z d / 60000) <= (1 # 200) + (1 # 1000000000000).
Proof.
  intros [D0 D1]. unfold duration_minutes, np_round2, day_ms in *.
  pose proof (inject_Z_nonneg d D0) as PD.
  assert (PU : inject_Z d <= 86400000).
  { change 86400000 with (inject_Z 86400000). now rewrite <- Zle_Qle. }
  set (v := inject_Z d / 60000).
  assert (Ev : inject_Z d == v * 60000) by (unfold v; field).
  assert (Hv : 0 <= v <= 1440) by (split; lra).
  assert (E1 : fdiv (RN (inject_Z d)) 60000 == RN v).
  { unfold fdiv. apply RN_comp. unfold v. rewrite (RN_exact_int d); [reflexivity|].
    change (2 ^ 53)%Z with 9007199254740992%Z. lia. }
  set (x1 := fdiv (RN (inject_Z d)) 60000) in *.
  assert (B1 : 0 <= x1 <= 1440 /\ - (1440 * eps53) <= x1 - v <= 1440 * eps53).
  { rewrite E1. pose proof (RN_err_nonneg v ltac:(lra)) as [? ?].
    pose proof (RN_nonneg v ltac:(lra)).
    assert (RN v <= 1440)
      by (apply (RN_le_int v 1440); [reflexivity|change (inject_Z 1440) with 1440; lra]).
    unfold eps53 in *. repeat split; lra. }
  set (y := fmul x1 100).
  assert (B2 : 0 <= y <= 144000 /\ - (144000 * eps53) <= y - 100 * x1 <= 144000 * eps53).
  { unfold y, fmul. pose proof (RN_err_nonneg (x1 * 100) ltac:(lra)) as [? ?].
    pose proof (RN_nonneg (x1 * 100) ltac:(lra)).
    assert (RN (x1 * 100) <= 144000)
      by (apply (RN_le_int (x1 * 100) 144000);
          [reflexivity|change (inject_Z 144000) with 144000; lra]).
    unfold eps53 in *. repeat split; lra. }
  pose proof (rint_near y) as R. apply Qabs_Qle_condition in R.
  assert (R0 : 0 <= inject_Z (rint y) <= 144000).
  { split.
    - change 0 with (inject_Z 0). rewrite <- Zle_Qle. apply rint_ge. change (inject_Z 0) with 0. lra.
    - change 144000 with (inject_Z 144000). rewrite <- Zle_Qle. apply rint_le.
      change (inject_Z 144000) with 144000. lra. }
  set (r := inject_Z (rint y)) in *.
  set (h := r * (1 # 100)).
  assert (Eh : fdiv r 100 == RN h).
  { unfold fdiv. apply RN_comp. unfold h. field. }
  rewrite Eh. pose proof (RN_err_nonneg h ltac:(unfold h; lra)) as [? ?].
  apply Qabs_Qle_condition.
  unfold h, eps53 in *. split; lra.
Qed.

Lemma duration_minutes_accuracy_witness :
  Qabs (duration_minutes 90500 - inject_Z 90500 / 60000) <= (1 # 200) + (1 # 1000000000000).
Proof. apply duration_minutes_accuracy. unfold day_ms. lia. Defined.

(** X23.  A duration of a whole number of minutes is shown exactly. *)
Theorem duration_minutes_whole (k : Z) :
  (Z.abs k * 60000 < 2 ^ 53)%Z -> duration_minutes (k * 60000) == inject_Z k.
Proof.
  intros H. unfold duration_minutes.
  assert (E : fdiv (RN (inject_Z (k * 60000))) 60000 == inject_Z k).
  { unfold fdiv. rewrite (RN_exact_int (k * 60000)) by (rewrite Z.abs_mul; cbn [Z.abs]; lia).
    assert (E : inject_Z (k * 60000) / 60000 == inject_Z k).
    { rewrite inject_Z_mult. change (inject_Z 60000) with 60000. field. }
    rewrite E. apply RN_exact_int. lia. }
  rewrite (np_round2_comp _ _ E). apply np_round2_int. lia.
Qed.

Lemma duration_minutes_whole_witness : duration_minutes (45 * 60000) == inject_Z 45.
Proof. apply duration_minutes_whole. cbn. lia. Defined.

(** X21.  The minutes shown never invert two durations: a treatment that
    lasted longer is never shown with fewer minutes. *)
Theorem duration_minutes_monotone (d d' : Z) :
  (d <= d')%Z -> duration_minutes d <= duration_minutes d'.
Proof.
  intros H. unfold duration_minutes. apply np_round2_mono. apply fdiv_mono; [reflexivity|].
  apply RN_mono. now rewrite <- Zle_Qle.
Qed.

Lemma duration_minutes_monotone_witness : duration_minutes 60000 <= duration_minutes 90000.
Proof. apply duration_minutes_monotone. lia. Defined.

End Minutes.

(* ===================================================================== *)
(** * Further properties: what [main] passes on and shows                 *)
(* ===================================================================== *)

Section DefaultCutoff.

Lemma suggested_zoned (drv_df : list (drv (option Z))) (device : string) :
  Pd.tz (get_suggested_cutoff_date drv_df device) = Some Pd.UTC /\
  Pd.value min_date <= Pd.value (get_suggested_cutoff_date drv_df device).
Proof.
  rewrite get_suggested_cutoff_date_cases.
  destruct (find _ drv_df) as [r|]; [|split; [reflexivity|lia]].
  destruct (fecha_corte r) as [v|]; [|split; [reflexivity|lia]].
  destruct (Z.ltb_spec v (Pd.value min_date)); split; try reflexivity; cbn [Pd.value]; lia.
Qed.

Lemma min_date_midnight : Pd.value min_date = 19358 * Pd.ns_per_day.
Proof. reflexivity. Qed.

Lemma ns_per_day_value : Pd.ns_per_day = 86400000000000.
Proof. reflexivity. Qed.

End DefaultCutoff.

(** X24.  The [max] with 2023-01-01 in [main] changes nothing, since the
    suggestion is never earlier.  The cut-off that [main] passes on by
    default is a UTC midnight: the midnight at or before the suggested
    instant, less than a day before it and not before 2023-01-01; it is the
    suggested instant itself whenever that is a midnight. *)
Theorem main_default_cutoff_midnight (drv_df : list (drv (option Z))) (device : string) :
  let suggested := get_suggested_cutoff_date drv_df device in
  let cutoff := main_default_cutoff drv_df device in
  py_max suggested min_date = suggested /\
  Pd.tz cutoff = Some Pd.UTC /\
  Pd.value cutoff mod Pd.ns_per_day = 0 /\
  Pd.value min_date <= Pd.value cutoff <= Pd.value suggested /\
  Pd.value suggested < Pd.value cutoff + Pd.ns_per_day /\
  (Pd.value suggested mod Pd.ns_per_day = 0 -> cutoff = suggested).
Proof.
  cbv zeta. unfold main_default_cutoff.
  destruct (suggested_zoned drv_df device) as [T V].
  destruct (get_suggested_cutoff_date drv_df device) as [v z] eqn:S.
  cbn [Pd.tz Pd.value] in *. subst z.
  assert (M : py_max {| Pd.value := v; Pd.tz := Some Pd.UTC |} min_date =
              {| Pd.value := v; Pd.tz := Some Pd.UTC |}).
  { unfold py_max. cbn [Pd.value].
    destruct (Z.ltb_spec v (Pd.value min_date)); [lia|reflexivity]. }
  rewrite M. unfold tz_localize_None, date_of, Timestamp_of_day, Pd.tz_localize_UTC.
  cbn [Pd.tz Pd.value]. rewrite min_date_midnight in *. rewrite ns_per_day_value in *.
  pose proof (Z.div_mod v 86400000000000 ltac:(lia)) as D.
  pose proof (Z.mod_pos_bound v 86400000000000 ltac:(lia)) as B.
  repeat split; try reflexivity; try lia.
  - apply Z.mod_mul. lia.
  - intros H. f_equal. lia.
Qed.

Section Emptiness.

Lemma resumen_empty (key : joined -> option string) (rows : list treatment_out) :
  resumen_of key rows = [] <-> filter (keyed key) (first_steps rows) = [].
Proof.
  destruct (summary_totals key rows) as [C _].
  split; intros E.
  - rewrite E in C. cbn in C.
    destruct (filter (keyed key) (first_steps rows)); [reflexivity|cbn in C; lia].
  - rewrite E in C. cbn [List.length Z.of_nat] in C.
    destruct (resumen_of key rows) as [|g l] eqn:R; [reflexivity|exfalso].
    assert (I : In g (resumen_of key rows)) by (rewrite R; now left).
    destruct (summary_total_positive key rows g I) as [_ P]. rewrite R in P. lia.
Qed.

Lemma summary_empty (key : joined -> option string) (rows : list treatment_out) :
  df_empty (create_summary key (Pd.Frame rows)) = true <->
  filter (keyed key) (first_steps rows) = [].
Proof.
  rewrite <- resumen_empty, create_summary_rows. cbn [df_empty].
  destruct (resumen_of key rows); cbn [map]; split; congruence.
Qed.

End Emptiness.

(** X25.  The summaries by type and by subprogram are empty together,
    exactly when there is no first-step treatment; the summary by program is
    empty exactly when no first-step treatment has a program.  So, where the
    report shows the summary tables because the summary by type has rows,
    the table by subprogram has rows too, while the table by program can be
    left with its header alone. *)
Theorem summaries_empty_together (rows : list treatment_out) :
  (df_empty (create_treatment_summary (Pd.Frame rows)) = true <-> first_steps rows = []) /\
  (df_empty (create_subprogram_summary (Pd.Frame rows)) = true <-> first_steps rows = []) /\
  (df_empty (create_program_summary (Pd.Frame rows)) = true <->
   forall r, In r (first_steps rows) -> Subtipo r = None) /\
  (df_empty (create_treatment_summary (Pd.Frame rows)) = true ->
   df_empty (create_program_summary (Pd.Frame rows)) = true).
Proof.
  unfold create_treatment_summary, create_subprogram_summary, create_program_summary.
  rewrite !summary_empty.
  rewrite (filter_all (keyed (fun r => Some (Tipo r)))) by reflexivity.
  rewrite (filter_all (keyed (fun r => Some (Subprograma r)))) by reflexivity.
  assert (P : filter (keyed Subtipo) (first_steps rows) = [] <->
              forall r, In r (first_steps rows) -> Subtipo r = None).
  { split.
    - intros E r Hr. destruct (Subtipo r) eqn:S; [|reflexivity].
      assert (I : In r (filter (keyed Subtipo) (first_steps rows))).
      { apply filter_In. split; [exact Hr|]. unfold keyed. now rewrite S. }
      rewrite E in I. destruct I.
    - intros H. destruct (filter (keyed Subtipo) (first_steps rows)) as [|r l] eqn:F; [reflexivity|].
      assert (I : In r (filter (keyed Subtipo) (first_steps rows))) by (rewrite F; now left).
      apply filter_In in I. destruct I as [I K]. unfold keyed in K. now rewrite (H r I) in K. }
  split; [reflexivity|]. split; [reflexivity|]. split; [exact P|].
  intros E. now rewrite E.
Qed.

(** X26.  A chart of a summary is drawn exactly when the summary has rows.
    The chart of the counts by type then has one sector for each type among
    the first-step treatments, no type twice, every sector counts at least
    one treatment, and the sectors add up to the number of first-step
    treatments. *)
Theorem prepare_chart_data_sectors (rows : list treatment_out) :
  let chart := prepare_chart_data (create_treatment_summary (Pd.Frame rows)) Cantidad label in
  (chart = None <-> first_steps rows = []) /\
  (forall sectors, chart = Some sectors ->
     NoDup (map fst sectors) /\
     Forall (fun s => 1 <= snd s) sectors /\
     Zsum (map snd sectors) = Z.of_nat (List.length (first_steps rows))) /\
  prepare_chart_data Pd.NoColumns Cantidad label = None.
Proof.
  cbv zeta. unfold prepare_chart_data, create_treatment_summary.
  set (key := fun r : joined => Some (Tipo r)).
  pose proof (summary_empty key rows) as E.
  rewrite (filter_all (keyed key)) in E by reflexivity.
  split; [split|split].
  - destruct (df_empty (create_summary key (Pd.Frame rows))); [intros _; now apply E|discriminate].
  - intros F. apply E in F. now rewrite F.
  - intros sectors H.
    destruct (df_empty (create_summary key (Pd.Frame rows))); [discriminate|].
    injection H as <-. split; [|split].
    + rewrite map_map.
      change (NoDup (map label (Pd.frame_rows (create_summary key (Pd.Frame rows))))).
      rewrite summary_labels. unfold resumen_of.
      apply (Permutation_NoDup (l := group_keys key (first_steps rows))).
      * rewrite <- groupby_agg_labels. apply Permutation_map. symmetry.
        apply sort_values_desc_perm.
      * apply sorted_NoDup, group_keys_sorted.
    + rewrite Forall_map. cbn [snd]. rewrite Forall_map. cbn [Cantidad].
      apply Forall_forall. intros g Hg. exact (summary_count_positive key rows g Hg).
    + rewrite map_map.
      change (Zsum (map Cantidad (Pd.frame_rows (create_summary key (Pd.Frame rows)))) =
              Z.of_nat (List.length (first_steps rows))).
      rewrite summary_counts_column. destruct (summary_totals key rows) as [C _].
      rewrite C. now rewrite (filter_all (keyed key)) by reflexivity.
  - reflexivity.
Qed.

(* ===================================================================== *)
(** * Further properties: the dates shown                                 *)
(* ===================================================================== *)

Section Calendar.

Lemma forall_from_spec (p : Z -> bool) (count : nat) (start z : Z) :
  forall_from p start count = true ->
  start <= z < start + Z.of_nat count -> p z = true.
Proof.
  revert start. induction count as [|c IH]; intros start H B; [lia|].
  cbn [forall_from] in H. apply andb_true_iff in H. destruct H as [H0 H].
  destruct (Z.eq_dec z start) as [->|N]; [exact H0|].
  apply (IH (start + 1) H). lia.
Qed.

(** The 400 years of an era, the 366 days of a year and the days of the
    twelve months, checked one by one. *)
Lemma years_checked : forall_from year_checked 0 400 = true.
Proof. vm_compute. reflexivity. Qed.

Lemma doys_checked : forall_from doy_checked 0 366 = true.
Proof. vm_compute. reflexivity. Qed.

Lemma month_days_checked :
  forall_from (fun m => forall_from (month_day_checked m) 1 31) 1 12 = true.
Proof. vm_compute. reflexivity. Qed.

Lemma year_checked_spec (k : Z) :
  0 <= k <= 399 ->
  year_of_era (year_start k) = k /\ year_of_era (year_end k) = k /\
  year_end k - year_start k = (if leap_year (k + 1) then 365 else 364).
Proof.
  intros H. pose proof (forall_from_spec _ _ 0 k years_checked ltac:(cbn; lia)) as C.
  unfold year_checked in C.
  repeat (apply andb_true_iff in C; destruct C as [C ?]).
  repeat split; now apply Z.eqb_eq.
Qed.

Lemma year_of_era_mono (a b : Z) :
  0 <= a <= b -> b <= 146096 -> year_of_era a <= year_of_era b.
Proof.
  intros H B. unfold year_of_era. apply Z.div_le_mono; [lia|].
  Z.div_mod_to_equations. lia.
Qed.

Lemma year_start_bounds (k : Z) :
  0 <= k <= 399 -> 0 <= year_start k /\ year_start k <= year_end k <= 146096.
Proof.
  intros H. destruct (year_checked_spec k H) as (_ & _ & L).
  assert (S : 0 <= year_start k) by (unfold year_start; Z.div_mod_to_equations; lia).
  split; [exact S|]. split; [destruct (leap_year (k + 1)); lia|].
  unfold year_end. destruct (k =? 399); [lia|].
  unfold year_start. Z.div_mod_to_equations. lia.
Qed.

(** A day between the first and the last day of a year of the era is in
    that year. *)
Lemma year_of_era_within (k doe : Z) :
  0 <= k <= 399 -> year_start k <= doe <= year_end k -> year_of_era doe = k.
Proof.
  intros H B. destruct (year_checked_spec k H) as (S & E & _).
  destruct (year_start_bounds k H) as (P & _ & U).
  pose proof (year_of_era_mono (year_start k) doe ltac:(lia) ltac:(lia)).
  pose proof (year_of_era_mono doe (year_end k) ltac:(lia) ltac:(lia)). lia.
Qed.

(** Every day of the era is in one of its years. *)
Lemma year_exists (doe : Z) :
  0 <= doe <= 146096 -> exists k, 0 <= k <= 399 /\ year_start k <= doe <= year_end k.
Proof.
  intros H.
  assert (G : forall n : nat, (n <= 399)%nat -> doe <= year_end (Z.of_nat n) ->
                exists k, 0 <= k <= Z.of_nat n /\ year_start k <= doe <= year_end k).
  { induction n as [|n IH]; intros Hn Hd.
    - exists 0. split; [lia|]. split; [|exact Hd]. change (year_start 0) with 0. lia.
    - destruct (Z_le_gt_dec doe (year_end (Z.of_nat n))) as [L|L].
      + destruct (IH ltac:(lia) L) as (k & Hk & B). exists k. split; [lia|exact B].
      + exists (Z.of_nat (S n)). split; [lia|]. split; [|exact Hd].
        unfold year_end in L. destruct (Z.eqb_spec (Z.of_nat n) 399); [lia|].
        rewrite Nat2Z.inj_succ. unfold Z.succ. lia. }
  destruct (G 399%nat (le_n _) ltac:(change (year_end (Z.of_nat 399)) with 146096; lia))
    as (k & Hk & B).
  exists k. split; [lia|exact B].
Qed.

Lemma year_of_era_spec (doe : Z) :
  0 <= doe <= 146096 ->
  0 <= year_of_era doe <= 399 /\
  year_start (year_of_era doe) <= doe <= year_end (year_of_era doe).
Proof.
  intros H. destruct (year_exists doe H) as (k & Hk & B).
  now rewrite (year_of_era_within k doe Hk B).
Qed.

Lemma doy_checked_spec (doy : Z) :
  0 <= doy <= 365 ->
  let mp := month_of_doy doy in
  let d := doy - month_start mp + 1 in
  let m := if mp <? 10 then mp + 3 else mp - 9 in
  0 <= mp <= 11 /\ 1 <= d /\ d <= days_in_month (if doy =? 365 then 2000 else 2001) m.
Proof.
  intros H. pose proof (forall_from_spec _ _ 0 doy doys_checked ltac:(cbn; lia)) as C.
  unfold doy_checked in C. cbv zeta in C |- *.
  repeat (apply andb_true_iff in C; destruct C as [C ?]). lia.
Qed.

Lemma month_day_checked_spec (m d : Z) :
  1 <= m <= 12 -> 1 <= d <= days_in_month 2000 m ->
  let mp := if 2 <? m then m - 3 else m + 9 in
  let doy := month_start mp + d - 1 in
  0 <= doy <= 365 /\ month_of_doy doy = mp /\ (doy = 365 -> m = 2 /\ d = 29).
Proof.
  intros Hm Hd.
  assert (D31 : d <= 31).
  { unfold days_in_month in Hd. destruct (m =? 2); [cbn in Hd; lia|].
    destruct ((m =? 4) || (m =? 6) || (m =? 9) || (m =? 11)); lia. }
  pose proof (forall_from_spec _ _ 1 m month_days_checked ltac:(cbn; lia)) as C.
  cbv beta in C.
  pose proof (forall_from_spec _ _ 1 d C ltac:(cbn; lia)) as Cd.
  unfold month_day_checked in Cd. cbv zeta in Cd |- *.
  destruct (Z.leb_spec d (days_in_month 2000 m)); [|lia]. cbn [negb orb] in Cd.
  repeat (apply andb_true_iff in Cd; destruct Cd as [Cd ?]).
  repeat split; lia.
Qed.

(** The length of a month depends on the year in February alone, where a
    leap year has one day more. *)
Lemma days_in_month_any (y m : Z) :
  days_in_month 2001 m <= days_in_month y m <= days_in_month 2000 m /\
  (leap_year y = true -> days_in_month y m = days_in_month 2000 m).
Proof.
  unfold days_in_month. change (leap_year 2000) with true. change (leap_year 2001) with false.
  destruct (m =? 2); [destruct (leap_year y); lia|].
  destruct ((m =? 4) || (m =? 6) || (m =? 9) || (m =? 11)); lia.
Qed.

(** The calendar repeats every 400 years, which are 146097 days. *)
Lemma leap_year_shift (y k : Z) : leap_year (y + k * 400) = leap_year y.
Proof.
  unfold leap_year.
  replace ((y + k * 400) mod 4) with (y mod 4)
    by (replace (y + k * 400) with (y + (100 * k) * 4) by ring; now rewrite Z.mod_add).
  replace ((y + k * 400) mod 100) with (y mod 100)
    by (replace (y + k * 400) with (y + (4 * k) * 100) by ring; now rewrite Z.mod_add).
  now rewrite Z.mod_add.
Qed.

(** Every day number has a valid civil date, and is the day number of
    that date. *)
Lemma civil_from_days_valid (z : Z) :
  let '(y, m, d) := civil_from_days z in
  valid_date y m d = true /\ Pd.days_from_civil y m d = z.
Proof.
  unfold civil_from_days, civil_of_doe. cbv zeta.
  set (z' := z + 719468). set (era := z' / 146097).
  pose proof (Z.div_mod z' 146097 ltac:(lia)) as D. fold era in D.
  pose proof (Z.mod_pos_bound z' 146097 ltac:(lia)) as B.
  set (doe := z' - era * 146097).
  assert (R : 0 <= doe <= 146096) by (unfold doe; lia).
  destruct (year_of_era_spec doe R) as (K & S).
  set (k := year_of_era doe) in *.
  destruct (year_checked_spec k K) as (_ & _ & L).
  set (doy := doe - year_start k).
  assert (Y : 0 <= doy <= 365) by (unfold doy; destruct (leap_year (k + 1)); lia).
  pose proof (doy_checked_spec doy Y) as M. cbv zeta in M.
  set (mp := month_of_doy doy) in *.
  set (d := doy - month_start mp + 1) in *.
  destruct M as (Hmp & Hd1 & Hd2).
  assert (Q : (k + era * 400) / 400 = era)
    by (symmetry; apply (Z.div_unique _ _ _ k); lia).
  unfold valid_date, Pd.days_from_civil.
  destruct (Z.ltb_spec mp 10) as [Lm|Lm].
  - (* March to December *)
    destruct (Z.leb_spec (mp + 3) 2); [lia|].
    destruct (Z.ltb_spec 2 (mp + 3)); [|lia].
    pose proof (days_in_month_any (k + era * 400) (mp + 3)) as [[A1 A2] A3].
    split.
    + repeat (apply andb_true_iff; split); apply Z.leb_le; try lia.
      destruct (Z.eqb_spec doy 365) as [E|E]; [|lia].
      assert (N2 : (mp + 3 =? 2) = false) by (apply Z.eqb_neq; lia).
      unfold days_in_month in Hd2 |- *. rewrite N2 in *. exact Hd2.
    + rewrite Q. replace (k + era * 400 - era * 400) with k by ring.
      replace (mp + 3 - 3) with mp by ring. fold (month_start mp).
      unfold d, doy, doe, z', year_start. ring.
  - (* January and February, of the next civil year *)
    destruct (Z.leb_spec (mp - 9) 2); [|lia].
    destruct (Z.ltb_spec 2 (mp - 9)); [lia|].
    pose proof (days_in_month_any (k + era * 400 + 1) (mp - 9)) as [[A1 A2] A3].
    split.
    + repeat (apply andb_true_iff; split); apply Z.leb_le; try lia.
      destruct (Z.eqb_spec doy 365) as [E|E]; [|lia].
      rewrite A3; [exact Hd2|].
      replace (k + era * 400 + 1) with (k + 1 + era * 400) by ring.
      rewrite leap_year_shift. destruct (leap_year (k + 1)); [reflexivity|lia].
    + replace (k + era * 400 + 1 - 1) with (k + era * 400) by ring.
      rewrite Q. replace (k + era * 400 - era * 400) with k by ring.
      replace (mp - 9 + 9) with mp by ring. fold (month_start mp).
      unfold d, doy, doe, z', year_start. ring.
Qed.

(** A valid date is the civil date of its day number. *)
Lemma civil_from_days_of_date (y m d : Z) :
  valid_date y m d = true -> civil_from_days (Pd.days_from_civil y m d) = (y, m, d).
Proof.
  intros V. unfold valid_date in V.
  repeat (apply andb_true_iff in V; destruct V as [V ?]).
  assert (Hm : 1 <= m <= 12) by lia.
  assert (Hd : 1 <= d <= days_in_month y m) by lia.
  pose proof (days_in_month_any y m) as [[A1 A2] A3].
  pose proof (month_day_checked_spec m d Hm ltac:(lia)) as M. cbv zeta in M.
  set (y' := if m <=? 2 then y - 1 else y).
  set (mp := if 2 <? m then m - 3 else m + 9) in *.
  set (doy := month_start mp + d - 1) in *.
  destruct M as (Y & Mo & F).
  set (era := y' / 400).
  pose proof (Z.div_mod y' 400 ltac:(lia)) as D. fold era in D.
  pose proof (Z.mod_pos_bound y' 400 ltac:(lia)) as B.
  set (k := y' - era * 400).
  assert (K : 0 <= k <= 399) by (unfold k; lia).
  destruct (year_checked_spec k K) as (_ & _ & L).
  destruct (year_start_bounds k K) as (P & _ & U).
  assert (In : doy <= year_end k - year_start k).
  { destruct (Z.eq_dec doy 365) as [E|E]; [|destruct (leap_year (k + 1)); lia].
    destruct (F E) as [-> ->].
    assert (Ly : leap_year y = true).
    { unfold days_in_month in Hd. cbn [Z.eqb Pos.eqb] in Hd.
      destruct (leap_year y); [reflexivity|lia]. }
    assert (Ek : y = k + 1 + era * 400) by (unfold k, y'; cbn; lia).
    rewrite Ek, leap_year_shift in Ly. rewrite Ly in L. lia. }
  assert (E : Pd.days_from_civil y m d = era * 146097 + (year_start k + doy) - 719468).
  { unfold Pd.days_from_civil. fold y'. fold era. fold k. fold mp. fold (month_start mp).
    unfold doy, year_start. ring. }
  rewrite E. unfold civil_from_days. cbv zeta.
  set (doe := year_start k + doy).
  assert (Q : (era * 146097 + doe - 719468 + 719468) / 146097 = era).
  { symmetry. apply (Z.div_unique _ _ _ doe); unfold doe; lia. }
  rewrite Q.
  replace (era * 146097 + doe - 719468 + 719468 - era * 146097) with doe by ring.
  unfold civil_of_doe. cbv zeta.
  rewrite (year_of_era_within k doe K) by (unfold doe; lia).
  replace (doe - year_start k) with doy by (unfold doe; ring).
  rewrite Mo.
  replace (doy - month_start mp + 1) with d by (unfold doy; ring).
  unfold mp, k, y'.
  destruct (Z.ltb_spec 2 m).
  - destruct (Z.ltb_spec (m - 3) 10); [|lia].
    destruct (Z.leb_spec (m - 3 + 3) 2); [lia|].
    destruct (Z.leb_spec m 2); [lia|].
    repeat f_equal; lia.
  - destruct (Z.ltb_spec (m + 9) 10); [lia|].
    destruct (Z.leb_spec (m + 9 - 9) 2); [|lia].
    destruct (Z.leb_spec m 2); [|lia].
    repeat f_equal; lia.
Qed.

End Calendar.

Section Display.
Variable madrid : Z -> Z.

Lemma dec_digit (n : Z) :
  0 <= n < 10 -> exists c, PyNum.dec n = String c EmptyString.
Proof.
  intros H. rewrite <- (Z2Nat.id n) by lia.
  assert (B : (Z.to_nat n < 10)%nat) by lia.
  clear H. revert B. generalize (Z.to_nat n). intros k B.
  do 10 (destruct k as [|k]; [eexists; reflexivity|]). lia.
Qed.

Lemma two_digits_chars (n : Z) :
  0 <= n < 100 -> exists a b, two_digits n = String a (String b EmptyString).
Proof.
  intros H. unfold two_digits.
  pose proof (Z.div_pos n 10 ltac:(lia) ltac:(lia)).
  pose proof (Z.div_lt_upper_bound n 10 10 ltac:(lia) ltac:(lia)).
  pose proof (Z.mod_pos_bound n 10 ltac:(lia)).
  destruct (dec_digit (n / 10) ltac:(lia)) as [a Ea].
  destruct (dec_digit (n mod 10) ltac:(lia)) as [b Eb].
  exists a, b. now rewrite Ea, Eb.
Qed.

Lemma days_in_month_le (y m : Z) : days_in_month y m <= 31.
Proof.
  unfold days_in_month. destruct (m =? 2); [destruct (leap_year y); lia|].
  destruct ((m =? 4) || (m =? 6) || (m =? 9) || (m =? 11)); lia.
Qed.

Lemma valid_date_range (y m d : Z) :
  valid_date y m d = true -> 1 <= m <= 12 /\ 1 <= d <= 31.
Proof.
  unfold valid_date. intros V.
  repeat (apply andb_true_iff in V; destruct V as [V ?]).
  pose proof (days_in_month_le y m). lia.
Qed.

(** The wall clock of Madrid is on the day of the instant or on the next
    one. *)
Lemma madrid_day (v : Z) :
  0 <= madrid v < Pd.ns_per_day ->
  (v + madrid v) / Pd.ns_per_day =
  v / Pd.ns_per_day + (if v mod Pd.ns_per_day + madrid v <? Pd.ns_per_day then 0 else 1).
Proof.
  rewrite ns_per_day_value. intros H.
  pose proof (Z.div_mod v 86400000000000 ltac:(lia)) as D.
  pose proof (Z.mod_pos_bound v 86400000000000 ltac:(lia)) as B.
  destruct (Z.ltb_spec (v mod 86400000000000 + madrid v) 86400000000000).
  - symmetry. apply (Z.div_unique _ _ _ (v mod 86400000000000 + madrid v)); lia.
  - symmetry.
    apply (Z.div_unique _ _ _ (v mod 86400000000000 + madrid v - 86400000000000)); lia.
Qed.

Lemma format_instant (t : Pd.Timestamp) :
  format_datetime_for_display madrid (Some t) =
  let '(y, m, d) := civil_from_days ((Pd.value t + madrid (Pd.value t)) / Pd.ns_per_day) in
  (two_digits d ++ "/" ++ two_digits m ++ "/" ++ two_digits (y mod 100))%string.
Proof. unfold format_datetime_for_display. now destruct (Pd.tz t). Qed.

(** X28.  A midnight of UTC, naive or zoned, is shown as its own date,
    day, month and the last two digits of the year, as long as Madrid is
    ahead of UTC by less than a day: the cut-off that [main] builds from the
    date picked is shown as the date picked. *)
Theorem display_of_midnight (y m d : Z) :
  (forall t, 0 <= madrid t < Pd.ns_per_day) ->
  valid_date y m d = true ->
  format_datetime_for_display madrid (Some (Pd.Timestamp_of_date y m d None)) =
    (two_digits d ++ "/" ++ two_digits m ++ "/" ++ two_digits (y mod 100))%string /\
  format_datetime_for_display madrid (Some (Pd.Timestamp_of_date y m d (Some Pd.UTC))) =
    (two_digits d ++ "/" ++ two_digits m ++ "/" ++ two_digits (y mod 100))%string.
Proof.
  intros H V.
  assert (E : forall zone,
             format_datetime_for_display madrid (Some (Pd.Timestamp_of_date y m d zone)) =
             (two_digits d ++ "/" ++ two_digits m ++ "/" ++ two_digits (y mod 100))%string).
  { intros zone. rewrite format_instant. cbn [Pd.Timestamp_of_date Pd.value].
    set (v := Pd.days_from_civil y m d * Pd.ns_per_day).
    rewrite (madrid_day v (H v)).
    assert (P : 0 < Pd.ns_per_day) by reflexivity.
    assert (M : v mod Pd.ns_per_day = 0) by (unfold v; apply Z.mod_mul; lia).
    assert (Q : v / Pd.ns_per_day = Pd.days_from_civil y m d)
      by (unfold v; apply Z.div_mul; lia).
    rewrite M, Q. destruct (H v) as [_ U].
    destruct (Z.ltb_spec (0 + madrid v) Pd.ns_per_day); [|lia].
    now rewrite Z.add_0_r, (civil_from_days_of_date y m d V). }
  split; apply E.
Qed.

(** X29.  A missing timestamp is shown as the empty text; every other
    timestamp, whatever the offsets of Madrid, is shown as a text of eight
    characters with a slash in the third and in the sixth place.  A naive
    timestamp is shown like the UTC instant of the same value. *)
Theorem display_shape (t : Pd.Timestamp) :
  format_datetime_for_display madrid None = EmptyString /\
  String.length (format_datetime_for_display madrid (Some t)) = 8%nat /\
  String.get 2 (format_datetime_for_display madrid (Some t)) = Some "/"%char /\
  String.get 5 (format_datetime_for_display madrid (Some t)) = Some "/"%char /\
  format_datetime_for_display madrid (Some t) =
    format_datetime_for_display madrid (Some (Pd.tz_localize_UTC t)).
Proof.
  split; [reflexivity|]. rewrite !format_instant. cbn [Pd.tz_localize_UTC Pd.value].
  pose proof (civil_from_days_valid ((Pd.value t + madrid (Pd.value t)) / Pd.ns_per_day)) as V.
  destruct (civil_from_days _) as [[y m] d]. destruct V as [V _].
  apply valid_date_range in V. destruct V as [Hm Hd].
  pose proof (Z.mod_pos_bound y 100 ltac:(lia)) as Hy.
  destruct (two_digits_chars d ltac:(lia)) as (d1 & d2 & ->).
  destruct (two_digits_chars m ltac:(lia)) as (m1 & m2 & ->).
  destruct (two_digits_chars (y mod 100) Hy) as (y1 & y2 & ->).
  repeat split.
Qed.

(** X30.  The date shown is the civil date of the instant's UTC day, or of
    the day after: the day after exactly when the time of day in UTC plus
    the offset of Madrid reaches midnight.  A treatment reported late in
    the evening, UTC, is listed under the next day. *)
Theorem display_day (v : Z) (zone : option Pd.tzinfo) :
  0 <= madrid v < Pd.ns_per_day ->
  let day := v / Pd.ns_per_day +
             (if v mod Pd.ns_per_day + madrid v <? Pd.ns_per_day then 0 else 1) in
  format_datetime_for_display madrid (Some {| Pd.value := v; Pd.tz := zone |}) =
  let '(y, m, d) := civil_from_days day in
  (two_digits d ++ "/" ++ two_digits m ++ "/" ++ two_digits (y mod 100))%string.
Proof.
  intros H. cbv zeta. rewrite format_instant. cbn [Pd.value]. now rewrite (madrid_day v H).
Qed.

End Display.

Lemma europe_madrid_range (t : Z) : 0 <= europe_madrid t < Pd.ns_per_day.
Proof.
  unfold europe_madrid. destruct (civil_from_days _) as [[y m] d].
  destruct (_ && _); split; reflexivity || discriminate.
Qed.

Lemma display_of_midnight_witness :
  format_datetime_for_display europe_madrid
    (Some (Pd.Timestamp_of_date 2023 3 15 (Some Pd.UTC))) = "15/03/23"%string.
Proof.
  exact (proj2 (display_of_midnight europe_madrid 2023 3 15 europe_madrid_range eq_refl)).
Defined.

Lemma display_day_witness :
  format_datetime_for_display europe_madrid
    (Some {| Pd.value := 1735687800 * 1000000000; Pd.tz := Some Pd.UTC |}) = "01/01/25"%string.
Proof.
  exact (display_day europe_madrid (1735687800 * 1000000000) (Some Pd.UTC)
           (europe_madrid_range _)).
Defined.
